(** * Data forwarding admin screens: rule editor, script editor, script tester

    A shallow embedding of the view logic of the data-forwarding screens
    (rule-modal, script-modal, script-test-modal, data-forward/index) and of
    the parts of the JavaScript runtime they rely on ([JSON.parse],
    [JSON.stringify], truthiness, property reads, string coercion). *)

From Stdlib Require Import ZArith NArith Lia String Ascii Decimal DecimalN DecimalFacts.
From stdpp Require Import base option list.

Local Open Scope N_scope.

(* ===================================================================== *)
(** * The JavaScript values and built-ins used by the components          *)
(* ===================================================================== *)

Module JS.

(** A JavaScript string is a sequence of UTF-16 code units. *)
Definition jsstring := list N.

(** Code unit of an ASCII character, and the string of an ASCII literal. *)
Definition ch (a : ascii) : N := N_of_ascii a.
Definition lit (s : string) : jsstring := map ch (list_ascii_of_string s).

(** Numbers.  A JavaScript number is an IEEE double; the model keeps a
    decimal instead: an integer, or [m * 10^-e] with [m] not a multiple of
    ten.  A double is modelled by its shortest decimal, the one
    Number::toString writes, and a text read by JSON.parse by the decimal it
    spells.  The two views agree where the text spells the shortest decimal
    of its double: on every integer of at most fifteen digits (they are
    below 2^53) and on every decimal of at most fifteen significant digits
    in the normal range ([exact_number] below); a decimal too small to be
    a double other than 0 is read as 0. *)
Inductive number :=
  | NInt (z : Z)
  | NDec (m : Z) (e : positive).

(** [m * 10^-e] is at most 2^-1075 in magnitude: the nearest double is 0.
    With [e] up to 323 and [m] not 0 the magnitude is at least 10^-323,
    which is above 2^-1075. *)
Definition underflows (m : Z) (e : Z) : bool :=
  ((323 <? e) && (Z.abs m * 2 ^ 1075 <=? 10 ^ e))%Z.

(** Runtime values: [undefined] and the JSON values.  An object is the list
    of its own properties in the order the engine lists them: array-index
    keys first, ascending, then the other keys in creation order
    ([set_key] keeps that order). *)
Local Unset Elimination Schemes.
Inductive value :=
  | VUndefined
  | VNull
  | VBool (b : bool)
  | VNum (n : number)
  | VStr (s : jsstring)
  | VArr (l : list value)
  | VObj (m : list (jsstring * value)).
Local Set Elimination Schemes.

Definition jsstring_eqb (a b : jsstring) : bool := bool_decide (a = b).

(** ToBoolean. *)
Definition truthy (v : value) : bool :=
  match v with
  | VUndefined | VNull => false
  | VBool b => b
  | VNum (NInt z) => negb (Z.eqb z 0)
  | VNum (NDec m e) => negb (underflows m (Z.pos e))
  | VStr s => match s with [] => false | _ => true end
  | VArr _ | VObj _ => true
  end.

(** [a || b] and [a ?? b]. *)
Definition or_else (a b : value) : value := if truthy a then a else b.
Definition nullish (a b : value) : value :=
  match a with VUndefined | VNull => b | _ => a end.

(** Own property lookup in an object's property list. *)
Fixpoint lookup_key (k : jsstring) (m : list (jsstring * value)) : option value :=
  match m with
  | [] => None
  | (k', v) :: m' => if jsstring_eqb k k' then Some v else lookup_key k m'
  end.

(** The array index a property key is: the canonical decimal spelling (no
    leading zero) of an integer below 2^32 - 1. *)
Fixpoint digits_value (k : jsstring) (acc : N) : option N :=
  match k with
  | [] => Some acc
  | c :: k' =>
      if (48 <=? c) && (c <=? 57) then digits_value k' (10 * acc + (c - 48))
      else None
  end.

Definition array_index (k : jsstring) : option N :=
  match k with
  | [] => None
  | [c] => digits_value [c] 0
  | c :: _ :: _ =>
      if c =? 48 then None
      else match digits_value k 0 with
           | Some n => if n <? 4294967295 then Some n else None
           | None => None
           end
  end.

(** The order in which an object lists its own properties: array indices
    first, ascending, then the other keys as they were created. *)
Definition precedes (k k' : jsstring) : bool :=
  match array_index k, array_index k' with
  | Some i, Some j => i <? j
  | Some _, None => true
  | None, _ => false
  end.

(** A key list in that order: no key comes after one it precedes. *)
Fixpoint ordered (ks : list jsstring) : bool :=
  match ks with
  | [] => true
  | k :: ks' => forallb (fun k' => negb (precedes k' k)) ks' && ordered ks'
  end.

(** [o[k] = v] on the property list of an object: an existing key keeps its
    position, a new array index goes to its place among the indices, any
    other new key goes last. *)
Fixpoint set_key (k : jsstring) (v : value) (m : list (jsstring * value))
  : list (jsstring * value) :=
  match m with
  | [] => [(k, v)]
  | (k', v') :: m' =>
      if jsstring_eqb k k' then (k, v) :: m'
      else if precedes k k' then (k, v) :: (k', v') :: m'
      else (k', v') :: set_key k v m'
  end.

(** Completion of an operation that may throw. *)
Inductive completion (A : Type) :=
  | Normal (a : A)
  | Throw.
Arguments Normal {A} a.
Arguments Throw {A}.

Definition bind {A B} (c : completion A) (k : A -> completion B) : completion B :=
  match c with Normal a => k a | Throw => Throw end.

(** [v.k] for a key that names no inherited property (none of the keys the
    components read is a member of [Object.prototype], [Array.prototype] or
    of a primitive wrapper): a TypeError on [undefined] and [null], the own
    property of an object, [undefined] otherwise. *)
Definition Get (v : value) (k : jsstring) : completion value :=
  match v with
  | VUndefined | VNull => Throw
  | VObj m => Normal (default VUndefined (lookup_key k m))
  | _ => Normal VUndefined
  end.

(** ** Number::toString *)

Definition digit_unit (k : N) : N := 48 + k.

Fixpoint uint_units (d : Decimal.uint) : jsstring :=
  match d with
  | Nil => []
  | D0 d => digit_unit 0 :: uint_units d
  | D1 d => digit_unit 1 :: uint_units d
  | D2 d => digit_unit 2 :: uint_units d
  | D3 d => digit_unit 3 :: uint_units d
  | D4 d => digit_unit 4 :: uint_units d
  | D5 d => digit_unit 5 :: uint_units d
  | D6 d => digit_unit 6 :: uint_units d
  | D7 d => digit_unit 7 :: uint_units d
  | D8 d => digit_unit 8 :: uint_units d
  | D9 d => digit_unit 9 :: uint_units d
  end.

(** Decimal digits of a natural number, most significant first. *)
Definition digits (n : N) : jsstring := uint_units (N.to_uint n).

Fixpoint strip_zeros_front (s : jsstring) : jsstring :=
  match s with
  | c :: s' => if N.eqb c (digit_unit 0) then strip_zeros_front s' else s
  | [] => []
  end.

Definition strip_zeros_back (s : jsstring) : jsstring :=
  rev (strip_zeros_front (rev s)).

(** The digit string [ds] (no trailing zero) with the decimal point after
    [n] digits, laid out as Number::toString does. *)
Definition layout (ds : jsstring) (n : Z) : jsstring :=
  let k := Z.of_nat (length ds) in
  if ((k <=? n) && (n <=? 21))%Z then
    ds ++ repeat (digit_unit 0) (Z.to_nat (n - k))
  else if ((0 <? n) && (n <=? 21))%Z then
    take (Z.to_nat n) ds ++ ch "." :: drop (Z.to_nat n) ds
  else if ((-6 <? n) && (n <=? 0))%Z then
    ch "0" :: ch "." :: repeat (digit_unit 0) (Z.to_nat (- n)) ++ ds
  else
    let mant := match ds with
                | [] => []
                | [d] => [d]
                | d :: rest => d :: ch "." :: rest
                end in
    mant ++ ch "e" :: (if (0 <=? n - 1)%Z then ch "+" else ch "-")
         :: digits (Z.abs_N (n - 1)).

(** A decimal that Number::toString writes without an exponent part, with
    at most [most] significant digits: its magnitude is at least 10^-6. *)
Definition plain_decimal (most : nat) (m : Z) (e : positive) : bool :=
  let k := length (digits (Z.abs_N m)) in
  negb (m mod 10 =? 0)%Z && (k <=? most)%nat && (-6 <? Z.of_nat k - Z.pos e)%Z.

(** The numbers on which the decimals of the model and the doubles of the
    engine agree whichever way they arise, written or read: the integers
    of at most fifteen digits, which are below 2^53, and the plain decimals
    of at most fifteen significant digits. *)
Definition exact_number (n : number) : bool :=
  match n with
  | NInt z => (length (digits (Z.abs_N z)) <=? 15)%nat
  | NDec m e => plain_decimal 15 m e
  end.

Definition Number_toString (x : number) : jsstring :=
  match x with
  | NInt z =>
      let ds := digits (Z.abs_N z) in
      let body := if (length ds <=? 21)%nat then ds
                  else layout (strip_zeros_back ds) (Z.of_nat (length ds)) in
      if (z <? 0)%Z then ch "-" :: body else body
  | NDec m e =>
      let ds := digits (Z.abs_N m) in
      let body := layout ds (Z.of_nat (length ds) - Z.pos e) in
      if (m <? 0)%Z then ch "-" :: body else body
  end.

(** ** ToString, as applied by template literals *)

Fixpoint join (sep : jsstring) (parts : list jsstring) : jsstring :=
  match parts with
  | [] => []
  | [p] => p
  | p :: rest => p ++ sep ++ join sep rest
  end.

Fixpoint sequence {A} (l : list (completion A)) : completion (list A) :=
  match l with
  | [] => Normal []
  | c :: l' => bind c (fun a => bind (sequence l') (fun r => Normal (a :: r)))
  end.

(** An object parsed from JSON has no callable [toString] of its own, so an
    own [toString] property hides [Object.prototype.toString] and the
    conversion ends in a TypeError; arrays convert through [join]. *)
Fixpoint ToString (v : value) : completion jsstring :=
  match v with
  | VUndefined => Normal (lit "undefined")
  | VNull => Normal (lit "null")
  | VBool true => Normal (lit "true")
  | VBool false => Normal (lit "false")
  | VNum n => Normal (Number_toString n)
  | VStr s => Normal s
  | VArr l =>
      bind (sequence (map (fun e => match e with
                                    | VUndefined | VNull => Normal []
                                    | _ => ToString e
                                    end) l))
           (fun parts => Normal (join (lit ",") parts))
  | VObj m =>
      match lookup_key (lit "toString") m with
      | Some _ => Throw
      | None => Normal (lit "[object Object]")
      end
  end.

(** ** JSON.stringify *)

Definition is_high_surrogate (c : N) : bool := (55296 <=? c) && (c <=? 56319).
Definition is_low_surrogate (c : N) : bool := (56320 <=? c) && (c <=? 57343).

Definition hex_unit (n : N) : N := if n <? 10 then 48 + n else 87 + n.

(** UnicodeEscape: a backslash, [u] and four lowercase hexadecimal digits. *)
Definition unicode_escape (c : N) : jsstring :=
  [ch "\"; ch "u"; hex_unit (c / 4096 mod 16); hex_unit (c / 256 mod 16);
   hex_unit (c / 16 mod 16); hex_unit (c mod 16)].

Definition quote_unit (c : N) : jsstring :=
  if c =? 8 then [ch "\"; ch "b"]
  else if c =? 9 then [ch "\"; ch "t"]
  else if c =? 10 then [ch "\"; ch "n"]
  else if c =? 12 then [ch "\"; ch "f"]
  else if c =? 13 then [ch "\"; ch "r"]
  else if c =? 34 then [ch "\"; 34]
  else if c =? ch "\" then [ch "\"; ch "\"]
  else if (c <? 32) || is_low_surrogate c then unicode_escape c
  else [c].

(** The body of QuoteJSONString: a surrogate pair is copied, a lone
    surrogate is escaped. *)
Fixpoint quote_units (s : jsstring) : jsstring :=
  match s with
  | [] => []
  | c :: s' =>
      if is_high_surrogate c then
        match s' with
        | d :: s'' =>
            if is_low_surrogate d then c :: d :: quote_units s''
            else unicode_escape c ++ quote_units s'
        | [] => unicode_escape c
        end
      else quote_unit c ++ quote_units s'
  end.

Definition QuoteJSONString (s : jsstring) : jsstring :=
  34 :: quote_units s ++ [34].

(** SerializeJSONProperty on a value that is not [undefined]; an [undefined]
    array element is written as [null], an [undefined] member is left out. *)
Fixpoint serialize (v : value) : jsstring :=
  match v with
  | VUndefined | VNull => lit "null"
  | VBool true => lit "true"
  | VBool false => lit "false"
  | VNum n => Number_toString n
  | VStr s => QuoteJSONString s
  | VArr l => ch "[" :: join (lit ",") (map serialize l) ++ [ch "]"]
  | VObj m =>
      ch "{" ::
      join (lit ",")
        ((fix members (m : list (jsstring * value)) : list jsstring :=
            match m with
            | [] => []
            | (k, x) :: m' =>
                match x with
                | VUndefined => members m'
                | _ => (QuoteJSONString k ++ ch ":" :: serialize x) :: members m'
                end
            end) m)
      ++ [ch "}"]
  end.

(** [JSON.stringify(v)]: [None] stands for the result [undefined]. *)
Definition JSON_stringify (v : value) : option jsstring :=
  match v with
  | VUndefined => None
  | _ => Some (serialize v)
  end.

(** ** JSON.parse *)

Definition is_ws (c : N) : bool :=
  (c =? 32) || (c =? 9) || (c =? 10) || (c =? 13).

Fixpoint skip_ws (s : jsstring) : jsstring :=
  match s with
  | c :: s' => if is_ws c then skip_ws s' else s
  | [] => []
  end.

Definition hex_value (c : N) : option N :=
  if (48 <=? c) && (c <=? 57) then Some (c - 48)
  else if (97 <=? c) && (c <=? 102) then Some (c - 87)
  else if (65 <=? c) && (c <=? 70) then Some (c - 55)
  else None.

Definition hex4 (a b c d : N) : option N :=
  match hex_value a, hex_value b, hex_value c, hex_value d with
  | Some x, Some y, Some z, Some w => Some (((x * 16 + y) * 16 + z) * 16 + w)
  | _, _, _, _ => None
  end.

Definition simple_escape (e : N) : option N :=
  if e =? 34 then Some 34
  else if e =? ch "\" then Some (ch "\")
  else if e =? ch "/" then Some (ch "/")
  else if e =? ch "b" then Some 8
  else if e =? ch "f" then Some 12
  else if e =? ch "n" then Some 10
  else if e =? ch "r" then Some 13
  else if e =? ch "t" then Some 9
  else None.

(** The characters of a string literal after its opening quote; the result is
    the string and the text after the closing quote. *)
Fixpoint parse_chars (s : jsstring) : option (jsstring * jsstring) :=
  match s with
  | [] => None
  | c :: s' =>
      if c =? 34 then Some ([], s')
      else if c =? ch "\" then
        match s' with
        | [] => None
        | e :: s'' =>
            if e =? ch "u" then
              match s'' with
              | a :: b :: x :: y :: s3 =>
                  match hex4 a b x y with
                  | Some u =>
                      match parse_chars s3 with
                      | Some (r, t) => Some (u :: r, t)
                      | None => None
                      end
                  | None => None
                  end
              | _ => None
              end
            else
              match simple_escape e with
              | Some u =>
                  match parse_chars s'' with
                  | Some (r, t) => Some (u :: r, t)
                  | None => None
                  end
              | None => None
              end
        end
      else if c <? 32 then None
      else
        match parse_chars s' with
        | Some (r, t) => Some (c :: r, t)
        | None => None
        end
  end.

Definition digit_of (c : N) : option (Decimal.uint -> Decimal.uint) :=
  if c =? 48 then Some D0 else if c =? 49 then Some D1
  else if c =? 50 then Some D2 else if c =? 51 then Some D3
  else if c =? 52 then Some D4 else if c =? 53 then Some D5
  else if c =? 54 then Some D6 else if c =? 55 then Some D7
  else if c =? 56 then Some D8 else if c =? 57 then Some D9
  else None.

(** The longest run of decimal digits at the head of the text. *)
Fixpoint read_digits (s : jsstring) : Decimal.uint * jsstring :=
  match s with
  | [] => (Nil, [])
  | c :: s' =>
      match digit_of c with
      | Some k => let (d, r) := read_digits s' in (k d, r)
      | None => (Nil, s)
      end
  end.

(** Removes up to [fuel] trailing zeros of the mantissa of [m * 10^-e]. *)
Fixpoint normalise (fuel : nat) (m : Z) (e : Z) : number :=
  match fuel with
  | O => NInt m
  | S fuel' =>
      if (e <=? 0)%Z then NInt m
      else if (m mod 10 =? 0)%Z then normalise fuel' (m / 10) (e - 1)
      else NDec m (Z.to_pos e)
  end.

(** The number with integer digits [ip], fraction digits [fd] and decimal
    exponent [ex]; 0 when it is too small to be a double other than 0. *)
Definition mk_number (neg : bool) (ip fd : Decimal.uint) (ex : Z) : number :=
  let m := Z.of_N (N.of_uint (Decimal.app ip fd)) in
  let m := if neg then (- m)%Z else m in
  let e := (ex - Z.of_nat (Decimal.nb_digits fd))%Z in
  if (m =? 0)%Z then NInt 0
  else if (0 <=? e)%Z then NInt (m * 10 ^ e)
  else if underflows m (- e) then NInt 0
  else normalise (Z.to_nat (- e)) m (- e).

Definition parse_exponent (neg : bool) (ip fd : Decimal.uint) (s : jsstring)
  : option (number * jsstring) :=
  match s with
  | c :: s' =>
      if (c =? ch "e") || (c =? ch "E") then
        let '(eneg, s1) :=
          match s' with
          | d :: s'' => if d =? ch "-" then (true, s'')
                        else if d =? ch "+" then (false, s'') else (false, s')
          | [] => (false, s')
          end in
        match read_digits s1 with
        | (Nil, _) => None
        | (ed, s2) =>
            let x := Z.of_N (N.of_uint ed) in
            Some (mk_number neg ip fd (if eneg then (- x)%Z else x), s2)
        end
      else Some (mk_number neg ip fd 0, s)
  | [] => Some (mk_number neg ip fd 0, s)
  end.

Definition parse_fraction (neg : bool) (ip : Decimal.uint) (s : jsstring)
  : option (number * jsstring) :=
  match s with
  | c :: s' =>
      if c =? ch "." then
        match read_digits s' with
        | (Nil, _) => None
        | (fd, s1) => parse_exponent neg ip fd s1
        end
      else parse_exponent neg ip Nil s
  | [] => parse_exponent neg ip Nil s
  end.

Definition parse_integer (neg : bool) (s : jsstring) : option (number * jsstring) :=
  match s with
  | c :: s' =>
      if c =? ch "0" then parse_fraction neg (D0 Nil) s'
      else
        match read_digits s with
        | (Nil, _) => None
        | (ip, s1) => parse_fraction neg ip s1
        end
  | [] => None
  end.

Definition parse_number (s : jsstring) : option (number * jsstring) :=
  match s with
  | c :: s' => if c =? ch "-" then parse_integer true s' else parse_integer false s
  | [] => None
  end.

(** Reads the keyword [w]. *)
Fixpoint expect (w s : jsstring) : option jsstring :=
  match w with
  | [] => Some s
  | a :: w' =>
      match s with
      | c :: s' => if c =? a then expect w' s' else None
      | [] => None
      end
  end.

Fixpoint parse_value (fuel : nat) (s : jsstring) : option (value * jsstring) :=
  match fuel with
  | O => None
  | S fuel' =>
      match skip_ws s with
      | [] => None
      | c :: s' =>
          if c =? ch "{" then
            match skip_ws s' with
            | d :: s'' =>
                if d =? ch "}" then Some (VObj [], s'')
                else
                  match parse_members fuel' s' with
                  | Some (m, t) =>
                      Some (VObj (fold_left (fun o kv => set_key kv.1 kv.2 o) m []), t)
                  | None => None
                  end
            | [] => None
            end
          else if c =? ch "[" then
            match skip_ws s' with
            | d :: s'' =>
                if d =? ch "]" then Some (VArr [], s'')
                else
                  match parse_elements fuel' s' with
                  | Some (l, t) => Some (VArr l, t)
                  | None => None
                  end
            | [] => None
            end
          else if c =? 34 then
            match parse_chars s' with
            | Some (r, t) => Some (VStr r, t)
            | None => None
            end
          else if c =? ch "t" then
            match expect (lit "rue") s' with
            | Some t => Some (VBool true, t)
            | None => None
            end
          else if c =? ch "f" then
            match expect (lit "alse") s' with
            | Some t => Some (VBool false, t)
            | None => None
            end
          else if c =? ch "n" then
            match expect (lit "ull") s' with
            | Some t => Some (VNull, t)
            | None => None
            end
          else
            match parse_number (c :: s') with
            | Some (n, t) => Some (VNum n, t)
            | None => None
            end
      end
  end
with parse_elements (fuel : nat) (s : jsstring) : option (list value * jsstring) :=
  match fuel with
  | O => None
  | S fuel' =>
      match parse_value fuel' s with
      | Some (v, s1) =>
          match skip_ws s1 with
          | c :: s2 =>
              if c =? ch "," then
                match parse_elements fuel' s2 with
                | Some (l, t) => Some (v :: l, t)
                | None => None
                end
              else if c =? ch "]" then Some ([v], s2)
              else None
          | [] => None
          end
      | None => None
      end
  end
with parse_members (fuel : nat) (s : jsstring)
  : option (list (jsstring * value) * jsstring) :=
  match fuel with
  | O => None
  | S fuel' =>
      match skip_ws s with
      | c :: s1 =>
          if c =? 34 then
            match parse_chars s1 with
            | Some (k, s2) =>
                match skip_ws s2 with
                | c2 :: s3 =>
                    if c2 =? ch ":" then
                      match parse_value fuel' s3 with
                      | Some (v, s4) =>
                          match skip_ws s4 with
                          | c3 :: s5 =>
                              if c3 =? ch "," then
                                match parse_members fuel' s5 with
                                | Some (m, t) => Some ((k, v) :: m, t)
                                | None => None
                                end
                              else if c3 =? ch "}" then Some ([(k, v)], s5)
                              else None
                          | [] => None
                          end
                      | None => None
                      end
                    else None
                | [] => None
                end
            | None => None
            end
          else None
      | [] => None
      end
  end.

(** [JSON.parse(text)]: [None] stands for a SyntaxError.  A repeated member
    name keeps its position and takes its last value; members are listed in
    the order of [set_key].  A number is the decimal the text spells (see
    [number]); [exact_number] says when that is also the shortest decimal
    of the double the engine reads.  The fuel never runs out on a JSON
    text: every nested call is paid for by a character of it. *)
Definition JSON_parse (text : jsstring) : option value :=
  match parse_value (S (length text)) text with
  | Some (v, rest) =>
      match skip_ws rest with
      | [] => Some v
      | _ :: _ => None
      end
  | None => None
  end.

End JS.
Import JS.

(* ===================================================================== *)
(** * Asynchronous handlers: requests, notifications, exceptions          *)
(* ===================================================================== *)

(** ** The forwarding API client (service/api/data-forwarding) *)

Module SourceType.
Inductive t := Device | Product | Group.
Definition code (x : t) : Z :=
  match x with Device => 1 | Product => 2 | Group => 3 end.
End SourceType.

Module ForwardingSource.
Record t := mk {
  id : option jsstring;
  rule_id : option jsstring;
  source_type : SourceType.t;
  source_id : jsstring }.
End ForwardingSource.

Module ForwardingTarget.
Record t := mk {
  id : option jsstring;
  rule_id : option jsstring;
  target_type : jsstring;
  config : jsstring }.
End ForwardingTarget.

Module ForwardingRule.
Record t := mk {
  id : option jsstring;
  name : jsstring;
  description : option jsstring;
  enabled : option Z;
  script_id : option jsstring;
  script_name : option jsstring;
  remark : option jsstring;
  tenant_id : option jsstring;
  created_at : option jsstring;
  updated_at : option jsstring;
  sources : option (list ForwardingSource.t);
  targets : option (list ForwardingTarget.t) }.

Definition with_enabled (e : option Z) (r : t) : t :=
  mk (id r) (name r) (description r) e (script_id r) (script_name r)
     (remark r) (tenant_id r) (created_at r) (updated_at r) (sources r)
     (targets r).

Definition with_id (i : option jsstring) (r : t) : t :=
  mk i (name r) (description r) (enabled r) (script_id r) (script_name r)
     (remark r) (tenant_id r) (created_at r) (updated_at r) (sources r)
     (targets r).
End ForwardingRule.

Module ForwardingScript.
Record t := mk {
  id : option jsstring;
  name : jsstring;
  script_content : option jsstring;
  description : option jsstring;
  enabled : option Z;
  remark : option jsstring;
  tenant_id : option jsstring;
  created_at : option jsstring;
  updated_at : option jsstring }.
End ForwardingScript.

Module RuleStatusParams.
Record t := mk { id : option jsstring; enabled : Z }.
End RuleStatusParams.

Module ScriptTestParams.
Record t := mk { script_content : jsstring; test_data : jsstring }.
End ScriptTestParams.

Module ScriptTestResult.
Record t := mk { success : bool; output : jsstring; error : jsstring }.
End ScriptTestResult.

(** Rows of the collaborator lists (devices, products) and the nodes of the
    device-group tree. *)
Module ListItem.
Record t := mk { id : option jsstring; name : option jsstring }.
End ListItem.

Module Paginated.
Record t (A : Type) := mk { list : option (list A); total : option Z }.
Arguments mk {A} _ _.
Arguments list {A} _.
Arguments total {A} _.
End Paginated.

Module GroupTree.
Record group := mk_group { id : option jsstring; name : option jsstring }.
Local Unset Elimination Schemes.
Inductive node := Node (g : option group) (children : option (list node)).
Local Set Elimination Schemes.
(** The tree endpoint answers with one root or with an array of roots. *)
Inductive data := One (n : node) | Many (l : list node).
End GroupTree.

Module PageParams.
Record t := mk { page : Z; page_size : Z }.
End PageParams.

(** The calls of the client, indexed by the type of the [data] they return. *)
Inductive ApiCall : Type -> Type :=
  | getForwardingRuleDetail (id : jsstring) : ApiCall ForwardingRule.t
  | createForwardingRule (data : ForwardingRule.t) : ApiCall ForwardingRule.t
  | updateForwardingRule (data : ForwardingRule.t) : ApiCall ForwardingRule.t
  | updateForwardingRuleStatus (params : RuleStatusParams.t) : ApiCall unit
  | deleteForwardingRule (id : jsstring) : ApiCall unit
  | getAllForwardingScripts : ApiCall (list ForwardingScript.t)
  | getForwardingScriptDetail (id : jsstring) : ApiCall ForwardingScript.t
  | createForwardingScript (data : ForwardingScript.t) : ApiCall ForwardingScript.t
  | updateForwardingScript (data : ForwardingScript.t) : ApiCall ForwardingScript.t
  | deleteForwardingScript (id : jsstring) : ApiCall unit
  | testForwardingScript (params : ScriptTestParams.t) : ApiCall ScriptTestResult.t
  | deviceList (params : PageParams.t) : ApiCall (Paginated.t ListItem.t)
  | deviceConfig (params : PageParams.t) : ApiCall (Paginated.t ListItem.t)
  | deviceGroupTree : ApiCall GroupTree.data.

(** What [request] resolves to: the pair of a data and an error channel. *)
Module Response.
Inductive ApiError := mk_error (message : jsstring).
Record t (A : Type) := mk { data : option A; error : option ApiError }.
Arguments mk {A} _ _.
Arguments data {A} _.
Arguments error {A} _.
End Response.

(** A promise settles by resolving or by rejecting. *)
Inductive settled (A : Type) :=
  | Resolved (r : A)
  | Rejected.
Arguments Resolved {A} r.
Arguments Rejected {A}.

(** The server as the handlers see it. *)
Definition Backend := forall T, ApiCall T -> settled (Response.t T).

(** The global notification API ([window.$message]); absent until the
    application shell has installed it. *)
Inductive MessageLevel := success | warning | error.

Record Window := { message_api : bool }.

(** What a handler does that the outside can observe. *)
Inductive Event :=
  | Request {T} (c : ApiCall T)
  | Message (level : MessageLevel) (text : string)
  | Emit (name : string).

(** ** Handlers as state transformers with a trace *)

Module Eff.
Record run (S A : Type) := mk {
  result : completion A;
  final : S;
  trace : list Event }.
Arguments mk {S A} _ _ _.
Arguments result {S A} _.
Arguments final {S A} _.
Arguments trace {S A} _.

Definition M (S A : Type) := S -> run S A.

Definition ret {S A} (a : A) : M S A := fun s => mk (Normal a) s [].

Definition bind {S A B} (m : M S A) (k : A -> M S B) : M S B :=
  fun s =>
    let r := m s in
    match result r with
    | Normal a =>
        let r' := k a (final r) in
        mk (result r') (final r') (trace r ++ trace r')
    | Throw => mk Throw (final r) (trace r)
    end.

Definition throw {S A} : M S A := fun s => mk Throw s [].
Definition get {S} : M S S := fun s => mk (Normal s) s [].
Definition modify {S} (f : S -> S) : M S unit := fun s => mk (Normal tt) (f s) [].
Definition log {S} (e : Event) : M S unit := fun s => mk (Normal tt) s [e].

(** [try { body } finally { fin }]. *)
Definition try_finally {S A} (body : M S A) (fin : M S unit) : M S A :=
  fun s =>
    let r := body s in
    let f := fin (final r) in
    match result f with
    | Normal _ => mk (result r) (final f) (trace r ++ trace f)
    | Throw => mk Throw (final f) (trace r ++ trace f)
    end.

(** [try { body } catch { handler }]. *)
Definition try_catch {S A} (body : M S A) (handler : M S A) : M S A :=
  fun s =>
    let r := body s in
    match result r with
    | Normal _ => r
    | Throw =>
        let h := handler (final r) in
        mk (result h) (final h) (trace r ++ trace h)
    end.

(** Starting a request, and awaiting a promise. *)
Definition start {S T} (srv : Backend) (c : ApiCall T) : M S (settled (Response.t T)) :=
  fun s => mk (Normal (srv T c)) s [Request c].

Definition await {S A} (p : settled A) : M S A :=
  match p with
  | Resolved r => ret r
  | Rejected => throw
  end.

Definition call {S T} (srv : Backend) (c : ApiCall T) : M S (Response.t T) :=
  bind (start srv c) await.

(** [window.$message?.level(text)]. *)
Definition message {S} (win : Window) (level : MessageLevel) (text : string) : M S unit :=
  if message_api win then log (Message level text) else ret tt.
End Eff.

Notation "x <- m ;; k" := (Eff.bind m (fun x => k))
  (at level 100, m at next level, right associativity).
Notation "m ;; k" := (Eff.bind m (fun _ => k))
  (at level 100, right associativity).

(** The notifications and component events of the screens. *)
Definition emit {S} (name : string) : Eff.M S unit := Eff.log (Emit name).

(** A truthy string: present and not empty. *)
Definition truthy_str (o : option jsstring) : bool :=
  match o with
  | Some (_ :: _) => true
  | _ => false
  end.

(** [a || b] on optional strings. *)
Definition or_str (a : option jsstring) (b : jsstring) : jsstring :=
  match a with
  | Some (c :: s) => c :: s
  | _ => b
  end.

Module SelectOption.
Record t := mk { label : option jsstring; value : option jsstring }.
End SelectOption.

(** ** Form validation *)

Module Form.
Record FormItemRule := mk_rule { required : bool; message : string }.

(** Modelled from the spec: [createRequiredFormRule] (utils/form/rule) is
    not among the sources.  The spec calls it the required-field check on
    the form: a field under this rule must be non-empty. *)
Definition createRequiredFormRule (message : string) : FormItemRule :=
  mk_rule true message.

Definition field_ok (r : FormItemRule) (v : jsstring) : bool :=
  negb (required r) || match v with [] => false | _ => true end.

(** Modelled from the spec: [validate] of the form instance resolves when
    every rule holds of the bound model and rejects otherwise, before any
    request is made. *)
Definition validate (checks : list (FormItemRule * jsstring)) : settled unit :=
  if forallb (fun c => field_ok c.1 c.2) checks then Resolved tt else Rejected.

(** The mounted form component behind [formRef]. *)
Inductive FormInst := NForm.
End Form.

(* ===================================================================== *)
(** * The rule editor (rule-modal)                                        *)
(* ===================================================================== *)

Module RuleModal.

Inductive ModalType := add | edit.

Record Props := mk_props {
  visible : bool;
  type : ModalType;
  editData : option ForwardingRule.t }.

Record FormModel := mk_form {
  name : jsstring;
  description : jsstring;
  script_id : option jsstring;
  remark : jsstring;
  sources : list ForwardingSource.t;
  targets : list ForwardingTarget.t }.

(** The two editor models of the target sub-dialog, objects of the types
    [HTTPTargetConfig] and [MQTTTargetConfig].  A field holds whatever the
    last decode or the input controls put there; an absent property is
    [VUndefined].  The initial mqtt model has no [version], and no handler
    of the component writes one. *)
Record HTTPTargetConfig := mk_http {
  url : value;
  method : value;
  headers : value;
  secret : value;
  timeout : value }.

Record MQTTTargetConfig := mk_mqtt {
  broker : value;
  port : value;
  topic : value;
  username : value;
  password : value;
  client_id : value;
  qos : value;
  version : value }.

Record State := mk_state {
  props : Props;
  formRef : option Form.FormInst;
  loading : bool;
  scriptOptions : list SelectOption.t;
  deviceOptions : list SelectOption.t;
  productOptions : list SelectOption.t;
  groupOptions : list SelectOption.t;
  formModel : FormModel;
  currentTargetIndex : option nat;
  targetConfigVisible : bool;
  targetConfigType : jsstring;
  httpConfig : HTTPTargetConfig;
  mqttConfig : MQTTTargetConfig }.

Definition rules_name : Form.FormItemRule :=
  Form.createRequiredFormRule "dataForwarding.ruleName".

(** Initial values of the reactive editor models. *)
Definition httpConfig_init : HTTPTargetConfig :=
  mk_http (VStr []) (VStr (lit "POST")) (VObj []) (VStr []) (VNum (NInt 30)).

Definition mqttConfig_init : MQTTTargetConfig :=
  mk_mqtt (VStr []) (VNum (NInt 1883)) (VStr []) (VStr []) (VStr []) (VStr [])
          (VNum (NInt 1)) VUndefined.

(** The own properties of the editor models, in creation order. *)
Definition http_object (c : HTTPTargetConfig) : value :=
  VObj [(lit "url", url c); (lit "method", method c); (lit "headers", headers c);
        (lit "secret", secret c); (lit "timeout", timeout c)].

Definition mqtt_object (c : MQTTTargetConfig) : value :=
  VObj [(lit "broker", broker c); (lit "port", port c); (lit "topic", topic c);
        (lit "username", username c); (lit "password", password c);
        (lit "client_id", client_id c); (lit "qos", qos c);
        (lit "version", version c)].

(** Field setters. *)
Definition set_formModel (f : FormModel) (s : State) : State :=
  mk_state (props s) (formRef s) (loading s) (scriptOptions s) (deviceOptions s)
    (productOptions s) (groupOptions s) f (currentTargetIndex s)
    (targetConfigVisible s) (targetConfigType s) (httpConfig s) (mqttConfig s).

Definition set_loading (b : bool) (s : State) : State :=
  mk_state (props s) (formRef s) b (scriptOptions s) (deviceOptions s)
    (productOptions s) (groupOptions s) (formModel s) (currentTargetIndex s)
    (targetConfigVisible s) (targetConfigType s) (httpConfig s) (mqttConfig s).

Definition set_scriptOptions (o : list SelectOption.t) (s : State) : State :=
  mk_state (props s) (formRef s) (loading s) o (deviceOptions s)
    (productOptions s) (groupOptions s) (formModel s) (currentTargetIndex s)
    (targetConfigVisible s) (targetConfigType s) (httpConfig s) (mqttConfig s).

Definition set_deviceOptions (o : list SelectOption.t) (s : State) : State :=
  mk_state (props s) (formRef s) (loading s) (scriptOptions s) o
    (productOptions s) (groupOptions s) (formModel s) (currentTargetIndex s)
    (targetConfigVisible s) (targetConfigType s) (httpConfig s) (mqttConfig s).

Definition set_productOptions (o : list SelectOption.t) (s : State) : State :=
  mk_state (props s) (formRef s) (loading s) (scriptOptions s) (deviceOptions s)
    o (groupOptions s) (formModel s) (currentTargetIndex s)
    (targetConfigVisible s) (targetConfigType s) (httpConfig s) (mqttConfig s).

Definition set_groupOptions (o : list SelectOption.t) (s : State) : State :=
  mk_state (props s) (formRef s) (loading s) (scriptOptions s) (deviceOptions s)
    (productOptions s) o (formModel s) (currentTargetIndex s)
    (targetConfigVisible s) (targetConfigType s) (httpConfig s) (mqttConfig s).

Definition set_currentTargetIndex (i : option nat) (s : State) : State :=
  mk_state (props s) (formRef s) (loading s) (scriptOptions s) (deviceOptions s)
    (productOptions s) (groupOptions s) (formModel s) i
    (targetConfigVisible s) (targetConfigType s) (httpConfig s) (mqttConfig s).

Definition set_targetConfigVisible (b : bool) (s : State) : State :=
  mk_state (props s) (formRef s) (loading s) (scriptOptions s) (deviceOptions s)
    (productOptions s) (groupOptions s) (formModel s) (currentTargetIndex s)
    b (targetConfigType s) (httpConfig s) (mqttConfig s).

Definition set_targetConfigType (t : jsstring) (s : State) : State :=
  mk_state (props s) (formRef s) (loading s) (scriptOptions s) (deviceOptions s)
    (productOptions s) (groupOptions s) (formModel s) (currentTargetIndex s)
    (targetConfigVisible s) t (httpConfig s) (mqttConfig s).

Definition set_httpConfig (c : HTTPTargetConfig) (s : State) : State :=
  mk_state (props s) (formRef s) (loading s) (scriptOptions s) (deviceOptions s)
    (productOptions s) (groupOptions s) (formModel s) (currentTargetIndex s)
    (targetConfigVisible s) (targetConfigType s) c (mqttConfig s).

Definition set_mqttConfig (c : MQTTTargetConfig) (s : State) : State :=
  mk_state (props s) (formRef s) (loading s) (scriptOptions s) (deviceOptions s)
    (productOptions s) (groupOptions s) (formModel s) (currentTargetIndex s)
    (targetConfigVisible s) (targetConfigType s) (httpConfig s) c.

Definition set_sources (l : list ForwardingSource.t) (f : FormModel) : FormModel :=
  mk_form (name f) (description f) (script_id f) (remark f) l (targets f).

Definition set_targets (l : list ForwardingTarget.t) (f : FormModel) : FormModel :=
  mk_form (name f) (description f) (script_id f) (remark f) (sources f) l.

Definition closeModal : Eff.M State unit := emit "update:visible".

(** [addSource], [removeSource], [addTarget], [removeTarget]. *)
Definition addSource (s : State) : State :=
  set_formModel
    (set_sources (sources (formModel s) ++
                  [ForwardingSource.mk None None SourceType.Device []])
                 (formModel s)) s.

Definition removeSource (index : nat) (s : State) : State :=
  set_formModel (set_sources (delete index (sources (formModel s))) (formModel s)) s.

Definition addTarget (s : State) : State :=
  set_formModel
    (set_targets
       (targets (formModel s) ++
        [ForwardingTarget.mk None None (lit "http")
           (serialize (VObj [(lit "url", VStr []); (lit "method", VStr (lit "POST"));
                             (lit "timeout", VNum (NInt 30))]))])
       (formModel s)) s.

Definition removeTarget (index : nat) (s : State) : State :=
  set_formModel (set_targets (delete index (targets (formModel s))) (formModel s)) s.

(** [Object.assign] of the object literals in [editTargetConfig]; a
    property read on a parsed [null] throws.  The literal for mqtt names
    seven properties, so the [version] of the model [old] stays what it
    was. *)
Definition http_fields (config : value) : completion HTTPTargetConfig :=
  JS.bind (Get config (lit "url")) (fun u =>
  JS.bind (Get config (lit "method")) (fun m =>
  JS.bind (Get config (lit "headers")) (fun h =>
  JS.bind (Get config (lit "secret")) (fun x =>
  JS.bind (Get config (lit "timeout")) (fun t =>
  Normal (mk_http (or_else u (VStr [])) (or_else m (VStr (lit "POST")))
                  (or_else h (VObj [])) (or_else x (VStr []))
                  (or_else t (VNum (NInt 30))))))))).

Definition mqtt_fields (config : value) (old : MQTTTargetConfig)
  : completion MQTTTargetConfig :=
  JS.bind (Get config (lit "broker")) (fun b =>
  JS.bind (Get config (lit "port")) (fun p =>
  JS.bind (Get config (lit "topic")) (fun t =>
  JS.bind (Get config (lit "username")) (fun u =>
  JS.bind (Get config (lit "password")) (fun w =>
  JS.bind (Get config (lit "client_id")) (fun c =>
  JS.bind (Get config (lit "qos")) (fun q =>
  Normal (mk_mqtt (or_else b (VStr [])) (or_else p (VNum (NInt 1883)))
                  (or_else t (VStr [])) (or_else u (VStr []))
                  (or_else w (VStr [])) (or_else c (VStr []))
                  (nullish q (VNum (NInt 1))) (version old))))))))).

Definition lift {A} (c : completion A) : Eff.M State A :=
  match c with
  | Normal a => Eff.ret a
  | Throw => Eff.throw
  end.

Definition parse (text : jsstring) : completion value :=
  match JSON_parse text with
  | Some v => Normal v
  | None => Throw
  end.

(** [editTargetConfig(index)]. *)
Definition editTargetConfig (index : nat) : Eff.M State unit :=
  s <- Eff.get;;
  let target := targets (formModel s) !! index in
  Eff.modify (set_currentTargetIndex (Some index));;
  target <- lift (match target with Some t => Normal t | None => Throw end);;
  Eff.modify (set_targetConfigType (ForwardingTarget.target_type target));;
  Eff.try_catch
    (config <- lift (parse (ForwardingTarget.config target));;
     if jsstring_eqb (ForwardingTarget.target_type target) (lit "http") then
       (c <- lift (http_fields config);; Eff.modify (set_httpConfig c))
     else
       (s <- Eff.get;;
        c <- lift (mqtt_fields config (mqttConfig s));;
        Eff.modify (set_mqttConfig c)))
    (Eff.ret tt);;
  Eff.modify (set_targetConfigVisible true).

(** [saveTargetConfig()]. *)
Definition saveTargetConfig : Eff.M State unit :=
  s <- Eff.get;;
  match currentTargetIndex s with
  | None => Eff.ret tt
  | Some i =>
      target <- lift (match targets (formModel s) !! i with
                      | Some t => Normal t
                      | None => Throw
                      end);;
      let config :=
        if jsstring_eqb (targetConfigType s) (lit "http")
        then serialize (http_object (httpConfig s))
        else serialize (mqtt_object (mqttConfig s)) in
      let target' :=
        ForwardingTarget.mk (ForwardingTarget.id target)
          (ForwardingTarget.rule_id target) (targetConfigType s) config in
      Eff.modify (fun s => set_formModel
                    (set_targets (<[i := target']> (targets (formModel s)))
                                 (formModel s)) s);;
      Eff.modify (set_targetConfigVisible false);;
      Eff.modify (set_currentTargetIndex None)
  end.

(** [getTargetSummary(target)]. *)
Definition summary_body (target : ForwardingTarget.t) : completion value :=
  JS.bind (parse (ForwardingTarget.config target)) (fun config =>
  if jsstring_eqb (ForwardingTarget.target_type target) (lit "http") then
    JS.bind (Get config (lit "url")) (fun u => Normal (or_else u (VStr (lit "-"))))
  else
    JS.bind (Get config (lit "broker")) (fun b =>
    JS.bind (ToString (or_else b (VStr (lit "-")))) (fun head =>
    JS.bind (Get config (lit "topic")) (fun t =>
    JS.bind (if truthy t
             then JS.bind (Get config (lit "topic")) (fun t' =>
                  JS.bind (ToString t') (fun ts =>
                  Normal (lit " (" ++ ts ++ lit ")")))
             else Normal []) (fun tail =>
    Normal (VStr (head ++ tail))))))).

Definition getTargetSummary (target : ForwardingTarget.t) : value :=
  match summary_body target with
  | Normal v => v
  | Throw => VStr (lit "-")
  end.

(** [flattenGroups(nodes, result)]: the callback of [forEach] is [visit];
    pushing onto the shared [result] array is threading the list. *)
Fixpoint visit (n : GroupTree.node) (result : list SelectOption.t)
  : list SelectOption.t :=
  match n with
  | GroupTree.Node group children =>
      let id := group ≫= GroupTree.id in
      let name := group ≫= GroupTree.name in
      let result :=
        if truthy_str id && truthy_str name
        then result ++ [SelectOption.mk name id]
        else result in
      match children with
      | Some (c :: cs) => fold_left (fun r m => visit m r) (c :: cs) result
      | _ => result
      end
  end.

Definition flattenGroups (nodes : list GroupTree.node) (result : list SelectOption.t)
  : list SelectOption.t :=
  fold_left (fun r m => visit m r) nodes result.

(** [Promise.all] of the four option requests. *)
Definition Promise_all4 {A B C D} (a : settled A) (b : settled B) (c : settled C)
  (d : settled D) : settled (A * B * C * D) :=
  match a, b, c, d with
  | Resolved x, Resolved y, Resolved z, Resolved w => Resolved (x, y, z, w)
  | _, _, _, _ => Rejected
  end.

Definition item_option (item : ListItem.t) : SelectOption.t :=
  SelectOption.mk
    (if truthy_str (ListItem.name item) then ListItem.name item else ListItem.id item)
    (ListItem.id item).

(** [loadOptions()]. *)
Definition loadOptions (srv : Backend) : Eff.M State unit :=
  Eff.try_catch
    (p1 <- Eff.start srv getAllForwardingScripts;;
     p2 <- Eff.start srv (deviceList (PageParams.mk 1 1000));;
     p3 <- Eff.start srv (deviceConfig (PageParams.mk 1 1000));;
     p4 <- Eff.start srv deviceGroupTree;;
     res <- Eff.await (Promise_all4 p1 p2 p3 p4);;
     let '(scriptsRes, devicesRes, productsRes, groupsRes) := res in
     match Response.data scriptsRes with
     | Some data =>
         Eff.modify (set_scriptOptions
           (map (fun item => SelectOption.mk (Some (ForwardingScript.name item))
                                             (ForwardingScript.id item)) data))
     | None => Eff.ret tt
     end;;
     match Response.data devicesRes ≫= Paginated.list with
     | Some l => Eff.modify (set_deviceOptions (map item_option l))
     | None => Eff.ret tt
     end;;
     match Response.data productsRes ≫= Paginated.list with
     | Some l => Eff.modify (set_productOptions (map item_option l))
     | None => Eff.ret tt
     end;;
     match Response.data groupsRes with
     | Some data =>
         Eff.modify (set_groupOptions
           (flattenGroups match data with
                          | GroupTree.Many l => l
                          | GroupTree.One n => [n]
                          end []))
     | None => Eff.ret tt
     end)
    (Eff.ret tt).

(** [resetForm()]. *)
Definition resetForm : Eff.M State unit :=
  Eff.modify (set_formModel (mk_form [] [] None [] [] [])).

(** [loadEditData()]. *)
Definition loadEditData (srv : Backend) : Eff.M State unit :=
  s <- Eff.get;;
  match editData (props s) ≫= ForwardingRule.id with
  | Some (c :: i) =>
      Eff.modify (set_loading true);;
      Eff.try_finally
        (r <- Eff.call srv (getForwardingRuleDetail (c :: i));;
         match Response.data r with
         | Some data =>
             Eff.modify (set_formModel
               (mk_form (ForwardingRule.name data)
                        (or_str (ForwardingRule.description data) [])
                        (match ForwardingRule.script_id data with
                         | Some (x :: y) => Some (x :: y)
                         | _ => None
                         end)
                        (or_str (ForwardingRule.remark data) [])
                        (default [] (ForwardingRule.sources data))
                        (default [] (ForwardingRule.targets data))))
         | None => Eff.ret tt
         end)
        (Eff.modify (set_loading false))
  | _ => Eff.ret tt
  end.

(** [formRef.value?.validate()], awaited. *)
Definition validate_form : Eff.M State unit :=
  s <- Eff.get;;
  match formRef s with
  | Some Form.NForm =>
      Eff.await (Form.validate [(rules_name, name (formModel s))])
  | None => Eff.ret tt
  end.

(** [handleSubmit()]. *)
Definition handleSubmit (srv : Backend) (win : Window) : Eff.M State unit :=
  validate_form;;
  Eff.modify (set_loading true);;
  Eff.try_finally
    (s <- Eff.get;;
     let f := formModel s in
     let submitData :=
       ForwardingRule.mk None (name f) (Some (description f)) None
         (match script_id f with Some (x :: y) => Some (x :: y) | _ => None end)
         None (Some (remark f)) None None None
         (Some (sources f)) (Some (targets f)) in
     let id := editData (props s) ≫= ForwardingRule.id in
     match type (props s), truthy_str id with
     | edit, true =>
         r <- Eff.call srv (updateForwardingRule (ForwardingRule.with_id id submitData));;
         match Response.error r with
         | None =>
             Eff.message win success "common.updateSuccess";;
             emit "success";;
             closeModal
         | Some _ => Eff.ret tt
         end
     | _, _ =>
         r <- Eff.call srv (createForwardingRule submitData);;
         match Response.error r with
         | None =>
             Eff.message win success "common.addSuccess";;
             emit "success";;
             closeModal
         | Some _ => Eff.ret tt
         end
     end)
    (Eff.modify (set_loading false)).

(** The watcher on [props.visible]. *)
Definition on_visible (srv : Backend) (newValue : bool) : Eff.M State unit :=
  if newValue then
    loadOptions srv;;
    s <- Eff.get;;
    match type (props s) with
    | edit => loadEditData srv
    | add => resetForm
    end
  else Eff.ret tt.

End RuleModal.

(* ===================================================================== *)
(** * The script editor (script-modal)                                    *)
(* ===================================================================== *)

Module ScriptModal.

Inductive ModalType := add | edit.

Record Props := mk_props {
  visible : bool;
  type : ModalType;
  editData : option ForwardingScript.t }.

Record FormModel := mk_form {
  name : jsstring;
  description : jsstring;
  script_content : jsstring;
  remark : jsstring }.

Record State := mk_state {
  props : Props;
  loading : bool;
  formModel : FormModel }.

Definition set_loading (b : bool) (s : State) : State :=
  mk_state (props s) b (formModel s).

Definition set_formModel (f : FormModel) (s : State) : State :=
  mk_state (props s) (loading s) f.

(** [defaultScriptContent()]: the Lua template, as UTF-16 code units. *)
Definition defaultScriptContent : jsstring :=
  lit "-- " ++
    [25968; 25454; 36716; 21457] ++
    lit " Lua " ++
    [33050; 26412; 31034; 20363; 10] ++
    lit "-- payload: " ++
    [21407; 22987; 28040; 24687; 65288] ++
    lit "JSON " ++
    [23383; 31526; 20018; 65289; 10] ++
    lit "-- " ++
    [36820; 22238; 20540] ++
    lit ": " ++
    [22788; 29702; 21518; 30340; 28040; 24687; 65288] ++
    lit "JSON " ++
    [23383; 31526; 20018; 65289; 10; 10] ++
    lit "local data = json.decode(payload)" ++
    [10; 10] ++
    lit "-- " ++
    [22312; 27492; 22788; 28155; 21152; 25968; 25454; 22788; 29702; 36923; 36753; 10] ++
    lit "-- " ++
    [20363; 22914] ++
    lit ": " ++
    [28155; 21152; 22788; 29702; 26102; 38388; 25139; 10] ++
    lit "data.processed_at = os.time() * 1000" ++
    [10; 10] ++
    lit "return json.encode(data)".

(** [resetForm()]. *)
Definition resetForm : Eff.M State unit :=
  Eff.modify (set_formModel (mk_form [] [] defaultScriptContent [])).

(** [loadEditData()]. *)
Definition loadEditData (srv : Backend) : Eff.M State unit :=
  s <- Eff.get;;
  match editData (props s) ≫= ForwardingScript.id with
  | Some (c :: i) =>
      Eff.modify (set_loading true);;
      Eff.try_finally
        (r <- Eff.call srv (getForwardingScriptDetail (c :: i));;
         match Response.data r with
         | Some data =>
             Eff.modify (set_formModel
               (mk_form (ForwardingScript.name data)
                        (or_str (ForwardingScript.description data) [])
                        (or_str (ForwardingScript.script_content data)
                                defaultScriptContent)
                        (or_str (ForwardingScript.remark data) [])))
         | None => Eff.ret tt
         end)
        (Eff.modify (set_loading false))
  | _ => Eff.ret tt
  end.

End ScriptModal.

(* ===================================================================== *)
(** * The script tester (script-test-modal)                               *)
(* ===================================================================== *)

Module ScriptTestModal.

Record FormModel := mk_form {
  script_content : jsstring;
  test_data : jsstring }.

Record State := mk_state {
  loading : bool;
  testResult : option ScriptTestResult.t;
  formModel : FormModel }.

Definition set_loading (b : bool) (s : State) : State :=
  mk_state b (testResult s) (formModel s).

Definition set_testResult (r : option ScriptTestResult.t) (s : State) : State :=
  mk_state (loading s) r (formModel s).

(** [handleTest()]. *)
Definition handleTest (srv : Backend) (win : Window) : Eff.M State unit :=
  s <- Eff.get;;
  match script_content (formModel s) with
  | [] => Eff.message win warning "dataForwarding.scriptRequired"
  | _ :: _ =>
      Eff.modify (set_loading true);;
      Eff.modify (set_testResult None);;
      Eff.try_finally
        (s <- Eff.get;;
         r <- Eff.call srv (testForwardingScript
                (ScriptTestParams.mk (script_content (formModel s))
                                     (test_data (formModel s))));;
         match Response.error r, Response.data r with
         | None, Some data =>
             Eff.modify (set_testResult (Some data));;
             if ScriptTestResult.success data
             then Eff.message win success "dataForwarding.testSuccess"
             else Eff.message win error "dataForwarding.testFailed"
         | _, _ => Eff.ret tt
         end)
        (Eff.modify (set_loading false))
  end.

End ScriptTestModal.

(* ===================================================================== *)
(** * The rule list (data-forward/index)                                  *)
(* ===================================================================== *)

Module DataForward.

(** [handleToggleStatus(row)]; the state is the table row. *)
Definition handleToggleStatus (srv : Backend) (win : Window)
  : Eff.M ForwardingRule.t unit :=
  row <- Eff.get;;
  let newStatus :=
    match ForwardingRule.enabled row with
    | Some 1%Z => 0%Z
    | _ => 1%Z
    end in
  r <- Eff.call srv (updateForwardingRuleStatus
         (RuleStatusParams.mk (ForwardingRule.id row) newStatus));;
  match Response.error r with
  | None =>
      Eff.modify (ForwardingRule.with_enabled (Some newStatus));;
      Eff.message win success "common.updateSuccess"
  | Some _ => Eff.ret tt
  end.

End DataForward.

(* ===================================================================== *)
(** * Observations used by the statements                                 *)
(* ===================================================================== *)

(** The network requests of a trace. *)
Definition is_request (e : Event) : bool :=
  match e with
  | Request _ => true
  | _ => false
  end.

Definition requests (t : list Event) : list Event := List.filter is_request t.

(** What may follow a value inside a JSON text: the end of the text, a
    comma, or a closing bracket or brace. *)
Definition delimited (rest : jsstring) : bool :=
  match rest with
  | [] => true
  | c :: _ => (c =? ch ",") || (c =? ch "]") || (c =? ch "}")
  end.

(** A member that [JSON.stringify] writes. *)
Definition defined (kv : jsstring * value) : bool :=
  match snd kv with
  | VUndefined => false
  | _ => true
  end.

(** The member texts of an object, as [serialize] writes them. *)
Fixpoint member_texts (m : list (jsstring * value)) : list jsstring :=
  match m with
  | [] => []
  | (k, x) :: m' =>
      match x with
      | VUndefined => member_texts m'
      | _ => (QuoteJSONString k ++ ch ":" :: serialize x) :: member_texts m'
      end
  end.

(** The JSON values the model writes and reads back exactly: no [undefined]
    inside, integers of at most 21 digits and plain decimals of at most 17
    (which [Number_toString] writes without an exponent part), objects
    without repeated keys, their keys in the order objects list them. *)
Definition wf_number (n : number) : bool :=
  match n with
  | NInt z => (length (digits (Z.abs_N z)) <=? 21)%nat
  | NDec m e => plain_decimal 17 m e
  end.

Fixpoint wf_json (v : value) : bool :=
  match v with
  | VUndefined => false
  | VNull | VBool _ | VStr _ => true
  | VNum n => wf_number n
  | VArr l => forallb wf_json l
  | VObj m =>
      bool_decide (NoDup (map fst m)) && ordered (map fst m) &&
      forallb (fun kv => wf_json (snd kv)) m
  end.

(** The values on which the model and the engine agree whichever way they
    arise: as [wf_json], with every number an [exact_number]. *)
Fixpoint exact (v : value) : bool :=
  match v with
  | VUndefined => false
  | VNull | VBool _ | VStr _ => true
  | VNum n => exact_number n
  | VArr l => forallb exact l
  | VObj m =>
      bool_decide (NoDup (map fst m)) && ordered (map fst m) &&
      forallb (fun kv => exact (snd kv)) m
  end.

(** What may follow a number: nothing that continues it. *)
Definition ends_number (rest : jsstring) : Prop :=
  match rest with
  | [] => True
  | c :: _ => digit_of c = None /\ c <> ch "." /\ c <> ch "e" /\ c <> ch "E"
  end.

(** [v], once written, is read back whatever delimiter follows it. *)
Definition reads_back (v : value) : Prop :=
  forall fuel rest,
    (length (serialize v) <= fuel)%nat -> delimited rest = true ->
    parse_value fuel (serialize v ++ rest) = Some (v, rest).

(** ** Target configurations as the data model describes them *)

Module TargetSpec.
Import RuleModal.

Definition required_string (v : value) : bool :=
  match v with
  | VStr (_ :: _) => true
  | _ => false
  end.

Definition optional_string (v : value) : bool :=
  match v with
  | VUndefined | VStr _ => true
  | _ => false
  end.

Definition optional_int (lo hi : Z) (v : value) : bool :=
  match v with
  | VUndefined => true
  | VNum (NInt z) => ((lo <=? z) && (z <=? hi))%Z
  | _ => false
  end.

(** An optional number from [lo] to [hi]: an integer, or the decimal a
    double in that range is written as (a double has at most 17
    significant digits). *)
Definition optional_number (lo hi : Z) (v : value) : bool :=
  match v with
  | VUndefined => true
  | VNum (NInt z) => ((lo <=? z) && (z <=? hi))%Z
  | VNum (NDec m e) =>
      plain_decimal 17 m e &&
      ((lo * 10 ^ Z.pos e <=? m) && (m <=? hi * 10 ^ Z.pos e))%Z
  | _ => false
  end.

Definition optional_method (v : value) : bool :=
  match v with
  | VUndefined => true
  | VStr s => bool_decide (s ∈ [lit "POST"; lit "PUT"; lit "GET"])
  | _ => false
  end.

(** [Record<string, string>]: an object, so its keys are distinct and in
    the order objects list them, with strings as values. *)
Definition optional_headers (v : value) : bool :=
  match v with
  | VUndefined => true
  | VObj m =>
      bool_decide (NoDup (map fst m)) && ordered (map fst m) &&
      forallb (fun kv => match snd kv with VStr _ => true | _ => false end) m
  | _ => false
  end.

(** A valid HTTPTargetConfig: [url] non-empty, [method] one of POST, PUT,
    GET, [headers] a string record, [timeout] a number from 1 to 120; the
    optional fields may be absent. *)
Definition valid_http (c : HTTPTargetConfig) : bool :=
  required_string (url c) && optional_method (method c) &&
  optional_headers (headers c) && optional_string (secret c) &&
  optional_number 1 120 (timeout c).

(** A valid MQTTTargetConfig: [broker] and [topic] non-empty, [port] a
    number from 1 to 65535, [qos] 0, 1 or 2, [version] a string; the
    optional fields may be absent. *)
Definition valid_mqtt (c : MQTTTargetConfig) : bool :=
  required_string (broker c) && optional_number 1 65535 (port c) &&
  required_string (topic c) && optional_string (username c) &&
  optional_string (password c) && optional_string (client_id c) &&
  optional_int 0 2 (qos c) && optional_string (version c).

(** A field that is present in [a] has the same value in [b]. *)
Definition kept (a b : value) : Prop := a <> VUndefined -> b = a.

Definition http_kept (c c' : HTTPTargetConfig) : Prop :=
  kept (url c) (url c') /\ kept (method c) (method c') /\
  kept (headers c) (headers c') /\ kept (secret c) (secret c') /\
  kept (timeout c) (timeout c').

(** The seven fields of an MQTTTargetConfig other than [version]. *)
Definition mqtt_kept (c c' : MQTTTargetConfig) : Prop :=
  kept (broker c) (broker c') /\ kept (port c) (port c') /\
  kept (topic c) (topic c') /\ kept (username c) (username c') /\
  kept (password c) (password c') /\ kept (client_id c) (client_id c') /\
  kept (qos c) (qos c').

Definition with_version (v : value) (c : MQTTTargetConfig) : MQTTTargetConfig :=
  mk_mqtt (broker c) (port c) (topic c) (username c) (password c)
          (client_id c) (qos c) v.

(** Every field of the editor model is present. *)
Definition http_present (c : HTTPTargetConfig) : Prop :=
  url c <> VUndefined /\ method c <> VUndefined /\ headers c <> VUndefined /\
  secret c <> VUndefined /\ timeout c <> VUndefined.

Definition mqtt_present (c : MQTTTargetConfig) : Prop :=
  broker c <> VUndefined /\ port c <> VUndefined /\ topic c <> VUndefined /\
  username c <> VUndefined /\ password c <> VUndefined /\
  client_id c <> VUndefined /\ qos c <> VUndefined.

(** What the [try] block of [editTargetConfig] leaves behind. *)
Definition decoded (t : ForwardingTarget.t) (s : State) : State :=
  match parse (ForwardingTarget.config t) with
  | Normal config =>
      if jsstring_eqb (ForwardingTarget.target_type t) (lit "http") then
        match http_fields config with
        | Normal c => set_httpConfig c s
        | Throw => s
        end
      else
        match mqtt_fields config (mqttConfig s) with
        | Normal c => set_mqttConfig c s
        | Throw => s
        end
  | Throw => s
  end.

(** Checks [P] on [n] consecutive integers from [z] on. *)
Fixpoint all_from (n : nat) (z : Z) (P : Z -> bool) : bool :=
  match n with
  | O => true
  | S n' => P z && all_from n' (z + 1)%Z P
  end.



End TargetSpec.

(** ** Sample data *)

Module Samples.
Import RuleModal.

Definition state0 : State :=
  mk_state (mk_props true add None) (Some Form.NForm) false [] [] [] []
    (mk_form [] [] None [] [] []) None false (lit "http")
    httpConfig_init mqttConfig_init.

(** A target whose configuration is not JSON, and an editor that still
    holds the configuration of the target edited before. *)
Definition broken_target : ForwardingTarget.t :=
  ForwardingTarget.mk None None (lit "http") (lit "{url:").

Definition stale_http : HTTPTargetConfig :=
  mk_http (VStr (lit "https://old.example/hook")) (VStr (lit "PUT")) (VObj [])
          (VStr (lit "s3cret")) (VNum (NInt 5)).

Definition stale_state : State :=
  mk_state (mk_props true add None) (Some Form.NForm) false [] [] [] []
    (mk_form (lit "rule") [] None [] [] [broken_target]) None false (lit "http")
    stale_http mqttConfig_init.

(** The target edited before, and a rule that holds it in front of the
    broken one. *)
Definition old_target : ForwardingTarget.t :=
  ForwardingTarget.mk None None (lit "http") (serialize (http_object stale_http)).

Definition two_targets : State :=
  mk_state (mk_props true add None) (Some Form.NForm) false [] [] [] []
    (mk_form (lit "rule") [] None [] [] [old_target; broken_target]) None false
    (lit "http") httpConfig_init mqttConfig_init.

Definition http_sample : HTTPTargetConfig :=
  mk_http (VStr (lit "https://x/y")) (VStr (lit "POST"))
          (VObj [(lit "X-Token", VStr (lit "a" ++ [34] ++ lit "b\c"))]) (VStr [])
          (VNum (NInt 30)).

Definition mqtt_sample : MQTTTargetConfig :=
  mk_mqtt (VStr (lit "mqtt.example.com")) (VNum (NInt 1883))
          (VStr (lit "iot/data")) (VStr []) (VStr []) (VStr []) (VNum (NInt 0))
          VUndefined.

(** A timeout of 30.5 seconds and headers with an array-index key. *)
Definition fractional_http : HTTPTargetConfig :=
  mk_http (VStr (lit "https://x/y")) (VStr (lit "GET"))
          (VObj [(lit "1", VStr (lit "y")); (lit "b", VStr (lit "x"))])
          VUndefined (VNum (NDec 305 1)).

(** An MQTTTargetConfig that names its protocol version. *)
Definition versioned_mqtt : MQTTTargetConfig :=
  mk_mqtt (VStr (lit "mqtt.example.com")) (VNum (NInt 1883))
          (VStr (lit "iot/data")) VUndefined VUndefined VUndefined
          (VNum (NInt 1)) (VStr (lit "5")).

Definition editing (type : jsstring) (h : HTTPTargetConfig) (m : MQTTTargetConfig)
  : State :=
  mk_state (mk_props true add None) (Some Form.NForm) false [] [] [] []
    (mk_form (lit "rule") [] None [] [] [broken_target]) (Some 0%nat) true type h m.

(** A word between double quotes (code unit 34). *)
Definition quoted (w : string) : jsstring := 34 :: lit w ++ [34].






(** A rule whose one target stores [versioned_mqtt], in a dialog whose
    editor models are as they are at first. *)
Definition versioned_target : ForwardingTarget.t :=
  ForwardingTarget.mk None None (lit "mqtt") (serialize (mqtt_object versioned_mqtt)).

Definition versioned_rule : State :=
  mk_state (mk_props true add None) (Some Form.NForm) false [] [] [] []
    (mk_form (lit "rule") [] None [] [] [versioned_target]) None false
    (lit "http") httpConfig_init mqttConfig_init.

Definition scriptless : ScriptTestModal.State :=
  ScriptTestModal.mk_state false None (ScriptTestModal.mk_form [] (lit "{}")).

Definition scripted : ScriptTestModal.State :=
  ScriptTestModal.mk_state false None
    (ScriptTestModal.mk_form (lit "return payload") (lit "{}")).

Definition stored_script : ForwardingScript.t :=
  ForwardingScript.mk (Some (lit "s1")) (lit "empty") (Some []) None None None
    None None None.

(** A server that knows one script, stored with an empty body. *)
Definition script_server : Backend :=
  fun T c =>
    match c in ApiCall T return settled (Response.t T) with
    | getForwardingScriptDetail _ => Resolved (Response.mk (Some stored_script) None)
    | _ => Rejected
    end.

Definition script_editing : ScriptModal.State :=
  ScriptModal.mk_state
    (ScriptModal.mk_props true ScriptModal.edit (Some stored_script)) false
    (ScriptModal.mk_form [] [] [] []).
End Samples.

Module GroupSpec.
Import GroupTree.

(** The option a node stands for, if it has both an id and a name. *)
Definition node_option (n : node) : option SelectOption.t :=
  match n with
  | Node g _ =>
      if truthy_str (g ≫= id) && truthy_str (g ≫= name)
      then Some (SelectOption.mk (g ≫= name) (g ≫= id))
      else None
  end.

(** Depth-first traversal, every node before its descendants and the
    subtrees in sibling order. *)
Fixpoint preorder (n : node) : list node :=
  match n with
  | Node g ch =>
      n :: match ch with
           | Some l => flat_map preorder l
           | None => []
           end
  end.

Definition preorder_all (nodes : list node) : list node := flat_map preorder nodes.

End GroupSpec.

(* ===================================================================== *)
(** * Further parts of the screens                                        *)
(* ===================================================================== *)

(** ** JSON.stringify with an indent of two spaces *)

Definition gap : jsstring := [32; 32].

(** SerializeJSONProperty under the current [indent]: the members of a
    non-empty array or object each start a line, one [gap] deeper; a member
    name is followed by a colon and a space. *)
Fixpoint serialize_indent (indent : jsstring) (v : value) : jsstring :=
  match v with
  | VUndefined | VNull => lit "null"
  | VBool true => lit "true"
  | VBool false => lit "false"
  | VNum n => Number_toString n
  | VStr s => QuoteJSONString s
  | VArr l =>
      match l with
      | [] => lit "[]"
      | _ :: _ =>
          ch "[" :: 10 :: (indent ++ gap) ++
          join (ch "," :: 10 :: indent ++ gap)
               (map (serialize_indent (indent ++ gap)) l) ++
          10 :: indent ++ [ch "]"]
      end
  | VObj m =>
      match
        (fix members (m : list (jsstring * value)) : list jsstring :=
           match m with
           | [] => []
           | (k, x) :: m' =>
               match x with
               | VUndefined => members m'
               | _ => (QuoteJSONString k ++ ch ":" :: 32 ::
                       serialize_indent (indent ++ gap) x) :: members m'
               end
           end) m
      with
      | [] => lit "{}"
      | p :: ps =>
          ch "{" :: 10 :: (indent ++ gap) ++
          join (ch "," :: 10 :: indent ++ gap) (p :: ps) ++
          10 :: indent ++ [ch "}"]
      end
  end.

(** The member texts of an object at the inner indent [inner]. *)
Definition member_lines (inner : jsstring)
  : list (jsstring * value) -> list jsstring :=
  fix members (m : list (jsstring * value)) : list jsstring :=
    match m with
    | [] => []
    | (k, x) :: m' =>
        match x with
        | VUndefined => members m'
        | _ => (QuoteJSONString k ++ ch ":" :: 32 :: serialize_indent inner x)
               :: members m'
        end
    end.

(** What may follow a value in an indented text: the end, a comma, a closing
    bracket or brace, or the line feed before one. *)
Definition line_delimited (rest : jsstring) : bool :=
  match rest with
  | [] => true
  | c :: _ => (c =? ch ",") || (c =? ch "]") || (c =? ch "}") || (c =? 10)
  end.

(** A text that starts as a value does: not with white space, not with a
    closing bracket or brace. *)
Definition starts_value (s : jsstring) : bool :=
  match s with
  | c :: _ => negb (is_ws c) && negb (c =? ch "]") && negb (c =? ch "}")
  | [] => false
  end.

Definition blank (s : jsstring) : bool := forallb (fun c => c =? 32) s.

(** [v] is written by [JSON.stringify], and, written at any indent, it is
    read back. *)
Definition reads_back_indented (v : value) : Prop :=
  v <> VUndefined /\
  forall indent, blank indent = true ->
    starts_value (serialize_indent indent v) = true /\
    forall fuel rest,
      (length (serialize_indent indent v) <= fuel)%nat ->
      line_delimited rest = true ->
      parse_value fuel (serialize_indent indent v ++ rest) = Some (v, rest).

(** ** Further sample data *)

(** Three ways a finished run is adjusted by what surrounds it: events that
    were logged before it, a [finally] block that only writes the state, and
    a [catch] block that only returns. *)
Module Ran.
Definition after {S A} (t : list Event) (r : Eff.run S A) : Eff.run S A :=
  Eff.mk (Eff.result r) (Eff.final r) (t ++ Eff.trace r).

Definition finally {S A} (f : S -> S) (r : Eff.run S A) : Eff.run S A :=
  Eff.mk (Eff.result r) (f (Eff.final r)) (Eff.trace r).

Definition caught {S A} (a : A) (r : Eff.run S A) : Eff.run S A :=
  match Eff.result r with
  | Normal _ => r
  | Throw => Eff.mk (Normal a) (Eff.final r) (Eff.trace r)
  end.
End Ran.

Module MoreSamples.
Import RuleModal.

Definition with_target (t : ForwardingTarget.t) : State :=
  mk_state (mk_props true add None) (Some Form.NForm) false [] [] [] []
    (mk_form (lit "rule") [] None [] [] [t]) None false (lit "http")
    Samples.stale_http mqttConfig_init.


(** An entry whose configuration is the JSON number 42. *)
Definition numeric_config_state : State :=
  with_target (ForwardingTarget.mk None None (lit "http") (lit "42")).




(** A port too small to be a double other than 0, and a port and a qos
    that are kept. *)
Definition tiny_port_state : State :=
  with_target (ForwardingTarget.mk None None (lit "mqtt")
    (lit "{" ++ Samples.quoted "broker" ++ lit ":" ++ Samples.quoted "b" ++
     lit "," ++ Samples.quoted "port" ++ lit ":1e-400}")).

Definition port_state : State :=
  with_target (ForwardingTarget.mk None None (lit "mqtt")
    (lit "{" ++ Samples.quoted "broker" ++ lit ":" ++ Samples.quoted "b" ++
     lit "," ++ Samples.quoted "port" ++ lit ":8883," ++
     Samples.quoted "qos" ++ lit ":2}")).

(** A text whose members are not in the order an object lists them. *)
Definition unordered_text : jsstring :=
  lit "{" ++ Samples.quoted "b" ++ lit ":2," ++ Samples.quoted "1" ++
  lit ":0.5}".

Definition qos0_state : State :=
  with_target (ForwardingTarget.mk None None (lit "mqtt")
    (lit "{" ++ Samples.quoted "broker" ++ lit ":" ++ Samples.quoted "b" ++
     lit "," ++ Samples.quoted "port" ++ lit ":0," ++
     Samples.quoted "qos" ++ lit ":0}")).

(** An edit session on rule r1, with a script selected. *)
Definition rule_editing : State :=
  mk_state
    (mk_props true edit
       (Some (ForwardingRule.mk (Some (lit "r1")) (lit "rule") None (Some 1%Z)
                None None None None None None None None)))
    (Some Form.NForm) false [] [] [] []
    (mk_form (lit "rule") [] (Some (lit "s1")) [] [] [Samples.broken_target])
    None false (lit "http") httpConfig_init mqttConfig_init.

(** A server that answers the four option requests: one script, an error
    answer for the devices, empty pages, no group data. *)
Definition options_server : Backend :=
  fun T c =>
    match c in ApiCall T return settled (Response.t T) with
    | getAllForwardingScripts => Resolved (Response.mk (Some [Samples.stored_script]) None)
    | _ => Resolved (Response.mk None None)
    end.
End MoreSamples.

(** ** The rule editor: source options *)

Module RuleOptions.
Import RuleModal.

(** [getSourceOptions(sourceType)], on the number the select holds. *)
Definition getSourceOptions (sourceType : Z) (s : State) : list SelectOption.t :=
  if (sourceType =? SourceType.code SourceType.Device)%Z then deviceOptions s
  else if (sourceType =? SourceType.code SourceType.Product)%Z then productOptions s
  else if (sourceType =? SourceType.code SourceType.Group)%Z then groupOptions s
  else [].

(** The option lists [loadOptions] computes from resolved responses. *)
Definition script_options (data : list ForwardingScript.t) : list SelectOption.t :=
  map (fun item => SelectOption.mk (Some (ForwardingScript.name item))
                                   (ForwardingScript.id item)) data.

Definition group_options (data : GroupTree.data) : list SelectOption.t :=
  flattenGroups match data with
                | GroupTree.Many l => l
                | GroupTree.One n => [n]
                end [].

(** The state once the four lists are filled from resolved responses: a
    response without data leaves its list as it is. *)
Definition populated (r1 : Response.t (list ForwardingScript.t))
  (r2 r3 : Response.t (Paginated.t ListItem.t)) (r4 : Response.t GroupTree.data)
  (s : State) : State :=
  let s1 := match Response.data r1 with
            | Some data => set_scriptOptions (script_options data) s
            | None => s
            end in
  let s2 := match Response.data r2 ≫= Paginated.list with
            | Some l => set_deviceOptions (map item_option l) s1
            | None => s1
            end in
  let s3 := match Response.data r3 ≫= Paginated.list with
            | Some l => set_productOptions (map item_option l) s2
            | None => s2
            end in
  match Response.data r4 with
  | Some data => set_groupOptions (group_options data) s3
  | None => s3
  end.

(** The four requests of [loadOptions], in the order they are started. *)
Definition option_requests : list Event :=
  [Request getAllForwardingScripts; Request (deviceList (PageParams.mk 1 1000));
   Request (deviceConfig (PageParams.mk 1 1000)); Request deviceGroupTree].

(** The rule a submit sends: the form's fields, no [script_id] when none is
    chosen, and the id of the edited rule when there is one to update. *)
Definition submit_data (s : State) : ForwardingRule.t :=
  let f := formModel s in
  ForwardingRule.mk
    (match type (props s), editData (props s) ≫= ForwardingRule.id with
     | edit, Some (c :: i) => Some (c :: i)
     | _, _ => None
     end)
    (name f) (Some (description f)) None
    (match script_id f with Some (x :: y) => Some (x :: y) | _ => None end)
    None (Some (remark f)) None None None (Some (sources f)) (Some (targets f)).

Definition submit_call (s : State) : ApiCall ForwardingRule.t :=
  match type (props s), editData (props s) ≫= ForwardingRule.id with
  | edit, Some (_ :: _) => updateForwardingRule (submit_data s)
  | _, _ => createForwardingRule (submit_data s)
  end.

(** The form model [loadEditData] builds from a fetched rule. *)
Definition form_of (data : ForwardingRule.t) : FormModel :=
  mk_form (ForwardingRule.name data)
          (or_str (ForwardingRule.description data) [])
          (match ForwardingRule.script_id data with
           | Some (x :: y) => Some (x :: y)
           | _ => None
           end)
          (or_str (ForwardingRule.remark data) [])
          (default [] (ForwardingRule.sources data))
          (default [] (ForwardingRule.targets data)).

(** The component events of a trace. *)
Definition emitted (t : list Event) : list string :=
  omap (fun e => match e with Emit n => Some n | _ => None end) t.
End RuleOptions.

(** ** The script editor: toolbar, submit, opening *)

Module ScriptEditor.
Import ScriptModal.

(** The options of the code editor that the toolbar changes; the others are
    constants of the component. *)
Record EditorOptions := mk_options {
  fontSize : Z;
  wordWrap : jsstring;
  minimap_enabled : bool }.

Definition editorOptions_init : EditorOptions := mk_options 14 (lit "on") true.

(** The component: the form state, the form instance and the editor options. *)
Record View := mk_view {
  core : State;
  formRef : option Form.FormInst;
  editorOptions : EditorOptions }.

Definition toggleMinimap (o : EditorOptions) : EditorOptions :=
  mk_options (fontSize o) (wordWrap o) (negb (minimap_enabled o)).

Definition toggleWordWrap (o : EditorOptions) : EditorOptions :=
  mk_options (fontSize o)
    (if jsstring_eqb (wordWrap o) (lit "on") then lit "off" else lit "on")
    (minimap_enabled o).

Definition changeFontSize (delta : Z) (o : EditorOptions) : EditorOptions :=
  let newSize := (fontSize o + delta)%Z in
  if ((10 <=? newSize) && (newSize <=? 24))%Z
  then mk_options newSize (wordWrap o) (minimap_enabled o)
  else o.

Definition rules_name : Form.FormItemRule :=
  Form.createRequiredFormRule "dataForwarding.scriptName".

Definition rules_script_content : Form.FormItemRule :=
  Form.createRequiredFormRule "dataForwarding.scriptContent".

(** A handler of the form state, run inside the component. *)
Definition on_core {A} (m : Eff.M State A) : Eff.M View A :=
  fun v =>
    let r := m (core v) in
    Eff.mk (Eff.result r) (mk_view (Eff.final r) (formRef v) (editorOptions v))
           (Eff.trace r).

Definition closeModal : Eff.M View unit := emit "update:visible".

(** [formRef.value?.validate()], awaited. *)
Definition validate_form : Eff.M View unit :=
  v <- Eff.get;;
  match formRef v with
  | Some Form.NForm =>
      Eff.await (Form.validate
        [(rules_name, name (formModel (core v)));
         (rules_script_content, script_content (formModel (core v)))])
  | None => Eff.ret tt
  end.

(** [handleSubmit()]. *)
Definition handleSubmit (srv : Backend) (win : Window) : Eff.M View unit :=
  validate_form;;
  on_core (Eff.modify (set_loading true));;
  Eff.try_finally
    (v <- Eff.get;;
     let f := formModel (core v) in
     let submitData :=
       ForwardingScript.mk None (name f) (Some (script_content f))
         (Some (description f)) None (Some (remark f)) None None None in
     let id := editData (props (core v)) ≫= ForwardingScript.id in
     match type (props (core v)), id with
     | edit, Some (c :: i) =>
         r <- Eff.call srv (updateForwardingScript
                (ForwardingScript.mk (Some (c :: i)) (name f)
                   (Some (script_content f)) (Some (description f)) None
                   (Some (remark f)) None None None));;
         match Response.error r with
         | None =>
             Eff.message win success "common.updateSuccess";;
             emit "success";;
             closeModal
         | Some _ => Eff.ret tt
         end
     | _, _ =>
         r <- Eff.call srv (createForwardingScript submitData);;
         match Response.error r with
         | None =>
             Eff.message win success "common.addSuccess";;
             emit "success";;
             closeModal
         | Some _ => Eff.ret tt
         end
     end)
    (on_core (Eff.modify (set_loading false))).

(** The watcher on [props.visible]. *)
Definition on_visible (srv : Backend) (newValue : bool) : Eff.M State unit :=
  if newValue then
    s <- Eff.get;;
    match type (props s) with
    | edit => loadEditData srv
    | add => resetForm
    end
  else Eff.ret tt.
End ScriptEditor.

(** The request a submit of the script editor sends. *)
Module ScriptSubmit.
Import ScriptModal ScriptEditor.

Definition submit_data (v : View) : ForwardingScript.t :=
  let f := formModel (core v) in
  ForwardingScript.mk
    (match type (props (core v)), editData (props (core v)) ≫= ForwardingScript.id with
     | edit, Some (c :: i) => Some (c :: i)
     | _, _ => None
     end)
    (name f) (Some (script_content f)) (Some (description f)) None
    (Some (remark f)) None None None.

Definition submit_call (v : View) : ApiCall ForwardingScript.t :=
  match type (props (core v)), editData (props (core v)) ≫= ForwardingScript.id with
  | edit, Some (_ :: _) => updateForwardingScript (submit_data v)
  | _, _ => createForwardingScript (submit_data v)
  end.

(** The component once the form state has been through [f]. *)
Definition within (f : State -> State) (v : View) : View :=
  mk_view (f (core v)) (formRef v) (editorOptions v).

(** The fields [handleSubmit] hands to the validation. *)
Definition checked (v : View) : list (Form.FormItemRule * jsstring) :=
  [(rules_name, name (formModel (core v)));
   (rules_script_content, script_content (formModel (core v)))].

(** An edit session of the script editor on a stored script. *)
Definition view_editing : View :=
  mk_view
    (mk_state (props Samples.script_editing) false
       (mk_form (lit "pass") [] (lit "return payload") []))
    (Some Form.NForm) editorOptions_init.

(** The same session with the name field emptied. *)
Definition view_nameless : View :=
  mk_view
    (mk_state (props Samples.script_editing) false
       (mk_form [] [] (lit "return payload") []))
    (Some Form.NForm) editorOptions_init.
End ScriptSubmit.

(** ** The script tester: default payload, result display, opening *)

Module ScriptTester.
Import ScriptTestModal.

Record Props := mk_props {
  visible : bool;
  script : option ForwardingScript.t }.

(** [defaultTestData()], with the value of [Date.now()] as [now]. *)
Definition defaultTestData (now : Z) : jsstring :=
  serialize_indent []
    (VObj [(lit "device_id", VStr (lit "test-device-001"));
           (lit "device_name", VStr [27979; 35797; 35774; 22791]);
           (lit "product_id", VStr (lit "test-product-001"));
           (lit "tenant_id", VStr (lit "test-tenant-001"));
           (lit "timestamp", VNum (NInt now));
           (lit "data", VObj [(lit "temperature", VNum (NDec 255 1));
                              (lit "humidity", VNum (NInt 60))])]).

(** [formatJson(jsonStr)]. *)
Definition formatJson (jsonStr : jsstring) : jsstring :=
  match JSON_parse jsonStr with
  | Some v => serialize_indent [] v
  | None => jsonStr
  end.

(** The watcher on [props.visible]. *)
Definition on_visible (now : Z) (props : Props) (newValue : bool) (s : State) : State :=
  if newValue then
    mk_state (loading s) None
      (mk_form (or_str (script props ≫= ForwardingScript.script_content) [])
               (defaultTestData now))
  else s.
End ScriptTester.

(** ** The list screens *)

Module RuleListParams.
Record t := mk {
  page : Z;
  page_size : Z;
  name : option jsstring;
  enabled : option Z }.
End RuleListParams.

Module ScriptListParams.
Record t := mk {
  page : Z;
  page_size : Z;
  name : option jsstring }.
End ScriptListParams.

(** The calls of the list screens: those of the editors and the two list
    requests. *)
Inductive PageCall : Type -> Type :=
  | api {T} (c : ApiCall T) : PageCall T
  | getForwardingRules (params : RuleListParams.t)
      : PageCall (Paginated.t ForwardingRule.t)
  | getForwardingScripts (params : ScriptListParams.t)
      : PageCall (Paginated.t ForwardingScript.t).

Definition PageServer := forall T, PageCall T -> settled (Response.t T).

Inductive PageEvent :=
  | Sent {T} (c : PageCall T)
  | Shown (level : MessageLevel) (text : string).

(** Handlers of a list screen: state transformers with a trace of
    [PageEvent]s. *)
Module Act.
Record run (S A : Type) := mk {
  result : completion A;
  final : S;
  trace : list PageEvent }.
Arguments mk {S A} _ _ _.
Arguments result {S A} _.
Arguments final {S A} _.
Arguments trace {S A} _.

Definition M (S A : Type) := S -> run S A.

Definition ret {S A} (a : A) : M S A := fun s => mk (Normal a) s [].

Definition bind {S A B} (m : M S A) (k : A -> M S B) : M S B :=
  fun s =>
    let r := m s in
    match result r with
    | Normal a =>
        let r' := k a (final r) in
        mk (result r') (final r') (trace r ++ trace r')
    | Throw => mk Throw (final r) (trace r)
    end.

Definition throw {S A} : M S A := fun s => mk Throw s [].
Definition get {S} : M S S := fun s => mk (Normal s) s [].
Definition modify {S} (f : S -> S) : M S unit := fun s => mk (Normal tt) (f s) [].
Definition log {S} (e : PageEvent) : M S unit := fun s => mk (Normal tt) s [e].

Definition try_finally {S A} (body : M S A) (fin : M S unit) : M S A :=
  fun s =>
    let r := body s in
    let f := fin (final r) in
    match result f with
    | Normal _ => mk (result r) (final f) (trace r ++ trace f)
    | Throw => mk Throw (final f) (trace r ++ trace f)
    end.

(** An awaited request. *)
Definition call {S T} (srv : PageServer) (c : PageCall T) : M S (Response.t T) :=
  fun s =>
    match srv T c with
    | Resolved r => mk (Normal r) s [Sent c]
    | Rejected => mk Throw s [Sent c]
    end.

(** A call that is not awaited and ends the caller: the callee runs on, and
    its rejection does not reach the caller. *)
Definition detached {S} (m : M S unit) : M S unit :=
  fun s => let r := m s in mk (Normal tt) (final r) (trace r).

Definition message {S} (win : Window) (level : MessageLevel) (text : string) : M S unit :=
  if message_api win then log (Shown level text) else ret tt.
End Act.

Notation "x <~ m ;; k" := (Act.bind m (fun x => k))
  (at level 100, m at next level, right associativity).
Notation "m ;;; k" := (Act.bind m (fun _ => k))
  (at level 100, right associativity).

Definition sent (e : PageEvent) : bool :=
  match e with
  | Sent _ => true
  | Shown _ _ => false
  end.

(** The requests of a trace. *)
Definition sent_requests (t : list PageEvent) : list PageEvent := List.filter sent t.

Module RulesPage.

Record QueryParams := mk_query {
  name : jsstring;
  enabled : option Z }.

Record Pagination := mk_pagination {
  page : Z;
  pageSize : Z;
  itemCount : Z }.

Record State := mk_state {
  loading : bool;
  visible : bool;
  queryParams : QueryParams;
  tableData : list ForwardingRule.t;
  modalType : RuleModal.ModalType;
  editData : option ForwardingRule.t;
  pagination : Pagination }.

Definition set_loading (b : bool) (s : State) : State :=
  mk_state b (visible s) (queryParams s) (tableData s) (modalType s)
           (editData s) (pagination s).

Definition set_pagination (p : Pagination) (s : State) : State :=
  mk_state (loading s) (visible s) (queryParams s) (tableData s) (modalType s)
           (editData s) p.

Definition set_queryParams (q : QueryParams) (s : State) : State :=
  mk_state (loading s) (visible s) q (tableData s) (modalType s)
           (editData s) (pagination s).

Definition set_page (n : Z) (s : State) : State :=
  set_pagination (mk_pagination n (pageSize (pagination s)) (itemCount (pagination s))) s.

(** The parameters of the list request. *)
Definition list_params (s : State) : RuleListParams.t :=
  RuleListParams.mk (page (pagination s)) (pageSize (pagination s))
    (match name (queryParams s) with [] => None | c :: n => Some (c :: n) end)
    (enabled (queryParams s)).

(** [getTableData()]. *)
Definition getTableData (srv : PageServer) : Act.M State unit :=
  Act.modify (set_loading true);;;
  Act.try_finally
    (s <~ Act.get;;
     r <~ Act.call srv (getForwardingRules (list_params s));;
     match Response.error r, Response.data r with
     | None, Some data =>
         Act.modify (fun s =>
           mk_state (loading s) (visible s) (queryParams s)
             (default [] (Paginated.list data)) (modalType s) (editData s)
             (mk_pagination (page (pagination s)) (pageSize (pagination s))
                            (default 0%Z (Paginated.total data))))
     | _, _ => Act.ret tt
     end)
    (Act.modify (set_loading false)).

(** [handleAddRule()] and [handleEditRule(row)]. *)
Definition handleAddRule (s : State) : State :=
  mk_state (loading s) true (queryParams s) (tableData s) RuleModal.add None
           (pagination s).

Definition handleEditRule (row : ForwardingRule.t) (s : State) : State :=
  mk_state (loading s) true (queryParams s) (tableData s) RuleModal.edit
           (Some row) (pagination s).

(** [handleDeleteRule(id)]. *)
Definition handleDeleteRule (srv : PageServer) (win : Window) (id : jsstring)
  : Act.M State unit :=
  r <~ Act.call srv (api (deleteForwardingRule id));;
  match Response.error r with
  | None =>
      Act.message win success "common.deleteSuccess";;;
      Act.detached (getTableData srv)
  | Some _ => Act.ret tt
  end.

(** [handleQuery()] and [handleReset()]. *)
Definition handleQuery (srv : PageServer) : Act.M State unit :=
  Act.modify (set_page 1);;;
  Act.detached (getTableData srv).

Definition handleReset (srv : PageServer) : Act.M State unit :=
  Act.modify (set_queryParams (mk_query [] None));;;
  Act.modify (set_page 1);;;
  Act.detached (getTableData srv).

(** [pagination.onChange(page)] and [pagination.onUpdatePageSize(pageSize)]. *)
Definition onChange (srv : PageServer) (n : Z) : Act.M State unit :=
  Act.modify (set_page n);;;
  Act.detached (getTableData srv).

Definition onUpdatePageSize (srv : PageServer) (size : Z) : Act.M State unit :=
  Act.modify (fun s => set_pagination
                (mk_pagination (page (pagination s)) size (itemCount (pagination s))) s);;;
  Act.modify (set_page 1);;;
  Act.detached (getTableData srv).

(** The index column: the number shown for row [index] of the page. *)
Definition render_index (s : State) (index : Z) : Z :=
  ((page (pagination s) - 1) * pageSize (pagination s) + index + 1)%Z.
End RulesPage.

Module ScriptsPage.

(** The script column: at most the first hundred code units of the script,
    followed by three dots when something was cut. *)
Definition render_script_content (row : ForwardingScript.t) : jsstring :=
  let content := or_str (ForwardingScript.script_content row) [] in
  if (100 <? length content)%nat then take 100 content ++ lit "..." else content.
End ScriptsPage.

Module PageSamples.

(** The tester holding a script and the result of an earlier test. *)
Definition tested : ScriptTestModal.State :=
  ScriptTestModal.mk_state false
    (Some (ScriptTestResult.mk true (lit "{}") []))
    (ScriptTestModal.mk_form (lit "return payload") (lit "{}")).

(** The rules screen on page 2, filtered on the name a and on disabled
    rules, with one row shown. *)
Definition disabled_page : RulesPage.State :=
  RulesPage.mk_state false false (RulesPage.mk_query (lit "a") (Some 0%Z))
    [ForwardingRule.mk (Some (lit "r1")) (lit "a") None (Some 0%Z) None None
       None None None None None None]
    RuleModal.add None (RulesPage.mk_pagination 2 10 11).
End PageSamples.
(* ===================================================================== *)
(** * Group tree flattening                                               *)
(* ===================================================================== *)

Section Flatten.
Import RuleModal GroupTree GroupSpec.

(** Induction over a tree, with the hypothesis on every child. *)
Lemma node_induction (P : node -> Prop) :
  (forall g ch, Forall P (default [] ch) -> P (Node g ch)) ->
  forall n, P n.
Proof.
  intros H. fix IH 1. intros [g ch]. apply H.
  destruct ch as [l|]; simpl; [|constructor].
  induction l as [|m l IHl]; constructor; [apply IH | apply IHl].
Qed.

Lemma flattenGroups_cons n nodes result :
  flattenGroups (n :: nodes) result = flattenGroups nodes (visit n result).
Proof. reflexivity. Qed.

(** The guard on [children?.length] only saves a call. *)
Lemma visit_unfold g ch result :
  visit (Node g ch) result =
  flattenGroups (default [] ch)
    (result ++ option_list (node_option (Node g ch))).
Proof.
  simpl. destruct (truthy_str (g ≫= id) && truthy_str (g ≫= name));
    destruct ch as [[|c cs]|]; simpl; rewrite ?app_nil_r; reflexivity.
Qed.

Lemma visit_preorder n :
  forall result, visit n result = result ++ omap node_option (preorder n).
Proof.
  induction n as [g ch IH] using node_induction. intros result.
  rewrite visit_unfold.
  assert (E : forall l acc, Forall (fun n => forall r, visit n r = r ++ omap node_option (preorder n)) l ->
              flattenGroups l acc = acc ++ omap node_option (flat_map preorder l)).
  { clear. induction l as [|m l IHl]; intros acc HF.
    - unfold flattenGroups. simpl. by rewrite app_nil_r.
    - inversion HF as [|? ? Hm Hl]; subst.
      rewrite flattenGroups_cons, Hm, IHl by assumption.
      simpl flat_map. rewrite omap_app, app_assoc. reflexivity. }
  rewrite (E _ _ IH).
  destruct ch as [l|]; simpl;
    destruct (truthy_str (g ≫= id) && truthy_str (g ≫= name)); simpl;
    rewrite <- ?app_assoc; reflexivity.
Qed.

Lemma flattenGroups_preorder nodes result :
  flattenGroups nodes result = result ++ omap node_option (preorder_all nodes).
Proof.
  revert result. induction nodes as [|n nodes IH]; intros result.
  - unfold flattenGroups, preorder_all. simpl. by rewrite app_nil_r.
  - rewrite flattenGroups_cons, IH, visit_preorder.
    unfold preorder_all. simpl. by rewrite omap_app, app_assoc.
Qed.

(** C3.  [flattenGroups] lists the options of the nodes in depth-first
    order: the result is the options of the pre-order traversal, appended
    to what the accumulator held; the option of a node comes first, then
    the options of its descendants, then those of its later siblings; a
    node without a (non-empty) group id or name adds no option of its own
    and its children are flattened all the same. *)
Theorem flattenGroups_depth_first :
  (forall nodes result,
      flattenGroups nodes result =
      result ++ omap node_option (preorder_all nodes)) /\
  (forall g ch rest,
      flattenGroups (Node g ch :: rest) [] =
      option_list (node_option (Node g ch))
        ++ flattenGroups (default [] ch) []
        ++ flattenGroups rest []) /\
  (forall g ch,
      truthy_str (g ≫= id) = true -> truthy_str (g ≫= name) = true ->
      node_option (Node g ch) = Some (SelectOption.mk (g ≫= name) (g ≫= id))) /\
  (forall g ch rest,
      truthy_str (g ≫= id) = false \/ truthy_str (g ≫= name) = false ->
      node_option (Node g ch) = None /\
      flattenGroups (Node g ch :: rest) [] =
      flattenGroups (default [] ch) [] ++ flattenGroups rest []).
Proof.
  assert (Hno : forall g ch,
    truthy_str (g ≫= id) = false \/ truthy_str (g ≫= name) = false ->
    node_option (Node g ch) = None).
  { intros g ch [E|E]; unfold node_option; rewrite E; [reflexivity|].
    by rewrite andb_false_r. }
  assert (Hcons : forall g ch rest,
    flattenGroups (Node g ch :: rest) [] =
    option_list (node_option (Node g ch))
      ++ flattenGroups (default [] ch) [] ++ flattenGroups rest []).
  { intros g ch rest. rewrite flattenGroups_cons, visit_unfold.
    rewrite !flattenGroups_preorder. simpl. by rewrite <- app_assoc. }
  split; [exact flattenGroups_preorder|]. split; [exact Hcons|]. split.
  - intros g ch E1 E2. unfold node_option. by rewrite E1, E2.
  - intros g ch rest E. split; [by apply Hno|].
    rewrite Hcons, (Hno g ch E). reflexivity.
Qed.

(** A depth-3 forest with an unnamed inner node: its child is kept. *)
Lemma flattenGroups_depth_first_witness :
  let leaf := Node (Some (mk_group (Some (lit "c")) (Some (lit "C")))) None in
  let mid := Node (Some (mk_group (Some (lit "b")) None)) (Some [leaf]) in
  let root := Node (Some (mk_group (Some (lit "a")) (Some (lit "A")))) (Some [mid]) in
  node_option mid = None /\
  flattenGroups [mid; root] [] =
  flattenGroups [leaf] [] ++ flattenGroups [root] [].
Proof.
  apply (proj2 (proj2 (proj2 flattenGroups_depth_first))).
  right. reflexivity.
Defined.
End Flatten.

(* ===================================================================== *)
(** * Handlers and the network                                            *)
(* ===================================================================== *)

Section EffLaws.
Context {S : Type}.

Lemma bind_start_result {T B} (srv : Backend) (c : ApiCall T)
  (k : settled (Response.t T) -> Eff.M S B) (s : S) :
  Eff.result (Eff.bind (Eff.start srv c) k s) = Eff.result (k (srv T c) s).
Proof. reflexivity. Qed.

Lemma bind_start_final {T B} (srv : Backend) (c : ApiCall T)
  (k : settled (Response.t T) -> Eff.M S B) (s : S) :
  Eff.final (Eff.bind (Eff.start srv c) k s) = Eff.final (k (srv T c) s).
Proof. reflexivity. Qed.

Lemma bind_throw {A B} (m : Eff.M S A) (k : A -> Eff.M S B) (s : S) :
  Eff.result (m s) = Throw ->
  Eff.bind m k s = Eff.mk Throw (Eff.final (m s)) (Eff.trace (m s)).
Proof. intros H. unfold Eff.bind. cbv zeta. by rewrite H. Qed.

Lemma bind_await_rejected {A B} (k : A -> Eff.M S B) (s : S) :
  Eff.bind (Eff.await Rejected) k s = Eff.mk Throw s [].
Proof. reflexivity. Qed.

Lemma try_catch_result {A} (body : Eff.M S A) (a : A) (s : S) :
  Eff.result (Eff.try_catch body (Eff.ret a) s) =
  match Eff.result (body s) with
  | Normal x => Normal x
  | Throw => Normal a
  end.
Proof.
  unfold Eff.try_catch. cbv zeta.
  destruct (Eff.result (body s)) eqn:E; [exact E | reflexivity].
Qed.

Lemma try_catch_final {A} (body : Eff.M S A) (a : A) (s : S) :
  Eff.final (Eff.try_catch body (Eff.ret a) s) = Eff.final (body s).
Proof.
  unfold Eff.try_catch. cbv zeta.
  destruct (Eff.result (body s)); reflexivity.
Qed.
End EffLaws.

Section ToggleStatus.
Import ForwardingRule DataForward.

(** C4.  For a row whose [enabled] is 0 or 1, [handleToggleStatus] sends
    exactly one request, the status update with the row's id and the
    opposite value; the row shows the new value exactly when that call
    resolved with an empty error channel, and is untouched otherwise. *)
Theorem handleToggleStatus_flips_on_success
  (srv : Backend) (win : Window) (row : ForwardingRule.t) (e : Z) :
  enabled row = Some e -> (e = 0 \/ e = 1)%Z ->
  let call := updateForwardingRuleStatus (RuleStatusParams.mk (id row) (1 - e)) in
  let r := handleToggleStatus srv win row in
  let succeeded := exists resp, srv _ call = Resolved resp /\ Response.error resp = None in
  requests (Eff.trace r) = [Request call] /\
  (enabled (Eff.final r) = Some (1 - e)%Z <-> succeeded) /\
  (succeeded -> Eff.final r = with_enabled (Some (1 - e)%Z) row) /\
  (~ succeeded -> Eff.final r = row).
Proof.
  intros He Hrange call r succeeded.
  assert (Hnew : match enabled row with Some 1%Z => 0%Z | _ => 1%Z end = (1 - e)%Z).
  { rewrite He. by destruct Hrange as [-> | ->]. }
  assert (Hne : Some e <> Some (1 - e)%Z) by (intros [=]; lia).
  subst r. unfold handleToggleStatus, Eff.bind, Eff.call, Eff.start, Eff.get,
    Eff.message, Eff.modify, Eff.log, Eff.ret.
  cbn [Eff.result Eff.final Eff.trace]. rewrite Hnew. fold call.
  destruct (srv unit call) as [resp|] eqn:Hsrv; cbn.
  - destruct (Response.error resp) eqn:Herr; cbn.
    + assert (~ succeeded) by (intros (resp' & E1 & E2); congruence).
      rewrite He. repeat split; tauto.
    + assert (succeeded) by (exists resp; split; [reflexivity | assumption]).
      destruct (message_api win); cbn; repeat split; tauto.
  - assert (~ succeeded) by (intros (resp' & E1 & E2); congruence).
    rewrite He. repeat split; tauto.
Qed.

Lemma handleToggleStatus_flips_on_success_witness :
  let row := ForwardingRule.mk (Some (lit "r1")) (lit "rule") None (Some 1%Z)
               None None None None None None None None in
  let srv : Backend := fun T _ => Resolved (Response.mk None None) in
  let call := updateForwardingRuleStatus (RuleStatusParams.mk (Some (lit "r1")) 0) in
  requests (Eff.trace (handleToggleStatus srv (Build_Window true) row))
    = [Request call] /\
  enabled (Eff.final (handleToggleStatus srv (Build_Window true) row)) = Some 0%Z.
Proof.
  intros row srv call.
  destruct (handleToggleStatus_flips_on_success srv (Build_Window true) row 1
              eq_refl (or_intror eq_refl)) as (H1 & H2 & _).
  split; [exact H1|]. apply H2. eexists. split; reflexivity.
Defined.
End ToggleStatus.

Section RuleSubmit.
Import RuleModal.

(** C5.  With the form mounted and an empty [name], [handleSubmit] is
    stopped by validation: nothing is requested (the trace is empty), the
    handler ends by the rejection and the state is as before. *)
Theorem handleSubmit_empty_name_no_request
  (srv : Backend) (win : Window) (s : State) :
  formRef s = Some Form.NForm ->
  name (formModel s) = [] ->
  let r := handleSubmit srv win s in
  requests (Eff.trace r) = [] /\ Eff.trace r = [] /\
  Eff.result r = Throw /\ Eff.final r = s.
Proof.
  intros Hform Hname.
  assert (Hv : validate_form s = Eff.mk Throw s []).
  { unfold validate_form, Eff.bind, Eff.get.
    cbn [Eff.result Eff.final Eff.trace]. rewrite Hform, Hname. reflexivity. }
  unfold handleSubmit. rewrite bind_throw by (by rewrite Hv).
  rewrite Hv. cbn. auto.
Qed.

Lemma handleSubmit_empty_name_no_request_witness :
  requests (Eff.trace (handleSubmit (fun T _ => Rejected) (Build_Window true) Samples.state0)) = [].
Proof.
  apply (handleSubmit_empty_name_no_request (fun T _ => Rejected)
           (Build_Window true) Samples.state0 eq_refl eq_refl).
Defined.
End RuleSubmit.

Section SaveTarget.
Import RuleModal.

(** C6.  Without a recorded index [saveTargetConfig] changes nothing at
    all.  With index [i] recorded (and a target at [i]) it replaces, in
    the entry at [i], [config] by the encoding of the active editor model
    and [target_type] by the dialog's type; the entry's other fields, the
    other entries and the other fields of the form model stay as they
    were, and no request is made. *)
Theorem saveTargetConfig_frame (s : State) :
  (currentTargetIndex s = None ->
     saveTargetConfig s = Eff.mk (Normal tt) s []) /\
  (forall i t,
     currentTargetIndex s = Some i ->
     targets (formModel s) !! i = Some t ->
     let r := saveTargetConfig s in
     let f := formModel s in
     let f' := formModel (Eff.final r) in
     Eff.result r = Normal tt /\ Eff.trace r = [] /\
     targets f' !! i =
       Some (ForwardingTarget.mk (ForwardingTarget.id t)
               (ForwardingTarget.rule_id t) (targetConfigType s)
               (if jsstring_eqb (targetConfigType s) (lit "http")
                then serialize (http_object (httpConfig s))
                else serialize (mqtt_object (mqttConfig s)))) /\
     (forall j, j <> i -> targets f' !! j = targets f !! j) /\
     length (targets f') = length (targets f) /\
     name f' = name f /\ description f' = description f /\
     script_id f' = script_id f /\ remark f' = remark f /\
     sources f' = sources f).
Proof.
  split.
  - intros Hnone. unfold saveTargetConfig, Eff.bind, Eff.get.
    cbn [Eff.result Eff.final Eff.trace]. rewrite Hnone. reflexivity.
  - intros i t Hi Ht. unfold saveTargetConfig, Eff.bind, Eff.get.
    cbn [Eff.result Eff.final Eff.trace]. rewrite Hi.
    cbn -[serialize jsstring_eqb]. rewrite Ht. cbn -[serialize jsstring_eqb].
    assert (Hlt : (i < length (targets (formModel s)))%nat)
      by (eapply lookup_lt_Some; eassumption).
    repeat split.
    + by apply list_lookup_insert_eq.
    + intros j Hj. by apply list_lookup_insert_ne.
    + apply length_insert.
Qed.

Lemma saveTargetConfig_frame_witness :
  let s := Samples.editing (lit "mqtt") httpConfig_init Samples.mqtt_sample in
  name (formModel (Eff.final (saveTargetConfig s))) = name (formModel s) /\
  sources (formModel (Eff.final (saveTargetConfig s))) = sources (formModel s).
Proof.
  intros s.
  destruct (proj2 (saveTargetConfig_frame s) 0%nat Samples.broken_target
              eq_refl eq_refl) as (_ & _ & _ & _ & _ & H1 & _ & _ & _ & H2).
  split; [exact H1 | exact H2].
Defined.
End SaveTarget.

Section LoadOptions.
Import RuleModal.

(** C7.  When one of the four option requests rejects, [loadOptions]
    still ends normally and leaves the state, and so each of the four
    option lists, as it found it. *)
Theorem loadOptions_all_or_nothing (srv : Backend) (s : State) :
  srv _ getAllForwardingScripts = Rejected \/
  srv _ (deviceList (PageParams.mk 1 1000)) = Rejected \/
  srv _ (deviceConfig (PageParams.mk 1 1000)) = Rejected \/
  srv _ deviceGroupTree = Rejected ->
  let r := loadOptions srv s in
  Eff.result r = Normal tt /\
  scriptOptions (Eff.final r) = scriptOptions s /\
  deviceOptions (Eff.final r) = deviceOptions s /\
  productOptions (Eff.final r) = productOptions s /\
  groupOptions (Eff.final r) = groupOptions s /\
  Eff.final r = s.
Proof.
  intros Hrej.
  assert (E : Promise_all4 (srv _ getAllForwardingScripts)
                (srv _ (deviceList (PageParams.mk 1 1000)))
                (srv _ (deviceConfig (PageParams.mk 1 1000)))
                (srv _ deviceGroupTree) = Rejected).
  { unfold Promise_all4.
    destruct Hrej as [-> | [-> | [-> | ->]]];
      repeat match goal with |- context [match ?x with _ => _ end] => destruct x end;
      reflexivity. }
  unfold loadOptions.
  rewrite try_catch_result, try_catch_final.
  rewrite !bind_start_result, !bind_start_final, E.
  rewrite bind_await_rejected. cbn. auto 6.
Qed.

Lemma loadOptions_all_or_nothing_witness :
  let srv : Backend := fun T c =>
    match c with
    | deviceGroupTree => Rejected
    | _ => Resolved (Response.mk None None)
    end in
  Eff.result (loadOptions srv Samples.state0) = Normal tt /\
  Eff.final (loadOptions srv Samples.state0) = Samples.state0.
Proof.
  intros srv.
  destruct (loadOptions_all_or_nothing srv Samples.state0
              (or_intror (or_intror (or_intror eq_refl)))) as (H1 & _ & _ & _ & _ & H2).
  split; [exact H1 | exact H2].
Defined.
End LoadOptions.

Section ScriptTest.
Import ScriptTestModal.

(** C9.  With an empty [script_content], [handleTest] makes no request,
    leaves the state alone and (the notification API being installed)
    shows the warning; with a non-empty one it makes exactly one request,
    the script test carrying the form's [script_content] and [test_data]. *)
Theorem handleTest_requires_script (srv : Backend) (win : Window) (s : State) :
  let r := handleTest srv win s in
  (script_content (formModel s) = [] ->
     requests (Eff.trace r) = [] /\ Eff.final r = s /\
     (message_api win = true ->
      Eff.trace r = [Message warning "dataForwarding.scriptRequired"])) /\
  (script_content (formModel s) <> [] ->
     requests (Eff.trace r) =
     [Request (testForwardingScript
                 (ScriptTestParams.mk (script_content (formModel s))
                                      (test_data (formModel s))))]).
Proof.
  unfold handleTest, Eff.bind, Eff.get, Eff.message.
  cbn [Eff.result Eff.final Eff.trace]. split.
  - intros ->. destruct (message_api win); cbn; repeat split; congruence.
  - intros Hne. destruct (script_content (formModel s)) as [|c sc] eqn:Hsc;
      [congruence|].
    unfold Eff.try_finally, Eff.bind, Eff.call, Eff.start, Eff.modify.
    cbn. rewrite ?Hsc.
    destruct (srv _ _) as [resp|]; cbn; [|reflexivity].
    destruct (Response.error resp), (Response.data resp) as [d|]; cbn;
      try reflexivity.
    destruct (ScriptTestResult.success d), (message_api win); reflexivity.
Qed.

Lemma handleTest_requires_script_witness :
  Eff.trace (handleTest (fun T _ => Rejected) (Build_Window true) Samples.scriptless)
    = [Message warning "dataForwarding.scriptRequired"] /\
  requests (Eff.trace (handleTest (fun T _ => Rejected) (Build_Window true)
                         Samples.scripted))
    = [Request (testForwardingScript
                  (ScriptTestParams.mk (lit "return payload") (lit "{}")))].
Proof.
  split.
  - apply (proj1 (handleTest_requires_script (fun T _ => Rejected)
                    (Build_Window true) Samples.scriptless) eq_refl).
    reflexivity.
  - apply (proj2 (handleTest_requires_script (fun T _ => Rejected)
                    (Build_Window true) Samples.scripted)).
    discriminate.
Defined.
End ScriptTest.

Section ScriptEdit.
Import ScriptModal.

Lemma defaultScriptContent_not_empty : defaultScriptContent <> [].
Proof. discriminate. Qed.

(** C10.  In edit mode (an id to edit, a detail fetch that returns data),
    when the returned [script_content] is missing or empty the form gets
    the default Lua template, which is not the empty string. *)
Theorem loadEditData_defaults_empty_script
  (srv : Backend) (s : State) (row data : ForwardingScript.t)
  (c : N) (i : jsstring) (err : option Response.ApiError) :
  editData (props s) = Some row ->
  ForwardingScript.id row = Some (c :: i) ->
  srv _ (getForwardingScriptDetail (c :: i)) = Resolved (Response.mk (Some data) err) ->
  ForwardingScript.script_content data = None \/
  ForwardingScript.script_content data = Some [] ->
  let r := loadEditData srv s in
  script_content (formModel (Eff.final r)) = defaultScriptContent /\
  script_content (formModel (Eff.final r)) <> [].
Proof.
  intros Hrow Hid Hsrv Hempty r.
  assert (E : script_content (formModel (Eff.final r)) = defaultScriptContent).
  { subst r. unfold loadEditData, Eff.bind, Eff.get.
    cbn [Eff.result Eff.final Eff.trace]. rewrite Hrow. cbn. rewrite Hid.
    unfold Eff.try_finally, Eff.bind, Eff.call, Eff.start, Eff.modify.
    cbn [Eff.result Eff.final Eff.trace]. rewrite Hsrv. cbn.
    destruct Hempty as [-> | ->]; reflexivity. }
  split; [exact E|]. rewrite E. exact defaultScriptContent_not_empty.
Qed.

Lemma loadEditData_defaults_empty_script_witness :
  script_content (formModel (Eff.final
    (loadEditData Samples.script_server Samples.script_editing)))
  = defaultScriptContent.
Proof.
  apply (loadEditData_defaults_empty_script Samples.script_server
           Samples.script_editing Samples.stored_script Samples.stored_script
           (ch "s") (lit "1") None eq_refl eq_refl eq_refl (or_intror eq_refl)).
Defined.
End ScriptEdit.

(* ===================================================================== *)
(** * JSON: reading back what was written                                 *)
(* ===================================================================== *)

Section JsonStrings.

Lemma hex_value_unit n : n < 16 -> hex_value (hex_unit n) = Some n.
Proof.
  intros H. unfold hex_value, hex_unit.
  destruct (N.ltb_spec n 10).
  - replace ((48 <=? 48 + n) && (48 + n <=? 57)) with true
      by (symmetry; apply andb_true_iff; split; apply N.leb_le; lia).
    f_equal. lia.
  - replace ((48 <=? 87 + n) && (87 + n <=? 57)) with false
      by (symmetry; apply andb_false_iff; right; apply N.leb_gt; lia).
    replace ((97 <=? 87 + n) && (87 + n <=? 102)) with true
      by (symmetry; apply andb_true_iff; split; apply N.leb_le; lia).
    f_equal. lia.
Qed.

Lemma hex4_escape c :
  c < 65536 ->
  hex4 (hex_unit (c / 4096 mod 16)) (hex_unit (c / 256 mod 16))
       (hex_unit (c / 16 mod 16)) (hex_unit (c mod 16)) = Some c.
Proof.
  intros H. unfold hex4.
  rewrite !hex_value_unit by (apply N.mod_upper_bound; discriminate).
  f_equal.
  assert (c / 4096 < 16) by (apply N.Div0.div_lt_upper_bound; lia).
  rewrite (N.mod_small (c / 4096)) by assumption.
  assert (E1 : c / 256 = c / 16 / 16) by (by rewrite N.Div0.div_div).
  assert (E2 : c / 4096 = c / 256 / 16) by (by rewrite N.Div0.div_div).
  pose proof (N.div_mod c 16 ltac:(discriminate)).
  pose proof (N.div_mod (c / 16) 16 ltac:(discriminate)).
  pose proof (N.div_mod (c / 256) 16 ltac:(discriminate)).
  lia.
Qed.

Lemma parse_chars_literal c t :
  c <> 34 -> c <> ch "\" -> 32 <= c ->
  parse_chars (c :: t) =
  match parse_chars t with
  | Some (r, t') => Some (c :: r, t')
  | None => None
  end.
Proof.
  intros H1 H2 H3. cbn [parse_chars].
  rewrite (proj2 (N.eqb_neq c 34)) by assumption.
  rewrite (proj2 (N.eqb_neq c (ch "\"))) by assumption.
  rewrite (proj2 (N.ltb_ge c 32)) by assumption. reflexivity.
Qed.

Lemma parse_chars_simple e u t :
  e <> ch "u" -> simple_escape e = Some u ->
  parse_chars (ch "\" :: e :: t) =
  match parse_chars t with
  | Some (r, t') => Some (u :: r, t')
  | None => None
  end.
Proof.
  intros H1 H2. cbn [parse_chars].
  change (ch "\" =? 34) with false. change (ch "\" =? ch "\") with true.
  cbv iota. rewrite (proj2 (N.eqb_neq e (ch "u"))) by assumption.
  rewrite H2. reflexivity.
Qed.

Lemma parse_chars_unicode c t :
  c < 65536 ->
  parse_chars (unicode_escape c ++ t) =
  match parse_chars t with
  | Some (r, t') => Some (c :: r, t')
  | None => None
  end.
Proof.
  intros H. unfold unicode_escape. cbn [app parse_chars].
  change (ch "\" =? 34) with false. change (ch "\" =? ch "\") with true.
  change (ch "u" =? ch "u") with true. cbv iota.
  rewrite hex4_escape by assumption. reflexivity.
Qed.

Lemma parse_chars_quote_unit c t :
  is_high_surrogate c = false ->
  parse_chars (quote_unit c ++ t) =
  match parse_chars t with
  | Some (r, t') => Some (c :: r, t')
  | None => None
  end.
Proof.
  intros Hh. unfold quote_unit.
  repeat match goal with
         | |- context [if ?c =? ?k then _ else _] =>
             destruct (N.eqb_spec c k) as [-> | ?];
             [apply parse_chars_simple; [discriminate | reflexivity] |]
         end.
  destruct ((c <? 32) || is_low_surrogate c) eqn:E.
  - apply parse_chars_unicode.
    apply orb_true_iff in E as [E | E].
    + apply N.ltb_lt in E. lia.
    + unfold is_low_surrogate in E. apply andb_true_iff in E as [_ E].
      apply N.leb_le in E. lia.
  - apply orb_false_iff in E as [E _]. apply N.ltb_ge in E.
    cbn [app]. apply parse_chars_literal; assumption.
Qed.

Lemma surrogate_literal c :
  is_high_surrogate c = true \/ is_low_surrogate c = true ->
  c <> 34 /\ c <> ch "\" /\ 32 <= c.
Proof.
  unfold is_high_surrogate, is_low_surrogate.
  change (ch "\") with 92.
  intros [E | E]; apply andb_true_iff in E as [E _]; apply N.leb_le in E;
    repeat split; lia.
Qed.

Lemma parse_chars_quote_units_bounded n :
  forall s rest, (length s <= n)%nat ->
    parse_chars (quote_units s ++ 34 :: rest) = Some (s, rest).
Proof.
  induction n as [|n IH]; intros s rest Hlen.
  - destruct s; [reflexivity | simpl in Hlen; lia].
  - destruct s as [|c s]; [reflexivity|]. simpl in Hlen.
    cbn [quote_units]. destruct (is_high_surrogate c) eqn:Hh.
    + destruct s as [|d s].
      * rewrite parse_chars_unicode; [reflexivity|].
        unfold is_high_surrogate in Hh. apply andb_true_iff in Hh as [_ Hh].
        apply N.leb_le in Hh. lia.
      * destruct (is_low_surrogate d) eqn:Hl.
        -- destruct (surrogate_literal c (or_introl Hh)) as (? & ? & ?).
           destruct (surrogate_literal d (or_intror Hl)) as (? & ? & ?).
           cbn [app]. rewrite parse_chars_literal by assumption.
           rewrite parse_chars_literal by assumption.
           rewrite IH by (simpl in Hlen; lia). reflexivity.
        -- rewrite <- app_assoc, parse_chars_unicode.
           ++ rewrite IH by lia. reflexivity.
           ++ unfold is_high_surrogate in Hh.
              apply andb_true_iff in Hh as [_ Hh]. apply N.leb_le in Hh. lia.
    + rewrite <- app_assoc, parse_chars_quote_unit by assumption.
      rewrite IH by lia. reflexivity.
Qed.

(** A quoted string reads back as itself. *)
Lemma parse_chars_quote s rest :
  parse_chars (quote_units s ++ 34 :: rest) = Some (s, rest).
Proof. apply (parse_chars_quote_units_bounded (length s)). lia. Qed.

End JsonStrings.

Section JsonNumbers.

Lemma delimited_head rest :
  delimited rest = true ->
  match rest with
  | [] => True
  | c :: _ => digit_of c = None /\ c <> ch "." /\ c <> ch "e" /\ c <> ch "E"
              /\ is_ws c = false
  end.
Proof.
  destruct rest as [|c rest]; [done|]. unfold delimited. intros H.
  apply orb_true_iff in H as [H | H];
    [apply orb_true_iff in H as [H | H]|]; apply N.eqb_eq in H; subst c;
    repeat split; discriminate.
Qed.

Lemma read_digits_units u rest :
  delimited rest = true -> read_digits (uint_units u ++ rest) = (u, rest).
Proof.
  intros H. induction u; cbn [uint_units app read_digits];
    try (change (digit_of (digit_unit _)) with (Some D0) ||
         change (digit_of (digit_unit 1)) with (Some D1) ||
         change (digit_of (digit_unit 2)) with (Some D2) ||
         change (digit_of (digit_unit 3)) with (Some D3) ||
         change (digit_of (digit_unit 4)) with (Some D4) ||
         change (digit_of (digit_unit 5)) with (Some D5) ||
         change (digit_of (digit_unit 6)) with (Some D6) ||
         change (digit_of (digit_unit 7)) with (Some D7) ||
         change (digit_of (digit_unit 8)) with (Some D8) ||
         change (digit_of (digit_unit 9)) with (Some D9));
    try (cbv iota; rewrite IHu; reflexivity).
  apply delimited_head in H. destruct rest as [|c rest]; [reflexivity|].
  cbn [read_digits]. destruct H as (-> & _). reflexivity.
Qed.

Lemma parse_fraction_delimited neg ip rest :
  delimited rest = true ->
  parse_fraction neg ip rest = Some (mk_number neg ip Nil 0, rest).
Proof.
  intros H. apply delimited_head in H. destruct rest as [|c rest]; [reflexivity|].
  destruct H as (_ & H1 & H2 & H3 & _). unfold parse_fraction, parse_exponent.
  rewrite (proj2 (N.eqb_neq c (ch "."))), (proj2 (N.eqb_neq c (ch "e"))),
    (proj2 (N.eqb_neq c (ch "E"))) by assumption.
  reflexivity.
Qed.

(** The decimal digits of a number have no leading zero. *)
Lemma to_uint_head (p : positive) :
  match Pos.to_uint p with
  | Nil | D0 _ => False
  | _ => True
  end.
Proof.
  pose proof (DecimalPos.Unsigned.to_of (Pos.to_uint p)) as E.
  rewrite DecimalPos.Unsigned.of_to in E. change (N.to_uint (N.pos p)) with (Pos.to_uint p) in E.
  pose proof (DecimalPos.Unsigned.to_uint_nonnil p) as Hnil.
  destruct (Pos.to_uint p) as [|d| | | | | | | | | ] eqn:Ep; try exact I; [congruence|].
  exfalso. rewrite unorm_D0 in E.
  pose proof (nb_digits_unorm d) as Hle.
  destruct (uint_eq_dec d Nil) as [-> | Hd].
  - apply (DecimalPos.Unsigned.to_uint_nonzero p). exact Ep.
  - specialize (Hle Hd). rewrite <- E in Hle. simpl in Hle. lia.
Qed.

Lemma mk_number_int neg u :
  mk_number neg u Nil 0 =
  NInt (if neg then - Z.of_N (N.of_uint u) else Z.of_N (N.of_uint u)).
Proof.
  unfold mk_number. rewrite DecimalFacts.app_nil_r. cbn [nb_digits Z.of_nat Z.sub Z.opp].
  set (m := if neg then _ else _). destruct (Z.eqb_spec m 0) as [-> | ?];
    [reflexivity|].
  cbn. f_equal. lia.
Qed.

(** An integer of at most 21 digits, written by [Number_toString], reads
    back as itself. *)
Lemma parse_number_int z rest :
  (length (digits (Z.abs_N z)) <= 21)%nat ->
  delimited rest = true ->
  parse_number (Number_toString (NInt z) ++ rest) = Some (NInt z, rest).
Proof.
  intros Hlen Hrest. unfold Number_toString.
  rewrite (proj2 (Nat.leb_le _ _) Hlen).
  assert (Hbody : forall neg, (neg = true -> Z.abs_N z <> 0) ->
    parse_integer neg (digits (Z.abs_N z) ++ rest) =
    Some (NInt (if neg then - Z.of_N (Z.abs_N z) else Z.of_N (Z.abs_N z)), rest)).
  { intros neg Hneg. unfold digits, parse_integer.
    destruct (Z.abs_N z) as [|p] eqn:Ez.
    - cbn. rewrite parse_fraction_delimited, mk_number_int by assumption.
      destruct neg; [by destruct Hneg | reflexivity].
    - change (N.to_uint (N.pos p)) with (Pos.to_uint p).
      pose proof (to_uint_head p) as Hhead.
      pose proof (DecimalPos.Unsigned.of_to p) as Hof.
      rewrite read_digits_units by assumption.
      destruct (Pos.to_uint p) as [|d|d|d|d|d|d|d|d|d|d]; try contradiction;
        cbn [uint_units app];
        match goal with
        | |- context [digit_unit ?k =? ch "0"] =>
            change (digit_unit k =? ch "0") with false
        end; cbv iota;
        rewrite parse_fraction_delimited, mk_number_int by assumption;
        change N.of_uint with Pos.of_uint; rewrite Hof; reflexivity. }
  destruct (Z.ltb_spec z 0) as [Hz | Hz].
  - cbn [app]. unfold parse_number. change (ch "-" =? ch "-") with true.
    cbv iota. rewrite (Hbody true) by lia. do 3 f_equal. lia.
  - unfold parse_number.
    assert (Hfirst : exists c t, digits (Z.abs_N z) ++ rest = c :: t /\ c <> ch "-").
    { unfold digits. destruct (Z.abs_N z) as [|p]; [by eexists _, _|].
      change (N.to_uint (N.pos p)) with (Pos.to_uint p).
      pose proof (to_uint_head p) as Hhead.
      destruct (Pos.to_uint p); try contradiction; eexists _, _;
        (split; [reflexivity | discriminate]). }
    destruct Hfirst as (c & t & E & Hc).
    pose proof (Hbody false ltac:(discriminate)) as Hb.
    rewrite E in *. rewrite (proj2 (N.eqb_neq c (ch "-"))) by assumption.
    rewrite Hb. do 3 f_equal. lia.
Qed.

Lemma read_digits_ends u rest :
  ends_number rest -> read_digits (uint_units u ++ rest) = (u, rest).
Proof.
  intros H. induction u; cbn [uint_units app read_digits];
    try (change (digit_of (digit_unit _)) with (Some D0) ||
         change (digit_of (digit_unit 1)) with (Some D1) ||
         change (digit_of (digit_unit 2)) with (Some D2) ||
         change (digit_of (digit_unit 3)) with (Some D3) ||
         change (digit_of (digit_unit 4)) with (Some D4) ||
         change (digit_of (digit_unit 5)) with (Some D5) ||
         change (digit_of (digit_unit 6)) with (Some D6) ||
         change (digit_of (digit_unit 7)) with (Some D7) ||
         change (digit_of (digit_unit 8)) with (Some D8) ||
         change (digit_of (digit_unit 9)) with (Some D9));
    try (cbv iota; rewrite IHu; reflexivity).
  destruct rest as [|c rest]; [reflexivity|].
  cbn [read_digits]. destruct H as (-> & _). reflexivity.
Qed.

Lemma parse_exponent_ends neg ip fd rest :
  ends_number rest ->
  parse_exponent neg ip fd rest = Some (mk_number neg ip fd 0, rest).
Proof.
  intros H. destruct rest as [|c rest]; [reflexivity|].
  destruct H as (_ & _ & H2 & H3). unfold parse_exponent.
  rewrite (proj2 (N.eqb_neq c (ch "e"))), (proj2 (N.eqb_neq c (ch "E")))
    by assumption.
  reflexivity.
Qed.

Lemma parse_fraction_ends neg ip rest :
  ends_number rest ->
  parse_fraction neg ip rest = Some (mk_number neg ip Nil 0, rest).
Proof.
  intros H. destruct rest as [|c rest]; [reflexivity|].
  pose proof (parse_exponent_ends neg ip Nil (c :: rest) H) as E.
  destruct H as (_ & H1 & _). unfold parse_fraction.
  by rewrite (proj2 (N.eqb_neq c (ch "."))) by assumption.
Qed.

(** An integer of at most 21 digits reads back as itself before anything
    that does not continue a number. *)
Lemma parse_number_int_ends z rest :
  (length (digits (Z.abs_N z)) <= 21)%nat ->
  ends_number rest ->
  parse_number (Number_toString (NInt z) ++ rest) = Some (NInt z, rest).
Proof.
  intros Hlen Hrest. unfold Number_toString.
  rewrite (proj2 (Nat.leb_le _ _) Hlen).
  assert (Hbody : forall neg, (neg = true -> Z.abs_N z <> 0) ->
    parse_integer neg (digits (Z.abs_N z) ++ rest) =
    Some (NInt (if neg then - Z.of_N (Z.abs_N z) else Z.of_N (Z.abs_N z)), rest)).
  { intros neg Hneg. unfold digits, parse_integer.
    destruct (Z.abs_N z) as [|p] eqn:Ez.
    - cbn. rewrite parse_fraction_ends, mk_number_int by assumption.
      destruct neg; [by destruct Hneg | reflexivity].
    - change (N.to_uint (N.pos p)) with (Pos.to_uint p).
      pose proof (to_uint_head p) as Hhead.
      pose proof (DecimalPos.Unsigned.of_to p) as Hof.
      rewrite read_digits_ends by assumption.
      destruct (Pos.to_uint p) as [|d|d|d|d|d|d|d|d|d|d]; try contradiction;
        cbn [uint_units app];
        match goal with
        | |- context [digit_unit ?k =? ch "0"] =>
            change (digit_unit k =? ch "0") with false
        end; cbv iota;
        rewrite parse_fraction_ends, mk_number_int by assumption;
        change N.of_uint with Pos.of_uint; rewrite Hof; reflexivity. }
  destruct (Z.ltb_spec z 0) as [Hz | Hz].
  - cbn [app]. unfold parse_number. change (ch "-" =? ch "-") with true.
    cbv iota. rewrite (Hbody true) by lia. do 3 f_equal. lia.
  - unfold parse_number.
    assert (Hfirst : exists c t, digits (Z.abs_N z) ++ rest = c :: t /\ c <> ch "-").
    { unfold digits. destruct (Z.abs_N z) as [|p]; [by eexists _, _|].
      change (N.to_uint (N.pos p)) with (Pos.to_uint p).
      pose proof (to_uint_head p) as Hhead.
      destruct (Pos.to_uint p); try contradiction; eexists _, _;
        (split; [reflexivity | discriminate]). }
    destruct Hfirst as (c & t & E & Hc).
    pose proof (Hbody false ltac:(discriminate)) as Hb.
    rewrite E in *. rewrite (proj2 (N.eqb_neq c (ch "-"))) by assumption.
    rewrite Hb. do 3 f_equal. lia.
Qed.


Lemma delimited_ends rest : delimited rest = true -> ends_number rest.
Proof.
  intros H. apply delimited_head in H. destruct rest as [|c rest]; [done|].
  destruct H as (H1 & H2 & H3 & H4 & _). by repeat split.
Qed.

(** ** Decimals *)

Lemma read_digits_stop u rest :
  match rest with [] => True | c :: _ => digit_of c = None end ->
  read_digits (uint_units u ++ rest) = (u, rest).
Proof.
  intros H. induction u; cbn [uint_units app read_digits];
    try (change (digit_of (digit_unit _)) with (Some D0) ||
         change (digit_of (digit_unit 1)) with (Some D1) ||
         change (digit_of (digit_unit 2)) with (Some D2) ||
         change (digit_of (digit_unit 3)) with (Some D3) ||
         change (digit_of (digit_unit 4)) with (Some D4) ||
         change (digit_of (digit_unit 5)) with (Some D5) ||
         change (digit_of (digit_unit 6)) with (Some D6) ||
         change (digit_of (digit_unit 7)) with (Some D7) ||
         change (digit_of (digit_unit 8)) with (Some D8) ||
         change (digit_of (digit_unit 9)) with (Some D9));
    try (cbv iota; rewrite IHu; reflexivity).
  destruct rest as [|c rest]; [reflexivity|].
  cbn [read_digits]. by rewrite H.
Qed.

Lemma uint_units_length u : length (uint_units u) = nb_digits u.
Proof. induction u; cbn [uint_units length nb_digits]; congruence. Qed.

Lemma uint_units_nil u : uint_units u = [] -> u = Nil.
Proof. by destruct u. Qed.

(** The digits before and after a decimal point put in a digit string. *)
Lemma uint_split u n :
  (n <= nb_digits u)%nat ->
  exists ip fd,
    take n (uint_units u) = uint_units ip /\ drop n (uint_units u) = uint_units fd /\
    Decimal.app ip fd = u /\ nb_digits fd = (nb_digits u - n)%nat.
Proof.
  revert u. induction n as [|n IH]; intros u Hn.
  { exists Nil, u. rewrite take_0, drop_0. repeat split. lia. }
  destruct u as [|u|u|u|u|u|u|u|u|u|u]; cbn [nb_digits] in Hn; try (exfalso; lia);
    destruct (IH u ltac:(lia)) as (ip & fd & H1 & H2 & H3 & H4);
    match goal with
    | |- context [uint_units (?D u)] => exists (D ip), fd
    end;
    cbn [uint_units firstn skipn nb_digits]; rewrite H1, H2, H4;
    repeat split; try lia;
    apply to_list_inj; rewrite app_spec; cbn [to_list];
    rewrite <- H3, app_spec; reflexivity.
Qed.

Lemma uint_units_zeros j u :
  uint_units (Nat.iter j D0 u) = repeat (digit_unit 0) j ++ uint_units u.
Proof.
  induction j as [|j IH]; [reflexivity|].
  change (Nat.iter (S j) D0 u) with (D0 (Nat.iter j D0 u)).
  cbn [uint_units repeat app]. by rewrite IH.
Qed.

Lemma of_uint_zeros j u : N.of_uint (Nat.iter j D0 u) = N.of_uint u.
Proof. induction j as [|j IH]; [reflexivity|]. exact IH. Qed.

(** The number read from digits [ip], a point and [e] digits [fd], when the
    digits together do not end in 0. *)
Lemma mk_number_dec neg ip fd (e : positive) :
  nb_digits fd = Pos.to_nat e -> (Z.pos e <= 323)%Z ->
  (Z.of_N (N.of_uint (Decimal.app ip fd)) mod 10 <> 0)%Z ->
  mk_number neg ip fd 0 =
  NDec (if neg then - Z.of_N (N.of_uint (Decimal.app ip fd))
        else Z.of_N (N.of_uint (Decimal.app ip fd))) e.
Proof.
  intros Hfd He Hm. unfold mk_number. rewrite Hfd.
  set (M := Z.of_N (N.of_uint (Decimal.app ip fd))) in *.
  set (m := if neg then (- M)%Z else M).
  assert (Hm' : (m mod 10 <> 0)%Z).
  { subst m. destruct neg; [|exact Hm]. intros E. apply Hm.
    apply Z.mod_divide in E; [|lia]. apply Z.mod_divide; [lia|].
    apply Z.divide_opp_r. exact E. }
  assert (m <> 0%Z) by (intros E; rewrite E in Hm'; by apply Hm').
  cbv zeta. rewrite (proj2 (Z.eqb_neq m 0)) by assumption.
  replace (0 - Z.of_nat (Pos.to_nat e))%Z with (Z.neg e) by lia.
  change (0 <=? Z.neg e)%Z with false. cbv iota.
  change (- Z.neg e)%Z with (Z.pos e).
  unfold underflows. rewrite (proj2 (Z.ltb_ge 323 (Z.pos e))) by lia.
  cbn [andb]. cbv iota.
  rewrite Z2Nat.inj_pos. destruct (Pos2Nat.is_succ e) as [k ->].
  cbn [normalise]. change (Z.pos e <=? 0)%Z with false. cbv iota.
  by rewrite (proj2 (Z.eqb_neq (m mod 10) 0)) by assumption.
Qed.

Lemma parse_integer_point neg ip fd rest c t :
  uint_units ip = c :: t -> (c =? ch "0") = false -> fd <> Nil ->
  ends_number rest ->
  parse_integer neg (uint_units ip ++ ch "." :: uint_units fd ++ rest) =
  Some (mk_number neg ip fd 0, rest).
Proof.
  intros E Hc Hfd Hrest.
  assert (Hip : read_digits (uint_units ip ++ ch "." :: uint_units fd ++ rest)
                = (ip, ch "." :: uint_units fd ++ rest))
    by (by apply read_digits_stop).
  assert (Hfr : read_digits (uint_units fd ++ rest) = (fd, rest)).
  { apply read_digits_stop. destruct rest as [|x rest]; [done|]. apply Hrest. }
  unfold parse_integer. rewrite E in *. cbn [app] in *. rewrite Hc, Hip.
  assert (ip <> Nil) by (intros ->; discriminate E).
  destruct ip; [done|..];
    (unfold parse_fraction; change (ch "." =? ch ".") with true; cbv iota;
     rewrite Hfr; destruct fd; [done|..]; by apply parse_exponent_ends).
Qed.

Lemma parse_integer_zero_point neg fd rest :
  fd <> Nil -> ends_number rest ->
  parse_integer neg (ch "0" :: ch "." :: uint_units fd ++ rest) =
  Some (mk_number neg (D0 Nil) fd 0, rest).
Proof.
  intros Hfd Hrest.
  assert (Hfr : read_digits (uint_units fd ++ rest) = (fd, rest)).
  { apply read_digits_stop. destruct rest as [|x rest]; [done|]. apply Hrest. }
  unfold parse_integer. change (ch "0" =? ch "0") with true. cbv iota.
  unfold parse_fraction. change (ch "." =? ch ".") with true. cbv iota.
  rewrite Hfr. destruct fd; [done|..]; by apply parse_exponent_ends.
Qed.

Lemma plain_decimal_spec most m e :
  plain_decimal most m e = true ->
  (m mod 10 <> 0)%Z /\ (length (digits (Z.abs_N m)) <= most)%nat /\
  (-6 < Z.of_nat (length (digits (Z.abs_N m))) - Z.pos e)%Z.
Proof.
  unfold plain_decimal. cbv zeta.
  intros [[H1 H2]%andb_true_iff H3]%andb_true_iff.
  apply negb_true_iff, Z.eqb_neq in H1. apply Nat.leb_le in H2.
  apply Z.ltb_lt in H3. done.
Qed.

Lemma head_digit p :
  exists c t, uint_units (Pos.to_uint p) = c :: t /\ (c =? ch "0") = false /\
              c <> ch "-" /\ 48 <= c /\ c <= 57.
Proof.
  pose proof (to_uint_head p) as H.
  destruct (Pos.to_uint p); try contradiction; eexists _, _;
    (split; [reflexivity|]); repeat split; discriminate.
Qed.

(** The digits of a plain decimal, laid out by [Number_toString], read back
    as the decimal. *)
Lemma parse_integer_dec most (m : Z) (e : positive) neg rest :
  plain_decimal most m e = true -> (most <= 21)%nat -> ends_number rest ->
  let ds := digits (Z.abs_N m) in
  parse_integer neg (layout ds (Z.of_nat (length ds) - Z.pos e) ++ rest) =
  Some (NDec (if neg then - Z.abs m else Z.abs m) e, rest).
Proof.
  intros Hplain Hmost Hrest ds.
  destruct (plain_decimal_spec _ _ _ Hplain) as (Hm & Hk & Hn). fold ds in Hk, Hn.
  assert (Habs : (Z.abs m mod 10 <> 0)%Z).
  { intros E. apply Hm. apply Z.mod_divide in E; [|lia]. apply Z.mod_divide; [lia|].
    apply Z.divide_abs_r. exact E. }
  destruct (Z.abs_N m) as [|p] eqn:Ep; [exfalso; apply Hm; destruct m; [done|lia|lia]|].
  assert (EM : Z.of_N (N.pos p) = Z.abs m) by (rewrite <- Ep; apply N2Z.inj_abs_N).
  subst ds. unfold digits in *. change (N.to_uint (N.pos p)) with (Pos.to_uint p) in *.
  set (u := Pos.to_uint p) in *.
  assert (Hu : N.of_uint u = N.pos p)
    by (change N.of_uint with (fun d => Pos.of_uint d); apply DecimalPos.Unsigned.of_to).
  rewrite uint_units_length in *. set (k := nb_digits u) in *.
  unfold layout. rewrite uint_units_length. fold k.
  replace ((Z.of_nat k <=? Z.of_nat k - Z.pos e)%Z) with false
    by (symmetry; apply Z.leb_gt; lia).
  cbn [andb]. cbv iota.
  destruct (Z.ltb_spec 0 (Z.of_nat k - Z.pos e)) as [Hpos | Hneg].
  - replace (Z.of_nat k - Z.pos e <=? 21)%Z with true
      by (symmetry; apply Z.leb_le; lia).
    cbn [andb]. cbv iota.
    destruct (uint_split u (Z.to_nat (Z.of_nat k - Z.pos e)) ltac:(fold k; lia))
      as (ip & fd & H1 & H2 & H3 & H4).
    rewrite H1, H2. rewrite <- app_assoc. cbn [app].
    destruct (head_digit p) as (c & t & E & Hc & _). fold u in E.
    assert (Eip : exists t', uint_units ip = c :: t').
    { rewrite <- H1, E. destruct (Z.to_nat (Z.of_nat k - Z.pos e)) eqn:En; [lia|].
      eexists. reflexivity. }
    destruct Eip as (t' & Eip).
    rewrite (parse_integer_point neg ip fd rest c t' Eip Hc); [| |exact Hrest].
    + rewrite (mk_number_dec neg ip fd e); rewrite ?H3, ?Hu, ?EM; try done; lia.
    + intros ->. cbn [nb_digits] in H4. fold k in H4. lia.
  - replace ((-6 <? Z.of_nat k - Z.pos e) && (Z.of_nat k - Z.pos e <=? 0))%Z with true
      by (symmetry; apply andb_true_iff; split; [apply Z.ltb_lt | apply Z.leb_le]; lia).
    cbn [andb]. cbv iota. cbn [app]. rewrite <- uint_units_zeros.
    set (j := Z.to_nat (- (Z.of_nat k - Z.pos e))).
    assert (Hnil : Nat.iter j D0 u <> Nil).
    { intros E. apply (f_equal nb_digits) in E. rewrite nb_digits_iter_D0 in E.
      cbn [nb_digits] in E.
      assert (k <> 0%nat); [|fold k in E; lia].
      subst k. intros E0. apply nb_digits_0 in E0.
      by apply (DecimalPos.Unsigned.to_uint_nonnil p). }
    rewrite (parse_integer_zero_point neg _ rest Hnil Hrest).
    assert (Happ : Decimal.app (D0 Nil) (Nat.iter j D0 u) = D0 (Nat.iter j D0 u))
      by reflexivity.
    rewrite (mk_number_dec neg (D0 Nil) (Nat.iter j D0 u) e);
      rewrite ?Happ; change (N.of_uint (D0 ?x)) with (N.of_uint x);
      rewrite ?of_uint_zeros, ?Hu, ?EM; try done; try lia.
    rewrite nb_digits_iter_D0. fold k. lia.
Qed.

Lemma parse_number_dec most (m : Z) (e : positive) rest :
  plain_decimal most m e = true -> (most <= 21)%nat -> ends_number rest ->
  parse_number (Number_toString (NDec m e) ++ rest) = Some (NDec m e, rest).
Proof.
  intros Hplain Hmost Hrest. unfold Number_toString. cbv zeta.
  destruct (Z.ltb_spec m 0) as [Hz | Hz].
  - cbn [app]. unfold parse_number. change (ch "-" =? ch "-") with true.
    cbv iota. rewrite (parse_integer_dec most m e true rest) by assumption.
    do 3 f_equal. lia.
  - pose proof (parse_integer_dec most m e false rest Hplain Hmost Hrest) as Hb.
    cbv zeta in Hb. unfold parse_number.
    destruct (layout _ _ ++ rest) as [|c t] eqn:E; [discriminate Hb|].
    assert (Hc : c <> ch "-").
    { intros ->. unfold parse_integer in Hb.
      change (ch "-" =? ch "0") with false in Hb. cbv iota in Hb.
      cbn [read_digits] in Hb. change (digit_of (ch "-")) with (@None (uint -> uint)) in Hb.
      discriminate Hb. }
    rewrite (proj2 (N.eqb_neq c (ch "-"))) by assumption.
    rewrite Hb. do 3 f_equal. lia.
Qed.

(** Every number of [wf_json] reads back, and its text starts with a sign
    or a digit. *)
Lemma parse_number_wf n rest :
  wf_number n = true -> ends_number rest ->
  parse_number (Number_toString n ++ rest) = Some (n, rest).
Proof.
  destruct n as [z|m e]; cbn [wf_number]; intros H Hrest.
  - apply parse_number_int_ends; [by apply Nat.leb_le | exact Hrest].
  - apply (parse_number_dec 17); [exact H | lia | exact Hrest].
Qed.

End JsonNumbers.

Section JsonValues.

Lemma value_induction (P : value -> Prop) :
  P VUndefined -> P VNull -> (forall b, P (VBool b)) -> (forall n, P (VNum n)) ->
  (forall s, P (VStr s)) ->
  (forall l, Forall P l -> P (VArr l)) ->
  (forall m, Forall (fun kv => P (snd kv)) m -> P (VObj m)) ->
  forall v, P v.
Proof.
  intros H1 H2 H3 H4 H5 H6 H7. fix IH 1.
  intros [ | |b|n|s|l|m];
    [exact H1 | exact H2 | apply H3 | apply H4 | apply H5 | | ].
  - apply H6. induction l as [|x l IHl]; constructor; [apply IH | apply IHl].
  - apply H7. induction m as [|[k x] m IHm]; constructor; [apply IH | apply IHm].
Qed.

Lemma serialize_object m :
  serialize (VObj m) = ch "{" :: join (lit ",") (member_texts m) ++ [ch "}"].
Proof. reflexivity. Qed.

(** Members holding [undefined] are not written. *)
Lemma member_texts_defined m :
  member_texts m = member_texts (List.filter defined m).
Proof.
  induction m as [|[k x] m IH]; [reflexivity|].
  destruct x; cbn [List.filter defined snd member_texts]; rewrite <- IH;
    reflexivity.
Qed.

(** A new key that precedes none of the keys of an object goes last. *)
Lemma set_key_fresh k v m :
  k ∉ map fst m ->
  forallb (fun k' => negb (precedes k k')) (map fst m) = true ->
  set_key k v m = m ++ [(k, v)].
Proof.
  induction m as [|[k' v'] m IH]; intros Hk Hord; [reflexivity|].
  cbn [map fst forallb] in Hord. apply andb_true_iff in Hord as [Hp Hord].
  apply negb_true_iff in Hp.
  cbn [set_key]. unfold jsstring_eqb. rewrite bool_decide_eq_false_2.
  - rewrite Hp. cbn [app]. f_equal. apply IH; [|exact Hord].
    intros Hin. apply Hk. cbn. by right.
  - intros ->. apply Hk. cbn. by left.
Qed.

Lemma ordered_middle l1 k l2 :
  ordered (l1 ++ k :: l2) = true ->
  forallb (fun k' => negb (precedes k k')) l1 = true.
Proof.
  induction l1 as [|a l1 IH]; [done|]. cbn [app ordered forallb].
  intros [Ha Hord]%andb_true_iff. rewrite forallb_app in Ha.
  apply andb_true_iff in Ha as [_ Ha]. cbn [forallb] in Ha.
  apply andb_true_iff in Ha as [Ha _]. rewrite Ha. by apply IH.
Qed.

(** Read in the order an object lists them, distinct members end up in
    that order. *)
Lemma fold_set_key m :
  forall acc, NoDup (map fst (acc ++ m)) -> ordered (map fst (acc ++ m)) = true ->
    fold_left (fun o kv => set_key kv.1 kv.2 o) m acc = acc ++ m.
Proof.
  induction m as [|[k v] m IH]; intros acc Hnd Hord; [by rewrite app_nil_r|].
  cbn [fold_left fst snd]. rewrite set_key_fresh.
  - rewrite IH; rewrite <- app_assoc; [reflexivity | exact Hnd | exact Hord].
  - rewrite map_app in Hnd. apply NoDup_app in Hnd as (_ & Hd & _).
    intros Hin. apply (Hd k Hin). cbn. by left.
  - rewrite map_app in Hord. cbn [map fst] in Hord. by eapply ordered_middle.
Qed.

Lemma skip_ws_head c t : is_ws c = false -> skip_ws (c :: t) = c :: t.
Proof. intros H. cbn [skip_ws]. by rewrite H. Qed.

Lemma parse_value_array f t :
  parse_value (S f) (ch "[" :: t) =
  match skip_ws t with
  | d :: s'' =>
      if d =? ch "]" then Some (VArr [], s'')
      else match parse_elements f t with
           | Some (l, r) => Some (VArr l, r)
           | None => None
           end
  | [] => None
  end.
Proof. reflexivity. Qed.

Lemma parse_value_object f t :
  parse_value (S f) (ch "{" :: t) =
  match skip_ws t with
  | d :: s'' =>
      if d =? ch "}" then Some (VObj [], s'')
      else match parse_members f t with
           | Some (m, r) =>
               Some (VObj (fold_left (fun o kv => set_key kv.1 kv.2 o) m []), r)
           | None => None
           end
  | [] => None
  end.
Proof. reflexivity. Qed.

Lemma parse_value_string f t :
  parse_value (S f) (34 :: t) =
  match parse_chars t with
  | Some (r, t') => Some (VStr r, t')
  | None => None
  end.
Proof. reflexivity. Qed.

Lemma parse_value_number f c t :
  c = ch "-" \/ (48 <= c /\ c <= 57) ->
  parse_value (S f) (c :: t) =
  match parse_number (c :: t) with
  | Some (n, t') => Some (VNum n, t')
  | None => None
  end.
Proof.
  intros Hc. cbn [parse_value].
  assert (Hws : is_ws c = false).
  { unfold is_ws. repeat (apply orb_false_iff; split); apply N.eqb_neq;
      destruct Hc as [-> | ?]; [discriminate | lia | discriminate | lia
                                | discriminate | lia | discriminate | lia]. }
  rewrite skip_ws_head by assumption.
  repeat match goal with
         | |- context [c =? ?k] =>
             rewrite (proj2 (N.eqb_neq c k))
               by (destruct Hc as [-> | ?]; [discriminate | cbv; lia])
         end.
  reflexivity.
Qed.

Lemma parse_elements_step f s :
  parse_elements (S f) s =
  match parse_value f s with
  | Some (v, s1) =>
      match skip_ws s1 with
      | c :: s2 =>
          if c =? ch "," then
            match parse_elements f s2 with
            | Some (l, t) => Some (v :: l, t)
            | None => None
            end
          else if c =? ch "]" then Some ([v], s2)
          else None
      | [] => None
      end
  | None => None
  end.
Proof. reflexivity. Qed.

Lemma parse_members_step f k t :
  parse_members (S f) (34 :: quote_units k ++ 34 :: ch ":" :: t) =
  match parse_value f t with
  | Some (v, s4) =>
      match skip_ws s4 with
      | c3 :: s5 =>
          if c3 =? ch "," then
            match parse_members f s5 with
            | Some (m, r) => Some ((k, v) :: m, r)
            | None => None
            end
          else if c3 =? ch "}" then Some ([(k, v)], s5)
          else None
      | [] => None
      end
  | None => None
  end.
Proof.
  cbn [parse_members]. rewrite skip_ws_head by reflexivity.
  change (34 =? 34) with true. cbv iota. rewrite parse_chars_quote.
  rewrite skip_ws_head by reflexivity. reflexivity.
Qed.

Lemma digit_of_range c k : digit_of c = Some k -> 48 <= c /\ c <= 57.
Proof.
  unfold digit_of.
  repeat match goal with
         | |- context [c =? ?n] => destruct (N.eqb_spec c n); [lia|]
         end.
  discriminate.
Qed.

Lemma parse_number_head c t x :
  parse_number (c :: t) = Some x -> c = ch "-" \/ (48 <= c /\ c <= 57).
Proof.
  unfold parse_number. destruct (N.eqb_spec c (ch "-")); [by left|].
  intros H. right. unfold parse_integer in H.
  destruct (N.eqb_spec c (ch "0")) as [-> | _]; [split; discriminate|].
  cbn [read_digits] in H. destruct (digit_of c) eqn:E; [|discriminate H].
  by eapply digit_of_range.
Qed.

Lemma number_head_wf n :
  wf_number n = true ->
  exists c t, Number_toString n = c :: t /\
              (c = ch "-" \/ (48 <= c /\ c <= 57)).
Proof.
  intros H. pose proof (parse_number_wf n [] H I) as Hp.
  rewrite app_nil_r in Hp. destruct (Number_toString n) as [|c t]; [discriminate Hp|].
  exists c, t. split; [reflexivity|]. by eapply parse_number_head.
Qed.

Lemma number_head z :
  (length (digits (Z.abs_N z)) <= 21)%nat ->
  exists c t, Number_toString (NInt z) = c :: t /\
              (c = ch "-" \/ (48 <= c /\ c <= 57)).
Proof.
  intros Hlen. unfold Number_toString. rewrite (proj2 (Nat.leb_le _ _) Hlen).
  destruct (z <? 0)%Z; [eexists _, _; eauto|].
  unfold digits. destruct (Z.abs_N z) as [|p].
  - eexists _, _. split; [reflexivity | right; split; discriminate].
  - change (N.to_uint (N.pos p)) with (Pos.to_uint p).
    pose proof (to_uint_head p).
    destruct (Pos.to_uint p); try contradiction; eexists _, _;
      (split; [reflexivity | right; split; discriminate]).
Qed.

Lemma serialize_head v :
  wf_json v = true ->
  exists c t, serialize v = c :: t /\ is_ws c = false /\
              c <> ch "]" /\ c <> ch "}".
Proof.
  destruct v as [ | |[|]|n|s|l|m]; cbn [wf_json]; intros Hwf; try discriminate;
    try (eexists _, _; split; [reflexivity | repeat split; discriminate]).
  destruct (number_head_wf n Hwf) as (c & t & E & Hc).
  exists c, t. cbn [serialize]. split; [exact E|].
  destruct Hc as [-> | Hc]; [repeat split; discriminate|].
  change (ch "]") with 93. change (ch "}") with 125.
  repeat split; try lia.
  unfold is_ws. repeat (apply orb_false_iff; split); apply N.eqb_neq; lia.
Qed.

Lemma join_cons2 sep p q rest :
  join sep (p :: q :: rest) = p ++ sep ++ join sep (q :: rest).
Proof. reflexivity. Qed.

Lemma elements_read_back l :
  l <> [] -> Forall reads_back l -> forallb wf_json l = true ->
  forall fuel rest,
    (length (join (lit ",") (map serialize l)) + 1 <= fuel)%nat ->
    parse_elements fuel (join (lit ",") (map serialize l) ++ ch "]" :: rest)
    = Some (l, rest).
Proof.
  induction l as [|v l IH]; [done|]. intros _ Hall Hwf fuel rest Hfuel.
  inversion Hall as [|? ? Hv Hl]; subst.
  cbn [forallb] in Hwf. apply andb_true_iff in Hwf as [Hwv Hwl].
  destruct fuel as [|f]; [lia|]. rewrite parse_elements_step.
  destruct l as [|v' l'].
  - cbn [map join] in *. rewrite Hv by (lia || reflexivity).
    rewrite skip_ws_head by reflexivity. reflexivity.
  - cbn [map] in *. rewrite join_cons2 in *. rewrite <- !app_assoc.
    rewrite !length_app in Hfuel. cbn [length lit] in Hfuel.
    change (lit "," ++ ?x) with (ch "," :: x).
    rewrite Hv by (lia || reflexivity).
    rewrite skip_ws_head by reflexivity.
    change (ch "," =? ch ",") with true. cbv iota.
    rewrite IH; [reflexivity | done | assumption | assumption |].
    change (length (lit ",")) with 1%nat in Hfuel. lia.
Qed.

Lemma member_texts_cons k x m :
  x <> VUndefined ->
  member_texts ((k, x) :: m) =
  (QuoteJSONString k ++ ch ":" :: serialize x) :: member_texts m.
Proof. destruct x; done. Qed.

Lemma wf_json_defined v : wf_json v = true -> v <> VUndefined.
Proof. by destruct v. Qed.

Lemma join_cons_ne sep p ps :
  ps <> [] -> join sep (p :: ps) = p ++ sep ++ join sep ps.
Proof. by destruct ps. Qed.

Lemma member_texts_ne m :
  m <> [] -> forallb (fun kv => wf_json (snd kv)) m = true ->
  member_texts m <> [].
Proof.
  destruct m as [|[k v] m]; [done|]. intros _ Hwf.
  cbn [forallb snd] in Hwf. apply andb_true_iff in Hwf as [Hw _].
  by rewrite member_texts_cons by (by apply wf_json_defined).
Qed.

Lemma members_read_back m :
  m <> [] -> Forall (fun kv => reads_back (snd kv)) m ->
  forallb (fun kv => wf_json (snd kv)) m = true ->
  forall fuel rest,
    (length (join (lit ",") (member_texts m)) + 1 <= fuel)%nat ->
    parse_members fuel (join (lit ",") (member_texts m) ++ ch "}" :: rest)
    = Some (m, rest).
Proof.
  induction m as [|[k v] m IH]; [done|]. intros _ Hall Hwf fuel rest Hfuel.
  inversion Hall as [|? ? Hv Hl]; subst. cbn [snd] in Hv.
  cbn [forallb snd] in Hwf. apply andb_true_iff in Hwf as [Hwv Hwl].
  destruct fuel as [|f]; [lia|].
  rewrite member_texts_cons in * by (by apply wf_json_defined).
  unfold QuoteJSONString in *.
  destruct (decide (m = [])) as [-> | Hm].
  - cbn [member_texts join] in *.
    rewrite <- !app_assoc. cbn [app]. rewrite <- !app_assoc. cbn [app].
    rewrite parse_members_step.
    rewrite !length_app in Hfuel. cbn [length] in Hfuel.
    rewrite Hv by (rewrite ?length_app in *; cbn [length] in *; lia || reflexivity).
    rewrite skip_ws_head by reflexivity. reflexivity.
  - pose proof (member_texts_ne m Hm Hwl) as Hne.
    rewrite (join_cons_ne _ _ _ Hne) in Hfuel.
    rewrite (join_cons_ne _ _ _ Hne).
    rewrite <- !app_assoc. cbn [app]. rewrite <- !app_assoc. cbn [app].
    rewrite parse_members_step.
    change (lit "," ++ ?x) with (ch "," :: x).
    rewrite ?length_app in Hfuel. cbn [length] in Hfuel.
    rewrite ?length_app in Hfuel. cbn [length] in Hfuel.
    change (length (lit ",")) with 1%nat in Hfuel.
    rewrite Hv by (lia || reflexivity).
    rewrite skip_ws_head by reflexivity.
    change (ch "," =? ch ",") with true. cbv iota.
    rewrite IH; [reflexivity | done | assumption | assumption | lia].
Qed.

(** Every well-formed value is read back. *)
Lemma wf_json_reads_back v : wf_json v = true -> reads_back v.
Proof.
  induction v as [ | |b|n|s|l IH|m IH] using value_induction;
    intros Hwf fuel rest Hfuel Hrest; try discriminate.
  - destruct fuel; [cbn in Hfuel; lia | reflexivity].
  - destruct fuel; [destruct b; cbn in Hfuel; lia | by destruct b].
  - cbn [wf_json] in Hwf. cbn [serialize] in *.
    destruct (number_head_wf n Hwf) as (c & t & E & Hc).
    destruct fuel; [rewrite E in Hfuel; cbn in Hfuel; lia|].
    pose proof (parse_number_wf n rest Hwf (delimited_ends rest Hrest)) as Hp.
    rewrite E in *. cbn [app] in *. rewrite parse_value_number by assumption.
    by rewrite Hp.
  - destruct fuel; [cbn in Hfuel; lia|]. cbn [serialize]. unfold QuoteJSONString.
    cbn [app]. rewrite <- app_assoc. cbn [app].
    rewrite parse_value_string, parse_chars_quote. reflexivity.
  - cbn [wf_json] in Hwf. cbn [serialize] in *.
    destruct fuel; [cbn in Hfuel; lia|]. cbn [app]. rewrite <- app_assoc.
    cbn [app]. rewrite parse_value_array.
    destruct l as [|v l]; [reflexivity|].
    assert (Hback : Forall reads_back (v :: l)).
    { apply Forall_forall. intros x Hx. rewrite Forall_forall in IH.
      apply IH; [assumption|]. rewrite forallb_forall in Hwf.
      apply Hwf. by apply list_elem_of_In. }
    pose proof (elements_read_back (v :: l) ltac:(done) Hback Hwf) as He.
    assert (Hhead : exists c t, join (lit ",") (map serialize (v :: l)) = c :: t
                      /\ is_ws c = false /\ c <> ch "]").
    { cbn [forallb] in Hwf. apply andb_true_iff in Hwf as [Hwv _].
      destruct (serialize_head v Hwv) as (c & t & E & H1 & H2 & _).
      destruct l; cbn [map join]; rewrite E; eexists _, _; eauto. }
    destruct Hhead as (c & t & E & H1 & H2).
    specialize (He fuel rest). rewrite E in *. cbn [app] in *.
    rewrite skip_ws_head by assumption.
    rewrite (proj2 (N.eqb_neq c (ch "]"))) by assumption.
    rewrite He; [reflexivity|]. cbn [length] in *.
    rewrite length_app in Hfuel. cbn [length] in Hfuel. lia.
  - cbn [wf_json] in Hwf. apply andb_true_iff in Hwf as [Hnd Hwf].
    apply andb_true_iff in Hnd as [Hnd Hord].
    apply bool_decide_eq_true_1 in Hnd.
    rewrite serialize_object in *.
    destruct fuel; [cbn in Hfuel; lia|]. cbn [app]. rewrite <- app_assoc.
    cbn [app]. rewrite parse_value_object.
    destruct m as [|[k v] m]; [reflexivity|].
    assert (Hback : Forall (fun kv => reads_back (snd kv)) ((k, v) :: m)).
    { apply Forall_forall. intros x Hx. rewrite Forall_forall in IH.
      apply IH; [assumption|]. rewrite forallb_forall in Hwf.
      apply Hwf. by apply list_elem_of_In. }
    pose proof (members_read_back ((k, v) :: m) ltac:(done) Hback Hwf) as Hm.
    assert (Hhead : exists t, join (lit ",") (member_texts ((k, v) :: m)) = 34 :: t).
    { assert (v <> VUndefined).
      { cbn [forallb snd] in Hwf. apply andb_true_iff in Hwf as [Hw _].
        by apply wf_json_defined. }
      rewrite member_texts_cons by assumption.
      destruct (member_texts m); cbn [join]; eexists; reflexivity. }
    destruct Hhead as (t & E). specialize (Hm fuel rest). rewrite E in *.
    cbn [app] in *. rewrite skip_ws_head by reflexivity.
    change (34 =? ch "}") with false. cbv iota.
    rewrite Hm.
    + rewrite (fold_set_key _ []) by assumption. reflexivity.
    + cbn [length] in *. rewrite length_app in Hfuel. cbn [length] in Hfuel. lia.
Qed.

(** [JSON.parse(JSON.stringify(v))] gives [v] back. *)
Lemma JSON_parse_serialize v :
  wf_json v = true -> JSON_parse (serialize v) = Some v.
Proof.
  intros Hwf. unfold JSON_parse.
  pose proof (wf_json_reads_back v Hwf (S (length (serialize v))) []
                ltac:(lia) eq_refl) as H.
  rewrite app_nil_r in H. rewrite H. reflexivity.
Qed.

End JsonValues.

(* ===================================================================== *)
(** * The target-config codec                                             *)
(* ===================================================================== *)

Section TargetCodec.
Import RuleModal TargetSpec.

(** [editTargetConfig] on an existing entry never throws: it records the
    index and the type, runs the guarded decode and opens the dialog. *)
Lemma editTargetConfig_at i s t :
  targets (formModel s) !! i = Some t ->
  editTargetConfig i s =
  Eff.mk (Normal tt)
    (set_targetConfigVisible true
       (decoded t (set_targetConfigType (ForwardingTarget.target_type t)
                     (set_currentTargetIndex (Some i) s)))) [].
Proof.
  intros Ht. unfold editTargetConfig, Eff.bind, Eff.get, Eff.modify, Eff.try_catch.
  cbn [Eff.result Eff.final Eff.trace]. rewrite Ht.
  cbn -[parse http_fields mqtt_fields jsstring_eqb lit]. unfold decoded.
  destruct (parse (ForwardingTarget.config t)) as [config|];
    cbn -[parse http_fields mqtt_fields jsstring_eqb lit]; [|reflexivity].
  destruct (jsstring_eqb (ForwardingTarget.target_type t) (lit "http")).
  - unfold Eff.bind. cbn [Eff.result Eff.final Eff.trace].
    destruct (http_fields config); reflexivity.
  - unfold Eff.bind. cbn -[mqtt_fields].
    destruct (mqtt_fields config (mqttConfig s)); reflexivity.
Qed.

Lemma getTargetSummary_parse_error t :
  JSON_parse (ForwardingTarget.config t) = None ->
  getTargetSummary t = VStr (lit "-").
Proof.
  intros H. unfold getTargetSummary, summary_body, parse. rewrite H. reflexivity.
Qed.




(** What [editTargetConfig] does with a [config] that is not valid JSON:
    [getTargetSummary] is "-", and [editTargetConfig] ends normally,
    records the index and the target's type, opens the dialog and leaves
    both editor models exactly as they were. *)
Theorem editTargetConfig_invalid_json (s : State) (i : nat) (t : ForwardingTarget.t) :
  targets (formModel s) !! i = Some t ->
  JSON_parse (ForwardingTarget.config t) = None ->
  let r := editTargetConfig i s in
  getTargetSummary t = VStr (lit "-") /\
  Eff.result r = Normal tt /\
  httpConfig (Eff.final r) = httpConfig s /\
  mqttConfig (Eff.final r) = mqttConfig s /\
  currentTargetIndex (Eff.final r) = Some i /\
  targetConfigType (Eff.final r) = ForwardingTarget.target_type t /\
  targetConfigVisible (Eff.final r) = true /\
  formModel (Eff.final r) = formModel s.
Proof.
  intros Ht Hbad r. subst r. rewrite (editTargetConfig_at i s t Ht).
  cbn [Eff.result Eff.final]. unfold decoded, parse. rewrite Hbad.
  split; [by apply getTargetSummary_parse_error|].
  cbn. repeat split; auto.
Qed.

Lemma editTargetConfig_invalid_json_witness :
  getTargetSummary Samples.broken_target = VStr (lit "-") /\
  httpConfig (Eff.final (editTargetConfig 0 Samples.stale_state)) = Samples.stale_http.
Proof.
  destruct (editTargetConfig_invalid_json Samples.stale_state 0
              Samples.broken_target eq_refl eq_refl) as (H1 & _ & H2 & _).
  split; [exact H1 | exact H2].
Defined.

(** C2.  The code at an input where the claim fails.  A rule holds a
    target with a good configuration in front of one whose [config] is not
    valid JSON.  The first is opened, then the second: the summary of the
    second is "-" and the call ends normally, but the [catch] block is
    empty, so the http editor model still holds the url, method, secret
    and timeout of the first target and is not the default configuration;
    confirming the dialog then writes the first target's configuration
    over the second. *)
Theorem editTargetConfig_broken_keeps_previous :
  let opened := Eff.final (editTargetConfig 0 Samples.two_targets) in
  let r := editTargetConfig 1 opened in
  let saved := Eff.final (saveTargetConfig (Eff.final r)) in
  targets (formModel Samples.two_targets)
    = [Samples.old_target; Samples.broken_target] /\
  JSON_parse (ForwardingTarget.config Samples.broken_target) = None /\
  getTargetSummary Samples.broken_target = VStr (lit "-") /\
  httpConfig Samples.two_targets = httpConfig_init /\
  Eff.result r = Normal tt /\
  currentTargetIndex (Eff.final r) = Some 1%nat /\
  httpConfig (Eff.final r) = Samples.stale_http /\
  httpConfig (Eff.final r) <> httpConfig_init /\
  targets (formModel saved) = [Samples.old_target; Samples.old_target].
Proof. vm_compute. repeat split; discriminate. Qed.




(** ** Decoding what was encoded *)

Lemma all_from_spec P n :
  forall z0 z, all_from n z0 P = true ->
    (z0 <= z < z0 + Z.of_nat n)%Z -> P z = true.
Proof.
  induction n as [|n IH]; intros z0 z Hall Hz; [lia|].
  cbn [all_from] in Hall. apply andb_true_iff in Hall as [H0 Hrest].
  destruct (Z.eq_dec z z0) as [-> | Hne]; [exact H0|].
  apply (IH (z0 + 1)%Z); [exact Hrest | lia].
Qed.

(** Ports, timeouts and qos levels are written in plain decimal. *)
Lemma small_int_digits z :
  (0 <= z <= 65535)%Z -> (length (digits (Z.abs_N z)) <=? 21)%nat = true.
Proof.
  intros Hz.
  apply (all_from_spec (fun z => (length (digits (Z.abs_N z)) <=? 21)%nat)
           (Z.to_nat 65536) 0%Z z); [vm_compute; reflexivity | lia].
Qed.

Lemma lookup_key_filter_absent k m :
  k ∉ map fst m -> lookup_key k (List.filter defined m) = None.
Proof.
  induction m as [|[k' v] m IH]; intros Hk; [reflexivity|].
  assert (k <> k') by (intros ->; apply Hk; cbn; by left).
  assert (k ∉ map fst m) by (intros Hin; apply Hk; cbn; by right).
  cbn [List.filter]. destruct (defined (k', v)); [|by apply IH].
  cbn [lookup_key]. unfold jsstring_eqb.
  rewrite bool_decide_eq_false_2 by assumption. by apply IH.
Qed.

Lemma lookup_key_filter k m :
  NoDup (map fst m) ->
  default VUndefined (lookup_key k (List.filter defined m)) =
  default VUndefined (lookup_key k m).
Proof.
  induction m as [|[k' v] m IH]; intros Hnd; [reflexivity|].
  cbn [map fst] in Hnd. apply NoDup_cons in Hnd as [Hk' Hnd].
  cbn [List.filter lookup_key]. unfold jsstring_eqb.
  destruct (decide (k = k')) as [-> | Hne].
  - rewrite bool_decide_eq_true_2 by reflexivity.
    destruct v; cbn [defined snd lookup_key]; unfold jsstring_eqb;
      rewrite ?bool_decide_eq_true_2 by reflexivity; try reflexivity.
    by rewrite lookup_key_filter_absent.
  - rewrite bool_decide_eq_false_2 by assumption.
    destruct (defined (k', v)); [|by apply IH].
    cbn [lookup_key]. unfold jsstring_eqb.
    rewrite bool_decide_eq_false_2 by assumption. by apply IH.
Qed.

Lemma NoDup_filter_keys m :
  NoDup (map fst m) -> NoDup (map fst (List.filter defined m)).
Proof.
  induction m as [|[k v] m IH]; intros Hnd; [constructor|].
  cbn [map fst] in Hnd. apply NoDup_cons in Hnd as [Hk Hnd].
  cbn [List.filter]. destruct (defined (k, v)); [|by apply IH].
  cbn [map fst]. apply NoDup_cons. split; [|by apply IH].
  intros Hin. apply Hk. apply list_elem_of_In in Hin. apply list_elem_of_In.
  apply in_map_iff in Hin as (x & E & Hx). apply in_map_iff.
  exists x. split; [exact E|]. apply filter_In in Hx. tauto.
Qed.

(** Leaving members out keeps the others in order. *)
Lemma ordered_filter_keys m :
  ordered (map fst m) = true -> ordered (map fst (List.filter defined m)) = true.
Proof.
  induction m as [|[k v] m IH]; intros Ho; [reflexivity|].
  cbn [map fst ordered] in Ho. apply andb_true_iff in Ho as [H1 H2].
  cbn [List.filter]. destruct (defined (k, v)); [|by apply IH].
  cbn [map fst ordered]. apply andb_true_iff. split; [|by apply IH].
  apply forallb_forall. intros k' Hin. rewrite forallb_forall in H1. apply H1.
  apply in_map_iff in Hin as (x & E & Hx). apply in_map_iff.
  exists x. split; [exact E|]. apply filter_In in Hx. tauto.
Qed.

Lemma wf_json_filtered m :
  NoDup (map fst m) -> ordered (map fst m) = true ->
  Forall (fun kv => snd kv = VUndefined \/ wf_json (snd kv) = true) m ->
  wf_json (VObj (List.filter defined m)) = true.
Proof.
  intros Hnd Ho Hall. cbn [wf_json]. rewrite !andb_true_iff. repeat split.
  - apply bool_decide_eq_true_2. by apply NoDup_filter_keys.
  - by apply ordered_filter_keys.
  - apply forallb_forall. intros [k v] Hin. apply filter_In in Hin as [Hin Hd].
    rewrite Forall_forall in Hall. apply list_elem_of_In in Hin.
    destruct (Hall _ Hin) as [E | E]; [|exact E].
    cbn [snd] in *. subst v. discriminate.
Qed.

(** An object with [undefined] members reads back without them. *)
Lemma JSON_parse_object m :
  NoDup (map fst m) -> ordered (map fst m) = true ->
  Forall (fun kv => snd kv = VUndefined \/ wf_json (snd kv) = true) m ->
  JSON_parse (serialize (VObj m)) = Some (VObj (List.filter defined m)).
Proof.
  intros Hnd Ho Hall.
  rewrite serialize_object, member_texts_defined, <- serialize_object.
  apply JSON_parse_serialize. by apply wf_json_filtered.
Qed.

Lemma required_string_wf v :
  required_string v = true -> wf_json v = true /\ or_else v (VStr []) = v.
Proof. by destruct v as [ | | | |[|c s]| | ]. Qed.

Lemma optional_string_wf v :
  optional_string v = true ->
  (v = VUndefined \/ wf_json v = true) /\ kept v (or_else v (VStr [])).
Proof.
  destruct v as [ | | | |[|c s]| | ]; intros H; try discriminate;
    (split; [auto | by intros ?]).
Qed.

Lemma optional_method_wf v :
  optional_method v = true ->
  (v = VUndefined \/ wf_json v = true) /\ kept v (or_else v (VStr (lit "POST"))).
Proof.
  destruct v as [ | | | |s| | ]; intros H; try discriminate;
    (split; [auto | intros ?; try done]).
  cbn [optional_method] in H. apply bool_decide_eq_true_1 in H.
  destruct s; [|reflexivity]. exfalso.
  repeat (apply elem_of_cons in H as [H | H]; [discriminate|]).
  by apply elem_of_nil in H.
Qed.

Lemma optional_headers_wf v :
  optional_headers v = true ->
  (v = VUndefined \/ wf_json v = true) /\ kept v (or_else v (VObj [])).
Proof.
  destruct v as [ | | | | | |m]; intros H; try discriminate;
    (split; [auto | intros ?; try done]).
  right. cbn [optional_headers wf_json] in *.
  apply andb_true_iff in H as [H1 H2]. rewrite H1. cbn [andb].
  apply forallb_forall. intros [k x] Hin.
  rewrite forallb_forall in H2. specialize (H2 _ Hin). cbn [snd] in *.
  by destruct x.
Qed.

Lemma optional_int_wf lo hi d v :
  (0 <= lo)%Z -> (hi <= 65535)%Z -> optional_int lo hi v = true ->
  (v = VUndefined \/ wf_json v = true) /\
  ((0 < lo)%Z -> kept v (or_else v d)) /\ kept v (nullish v d).
Proof.
  intros Hlo Hhi. destruct v as [ | | |[z|]| | | ]; intros H; try discriminate;
    (split; [auto | split; intros ?; try done]).
  - by intros ?.
  - right. cbn [optional_int wf_json wf_number] in *.
    apply andb_true_iff in H as [H1 H2].
    apply Z.leb_le in H1, H2. apply small_int_digits. lia.
  - cbn [optional_int] in H. apply andb_true_iff in H as [H1 H2].
    apply Z.leb_le in H1. intros _. unfold or_else. cbn [truthy].
    destruct (Z.eqb_spec z 0); [lia | reflexivity].
Qed.

(** A plain decimal is far from the smallest double. *)
Lemma plain_decimal_truthy most m e :
  plain_decimal most m e = true -> (most <= 21)%nat ->
  truthy (VNum (NDec m e)) = true.
Proof.
  unfold plain_decimal. intros H Hmost.
  repeat (apply andb_true_iff in H as [H ?]).
  cbn [truthy]. unfold underflows.
  replace (323 <? Z.pos e)%Z with false; [reflexivity|].
  symmetry. apply Z.ltb_ge.
  match goal with Hk : (_ <=? most)%nat = true |- _ => apply Nat.leb_le in Hk end.
  match goal with Hd : (-6 <? _)%Z = true |- _ => apply Z.ltb_lt in Hd end.
  lia.
Qed.

Lemma optional_number_wf lo hi d v :
  (0 < lo)%Z -> (hi <= 65535)%Z -> optional_number lo hi v = true ->
  (v = VUndefined \/ wf_json v = true) /\ kept v (or_else v d).
Proof.
  intros Hlo Hhi. destruct v as [ | | |[z|m e]| | | ]; intros H; try discriminate.
  - split; [auto | by intros ?].
  - cbn [optional_number] in H. apply andb_true_iff in H as [H1 H2].
    apply Z.leb_le in H1, H2. split.
    + right. cbn [wf_json wf_number]. apply small_int_digits. lia.
    + intros _. unfold or_else. cbn [truthy].
      destruct (Z.eqb_spec z 0); [lia | reflexivity].
  - cbn [optional_number] in H. apply andb_true_iff in H as [H1 H2]. split.
    + right. exact H1.
    + intros _. unfold or_else.
      by rewrite (plain_decimal_truthy 17 m e H1) by lia.
Qed.

Lemma saveTargetConfig_at i s t :
  currentTargetIndex s = Some i ->
  targets (formModel s) !! i = Some t ->
  saveTargetConfig s =
  Eff.mk (Normal tt)
    (set_currentTargetIndex None
       (set_targetConfigVisible false
          (set_formModel
             (set_targets
                (<[i := ForwardingTarget.mk (ForwardingTarget.id t)
                          (ForwardingTarget.rule_id t) (targetConfigType s)
                          (if jsstring_eqb (targetConfigType s) (lit "http")
                           then serialize (http_object (httpConfig s))
                           else serialize (mqtt_object (mqttConfig s)))]>
                   (targets (formModel s)))
                (formModel s)) s))) [].
Proof.
  intros Hi Ht. unfold saveTargetConfig, Eff.bind, Eff.get.
  cbn [Eff.result Eff.final Eff.trace]. rewrite Hi.
  cbn -[serialize jsstring_eqb lit]. rewrite Ht. reflexivity.
Qed.

Lemma http_round_trip c :
  valid_http c = true ->
  exists config c',
    JSON_parse (serialize (http_object c)) = Some config /\
    http_fields config = Normal c' /\ http_kept c c'.
Proof.
  intros Hv. unfold valid_http in Hv.
  repeat (apply andb_true_iff in Hv as [Hv ?]).
  destruct (required_string_wf _ Hv) as [Wu Ku].
  destruct (optional_method_wf _ ltac:(eassumption)) as [Wm Km].
  destruct (optional_headers_wf _ ltac:(eassumption)) as [Wh Kh].
  destruct (optional_string_wf (secret c) ltac:(eassumption)) as [Ws Ks].
  destruct (optional_number_wf 1 120 (VNum (NInt 30)) (timeout c)
              ltac:(lia) ltac:(lia) ltac:(eassumption)) as (Wt & Kt).
  assert (Hnd : NoDup (map fst
    [(lit "url", url c); (lit "method", method c); (lit "headers", headers c);
     (lit "secret", secret c); (lit "timeout", timeout c)])).
  { cbn [map fst]. refine (bool_decide_unpack _ _). vm_compute. exact I. }
  eexists _, _. split; [|split].
  - unfold http_object. apply JSON_parse_object; [exact Hnd | by vm_compute |].
    repeat (apply Forall_cons; split; [cbn [snd]; auto|]). by apply Forall_nil.
  - unfold http_fields, Get. cbn [JS.bind].
    rewrite !lookup_key_filter by exact Hnd. reflexivity.
  - repeat split; cbn [url method headers secret timeout default];
      [intros _; exact Ku | exact Km | exact Kh | exact Ks | exact Kt].
Qed.

(** The mqtt decode reads seven properties: the [version] of the model it
    writes to stays what it was. *)
Lemma mqtt_round_trip c :
  valid_mqtt c = true ->
  exists config,
    JSON_parse (serialize (mqtt_object c)) = Some config /\
    forall old, exists c',
      mqtt_fields config old = Normal c' /\ mqtt_kept c c' /\
      version c' = version old.
Proof.
  intros Hv. unfold valid_mqtt in Hv.
  repeat (apply andb_true_iff in Hv as [Hv ?]).
  destruct (required_string_wf _ Hv) as [Wb Kb].
  destruct (required_string_wf (topic c) ltac:(eassumption)) as [Wt Kt].
  destruct (optional_number_wf 1 65535 (VNum (NInt 1883)) (port c)
              ltac:(lia) ltac:(lia) ltac:(eassumption)) as (Wp & Kp).
  destruct (optional_string_wf (username c) ltac:(eassumption)) as [Wu Ku].
  destruct (optional_string_wf (password c) ltac:(eassumption)) as [Ww Kw].
  destruct (optional_string_wf (client_id c) ltac:(eassumption)) as [Wc Kc].
  destruct (optional_string_wf (version c) ltac:(eassumption)) as [Wv _].
  destruct (optional_int_wf 0 2 (VNum (NInt 1)) (qos c)
              ltac:(lia) ltac:(lia) ltac:(eassumption)) as (Wq & _ & Kq).
  assert (Hnd : NoDup (map fst
    [(lit "broker", broker c); (lit "port", port c); (lit "topic", topic c);
     (lit "username", username c); (lit "password", password c);
     (lit "client_id", client_id c); (lit "qos", qos c);
     (lit "version", version c)])).
  { cbn [map fst]. refine (bool_decide_unpack _ _). vm_compute. exact I. }
  eexists. split.
  - unfold mqtt_object. apply JSON_parse_object; [exact Hnd | by vm_compute |].
    repeat (apply Forall_cons; split; [cbn [snd]; auto|]). by apply Forall_nil.
  - intros old. eexists. split; [|split].
    + unfold mqtt_fields, Get. cbn [JS.bind].
      rewrite !lookup_key_filter by exact Hnd. reflexivity.
    + repeat split;
        cbn [broker port topic username password client_id qos default];
        [intros _; exact Kb | exact Kp | intros _; exact Kt
         | exact Ku | exact Kw | exact Kc | exact Kq].
    + reflexivity.
Qed.

Lemma http_kept_present c c' : http_kept c c' -> http_present c -> c' = c.
Proof.
  intros (K1 & K2 & K3 & K4 & K5) (P1 & P2 & P3 & P4 & P5).
  destruct c, c'. cbn in *. f_equal; auto.
Qed.

Lemma mqtt_kept_present c c' :
  mqtt_kept c c' -> mqtt_present c -> c' = with_version (version c') c.
Proof.
  intros (K1 & K2 & K3 & K4 & K5 & K6 & K7) (P1 & P2 & P3 & P4 & P5 & P6 & P7).
  destruct c, c'. unfold with_version. cbn in *. f_equal; auto.
Qed.

(** Saving the target dialog and opening the same entry again gives back
    every field of the editor model that was present, [version] apart.
    For a valid HTTPTargetConfig under type "http", and for a valid
    MQTTTargetConfig under type "mqtt": [saveTargetConfig] writes the
    encoding to the entry at the recorded index, and whatever the editor
    models hold afterwards, [editTargetConfig] on that index ends normally
    with each present field at its original value; when no field is absent
    the editor model is the original one.  The [version] of an mqtt model
    is written and not read: afterwards it is what the editor held before
    the entry was opened. *)
Theorem target_config_round_trip (s s2 : State) (i : nat) (t : ForwardingTarget.t) :
  currentTargetIndex s = Some i ->
  targets (formModel s) !! i = Some t ->
  formModel s2 = formModel (Eff.final (saveTargetConfig s)) ->
  (targetConfigType s = lit "http" -> valid_http (httpConfig s) = true ->
     Eff.result (saveTargetConfig s) = Normal tt /\
     Eff.result (editTargetConfig i s2) = Normal tt /\
     http_kept (httpConfig s) (httpConfig (Eff.final (editTargetConfig i s2))) /\
     (http_present (httpConfig s) ->
      httpConfig (Eff.final (editTargetConfig i s2)) = httpConfig s)) /\
  (targetConfigType s = lit "mqtt" -> valid_mqtt (mqttConfig s) = true ->
     Eff.result (saveTargetConfig s) = Normal tt /\
     Eff.result (editTargetConfig i s2) = Normal tt /\
     mqtt_kept (mqttConfig s) (mqttConfig (Eff.final (editTargetConfig i s2))) /\
     version (mqttConfig (Eff.final (editTargetConfig i s2)))
       = version (mqttConfig s2) /\
     (mqtt_present (mqttConfig s) ->
      mqttConfig (Eff.final (editTargetConfig i s2))
        = with_version (version (mqttConfig s2)) (mqttConfig s))).
Proof.
  intros Hi Ht Hform. rewrite (saveTargetConfig_at i s t Hi Ht) in *.
  cbn [Eff.result Eff.final] in *.
  assert (Hlt : (i < length (targets (formModel s)))%nat)
    by (eapply lookup_lt_Some; eassumption).
  match type of Hform with
  | _ = formModel (set_currentTargetIndex _ (set_targetConfigVisible _
          (set_formModel (set_targets (<[_ := ?t']> _) _) _))) =>
      assert (Ht2 : targets (formModel s2) !! i = Some t')
        by (rewrite Hform; cbn [formModel set_currentTargetIndex
              set_targetConfigVisible set_formModel set_targets targets];
            by apply list_lookup_insert_eq)
  end.
  rewrite (editTargetConfig_at i s2 _ Ht2). cbn [Eff.result Eff.final].
  unfold decoded, parse.
  cbn [ForwardingTarget.config ForwardingTarget.target_type].
  split; intros Htype Hvalid; rewrite Htype.
  - destruct (http_round_trip _ Hvalid) as (config & c' & Hp & Hf & Hk).
    change (jsstring_eqb (lit "http") (lit "http")) with true. cbv iota.
    rewrite Hp, Hf. split; [reflexivity|]. split; [reflexivity|].
    split; [exact Hk | by apply http_kept_present].
  - destruct (mqtt_round_trip _ Hvalid) as (config & Hp & Hf).
    change (jsstring_eqb (lit "mqtt") (lit "http")) with false. cbv iota.
    rewrite Hp.
    destruct (Hf (mqttConfig (set_targetConfigType (lit "mqtt")
                                (set_currentTargetIndex (Some i) s2))))
      as (c' & Hc & Hk & Hv).
    rewrite Hc. split; [reflexivity|]. split; [reflexivity|].
    split; [exact Hk|]. split; [exact Hv|].
    intros Hpr. cbn [mqttConfig set_targetConfigVisible set_mqttConfig].
    rewrite (mqtt_kept_present _ _ Hk Hpr). by rewrite Hv.
Qed.

Lemma target_config_round_trip_witness :
  httpConfig (Eff.final (editTargetConfig 0
     (set_httpConfig Samples.stale_http
        (Eff.final (saveTargetConfig
           (Samples.editing (lit "http") Samples.http_sample mqttConfig_init))))))
  = Samples.http_sample /\
  timeout (httpConfig (Eff.final (editTargetConfig 0
     (Eff.final (saveTargetConfig
        (Samples.editing (lit "http") Samples.fractional_http mqttConfig_init))))))
  = VNum (NDec 305 1) /\
  mqttConfig (Eff.final (editTargetConfig 0
     (set_mqttConfig mqttConfig_init
        (Eff.final (saveTargetConfig
           (Samples.editing (lit "mqtt") httpConfig_init Samples.mqtt_sample))))))
  = Samples.mqtt_sample.
Proof.
  pose proof (proj1 (target_config_round_trip
                (Samples.editing (lit "http") Samples.http_sample mqttConfig_init)
                (set_httpConfig Samples.stale_http
                   (Eff.final (saveTargetConfig
                      (Samples.editing (lit "http") Samples.http_sample
                         mqttConfig_init))))
                0 Samples.broken_target eq_refl eq_refl eq_refl)
                eq_refl eq_refl) as (_ & _ & _ & H1).
  pose proof (proj1 (target_config_round_trip
                (Samples.editing (lit "http") Samples.fractional_http mqttConfig_init)
                (Eff.final (saveTargetConfig
                   (Samples.editing (lit "http") Samples.fractional_http
                      mqttConfig_init)))
                0 Samples.broken_target eq_refl eq_refl eq_refl)
                eq_refl eq_refl) as (_ & _ & (_ & _ & _ & _ & H2) & _).
  pose proof (proj2 (target_config_round_trip
                (Samples.editing (lit "mqtt") httpConfig_init Samples.mqtt_sample)
                (set_mqttConfig mqttConfig_init
                   (Eff.final (saveTargetConfig
                      (Samples.editing (lit "mqtt") httpConfig_init
                         Samples.mqtt_sample))))
                0 Samples.broken_target eq_refl eq_refl eq_refl)
                eq_refl eq_refl) as (_ & _ & _ & _ & H3).
  split; [|split].
  - apply H1. repeat split; discriminate.
  - apply H2. discriminate.
  - apply H3. repeat split; discriminate.
Defined.

(** C1.  The code at an input where the claim fails.  A target stores the
    encoding of a valid MQTTTargetConfig that names its [version]; the
    text holds the version.  Opening the target ends normally and gives
    back broker, port, topic and qos, but not the version, which the
    decode does not read; confirming the dialog then writes a
    configuration without it. *)
Theorem target_config_version_dropped :
  let c := Samples.versioned_mqtt in
  let r := editTargetConfig 0 Samples.versioned_rule in
  let saved := Eff.final (saveTargetConfig (Eff.final r)) in
  valid_mqtt c = true /\
  version c = VStr (lit "5") /\
  targets (formModel Samples.versioned_rule)
    = [ForwardingTarget.mk None None (lit "mqtt") (serialize (mqtt_object c))] /\
  (exists config,
     JSON_parse (serialize (mqtt_object c)) = Some config /\
     Get config (lit "version") = Normal (VStr (lit "5"))) /\
  Eff.result r = Normal tt /\
  broker (mqttConfig (Eff.final r)) = broker c /\
  port (mqttConfig (Eff.final r)) = port c /\
  topic (mqttConfig (Eff.final r)) = topic c /\
  qos (mqttConfig (Eff.final r)) = qos c /\
  version (mqttConfig (Eff.final r)) = VUndefined /\
  version (mqttConfig (Eff.final r)) <> version c /\
  (exists t config,
     targets (formModel saved) = [t] /\
     JSON_parse (ForwardingTarget.config t) = Some config /\
     Get config (lit "version") = Normal VUndefined).
Proof.
  cbv zeta. repeat match goal with |- _ /\ _ => split end.
  all: try match goal with |- _ = _ => vm_compute; reflexivity end.
  - eexists. split.
    + vm_compute. reflexivity.
    + vm_compute. reflexivity.
  - vm_compute. discriminate.
  - eexists _, _. split; [|split].
    + vm_compute. reflexivity.
    + vm_compute. reflexivity.
    + vm_compute. reflexivity.
Qed.
End TargetCodec.

(* ===================================================================== *)
(** * The rule editor: targets and their dialog                           *)
(* ===================================================================== *)

Section TargetList.
Import RuleModal TargetSpec.

Lemma set_formModel_id s : set_formModel (formModel s) s = s.
Proof. by destruct s. Qed.

Lemma set_targets_id f : set_targets (targets f) f = f.
Proof. by destruct f. Qed.

Lemma set_sources_id f : set_sources (sources f) f = f.
Proof. by destruct f. Qed.

Lemma delete_last {A} (l : list A) (x : A) : delete (length l) (l ++ [x]) = l.
Proof. by rewrite delete_middle, app_nil_r. Qed.

Lemma delete_beyond {A} (l : list A) (i : nat) : (length l <= i)%nat -> delete i l = l.
Proof.
  intros H. rewrite delete_take_drop, take_ge, drop_ge by lia. apply app_nil_r.
Qed.

(** X1.  The entry [addTarget] appends opens on the defaults: whatever the
    editor models held, [editTargetConfig] on the new index ends normally
    with the http model at its initial values, the dialog open on type
    "http" at that index, and the mqtt model untouched. *)
Theorem addTarget_opens_with_defaults (s : State) :
  let i := length (targets (formModel s)) in
  let r := editTargetConfig i (addTarget s) in
  Eff.result r = Normal tt /\ Eff.trace r = [] /\
  httpConfig (Eff.final r) = httpConfig_init /\
  mqttConfig (Eff.final r) = mqttConfig s /\
  targetConfigType (Eff.final r) = lit "http" /\
  currentTargetIndex (Eff.final r) = Some i /\
  targetConfigVisible (Eff.final r) = true /\
  targets (formModel (Eff.final r)) = targets (formModel (addTarget s)).
Proof.
  intros i r. subst r.
  erewrite editTargetConfig_at.
  2:{ cbn [addTarget formModel set_formModel targets set_targets].
      by apply list_lookup_middle. }
  cbn [Eff.result Eff.final Eff.trace]. unfold decoded.
  cbn [ForwardingTarget.config ForwardingTarget.target_type].
  change (jsstring_eqb (lit "http") (lit "http")) with true.
  match goal with
  | |- context [parse ?t] =>
      let v := eval vm_compute in (parse t) in
      change (parse t) with v
  end.
  cbv iota.
  match goal with
  | |- context [http_fields ?c] =>
      let v := eval vm_compute in (http_fields c) in
      change (http_fields c) with v
  end.
  cbv iota. repeat split.
Qed.

(** X2.  Removing the entry just added undoes the addition, for targets and
    for sources: the component is in the state it was in. *)
Theorem remove_after_add (s : State) :
  removeTarget (length (targets (formModel s))) (addTarget s) = s /\
  removeSource (length (sources (formModel s))) (addSource s) = s.
Proof.
  split.
  - unfold removeTarget, addTarget.
    cbn [formModel set_formModel targets set_targets].
    rewrite delete_last. destruct s as [? ? ? ? ? ? ? f ? ? ? ? ?].
    destruct f. reflexivity.
  - unfold removeSource, addSource.
    cbn [formModel set_formModel sources set_sources].
    rewrite delete_last. destruct s as [? ? ? ? ? ? ? f ? ? ? ? ?].
    destruct f. reflexivity.
Qed.

(** X3.  [removeTarget(index)] removes exactly the entry at [index]: the
    entries before it stay, the later ones move up by one, the list is one
    shorter; an index past the end changes nothing.  Sources and the other
    fields of the form are never touched. *)
Theorem removeTarget_bounds (index : nat) (s : State) :
  let l := targets (formModel s) in
  let f' := formModel (removeTarget index s) in
  ((length l <= index)%nat -> removeTarget index s = s) /\
  ((index < length l)%nat ->
     length (targets f') = (length l - 1)%nat /\
     (forall j, (j < index)%nat -> targets f' !! j = l !! j) /\
     (forall j, (index <= j)%nat -> targets f' !! j = l !! S j)) /\
  sources f' = sources (formModel s) /\ name f' = name (formModel s) /\
  description f' = description (formModel s) /\
  script_id f' = script_id (formModel s) /\ remark f' = remark (formModel s).
Proof.
  intros l f'. subst l f'. unfold removeTarget.
  cbn [formModel set_formModel targets set_targets sources name description
       script_id remark].
  split; [|split; [|by repeat split]].
  - intros H. rewrite delete_beyond by assumption.
    by rewrite set_targets_id, set_formModel_id.
  - intros H. split; [|split].
    + rewrite length_delete; [reflexivity|]. by apply lookup_lt_is_Some_2.
    + intros j Hj. by apply list_lookup_delete_lt.
    + intros j Hj. by apply list_lookup_delete_ge.
Qed.

Lemma removeTarget_bounds_witness :
  targets (formModel (removeTarget 0 Samples.stale_state)) !! 0%nat = None /\
  removeTarget 3 Samples.stale_state = Samples.stale_state.
Proof.
  destruct (removeTarget_bounds 0 Samples.stale_state) as (_ & H & _).
  destruct (removeTarget_bounds 3 Samples.stale_state) as (H3 & _).
  split.
  - destruct (H ltac:(simpl; lia)) as (_ & _ & Hge). rewrite (Hge 0%nat) by lia.
    reflexivity.
  - apply H3. simpl. lia.
Defined.

(** X4.  [editTargetConfig] on an index that has no entry throws: by then
    the index is recorded, and nothing else has changed (the dialog stays
    closed, both editor models and the form are as before).  A
    [saveTargetConfig] after that throws as well and changes nothing. *)
Theorem editTargetConfig_missing_entry (index : nat) (s : State) :
  targets (formModel s) !! index = None ->
  let r := editTargetConfig index s in
  Eff.result r = Throw /\ Eff.trace r = [] /\
  Eff.final r = set_currentTargetIndex (Some index) s /\
  Eff.result (saveTargetConfig (Eff.final r)) = Throw /\
  Eff.final (saveTargetConfig (Eff.final r)) = Eff.final r.
Proof.
  intros Hnone.
  assert (E : editTargetConfig index s =
              Eff.mk Throw (set_currentTargetIndex (Some index) s) []).
  { unfold editTargetConfig, Eff.bind, Eff.get, Eff.modify.
    cbn [Eff.result Eff.final Eff.trace]. rewrite Hnone. reflexivity. }
  cbv zeta. rewrite E. cbn [Eff.result Eff.final Eff.trace].
  repeat split.
  - unfold saveTargetConfig, Eff.bind, Eff.get.
    cbn -[serialize jsstring_eqb lit]. rewrite Hnone. reflexivity.
  - unfold saveTargetConfig, Eff.bind, Eff.get.
    cbn -[serialize jsstring_eqb lit]. rewrite Hnone. reflexivity.
Qed.

Lemma editTargetConfig_missing_entry_witness :
  Eff.result (editTargetConfig 5 Samples.stale_state) = Throw /\
  Eff.final (editTargetConfig 5 Samples.stale_state)
    = set_currentTargetIndex (Some 5%nat) Samples.stale_state.
Proof.
  destruct (editTargetConfig_missing_entry 5 Samples.stale_state eq_refl)
    as (H1 & _ & H2 & _).
  split; [exact H1 | exact H2].
Defined.



(** X6.  A config that is valid JSON but not a configuration: for an http
    entry whose [config] parses to a value that has none of the five fields
    (an empty object, a number, a string, a boolean, an array), opening it
    puts the http model at the defaults; when it parses to [null] the
    property reads throw inside the guarded block and the model is left as
    it was.  The dialog opens in both cases. *)
Theorem editTargetConfig_foreign_shape (s : State) (i : nat)
  (t : ForwardingTarget.t) (v : value) :
  targets (formModel s) !! i = Some t ->
  ForwardingTarget.target_type t = lit "http" ->
  JSON_parse (ForwardingTarget.config t) = Some v ->
  let r := editTargetConfig i s in
  Eff.result r = Normal tt /\ targetConfigVisible (Eff.final r) = true /\
  mqttConfig (Eff.final r) = mqttConfig s /\
  (v = VNull -> httpConfig (Eff.final r) = httpConfig s) /\
  (Forall (fun k => Get v (lit k) = Normal VUndefined)
          ["url"; "method"; "headers"; "secret"; "timeout"]%string ->
     httpConfig (Eff.final r) = httpConfig_init) /\
  (match v with
   | VBool _ | VNum _ | VStr _ | VArr _ | VObj [] => True
   | _ => False
   end -> httpConfig (Eff.final r) = httpConfig_init).
Proof.
  intros Ht Htype Hparse r. subst r. rewrite (editTargetConfig_at i s t Ht).
  cbn [Eff.result Eff.final]. unfold decoded, parse. rewrite Htype, Hparse.
  change (jsstring_eqb (lit "http") (lit "http")) with true. cbv iota.
  assert (Hkeys : Forall (fun k => Get v (lit k) = Normal VUndefined)
            ["url"; "method"; "headers"; "secret"; "timeout"]%string ->
          http_fields v = Normal httpConfig_init).
  { intros H. repeat (apply Forall_cons in H as [? H]).
    unfold http_fields.
    repeat match goal with E : Get v _ = _ |- _ => rewrite E; clear E end.
    reflexivity. }
  split; [reflexivity|]. split; [by destruct (http_fields v)|].
  split; [by destruct (http_fields v)|]. split; [|split].
  - intros ->. reflexivity.
  - intros H. by rewrite (Hkeys H).
  - intros H. rewrite Hkeys; [reflexivity|].
    destruct v as [ | | | | | |[|]]; try contradiction;
      repeat (apply Forall_cons; split; [reflexivity|]); apply Forall_nil; exact I.
Qed.

Lemma editTargetConfig_foreign_shape_witness :
  httpConfig (Eff.final (editTargetConfig 0 MoreSamples.numeric_config_state))
  = httpConfig_init.
Proof.
  apply (editTargetConfig_foreign_shape MoreSamples.numeric_config_state 0 _
           (VNum (NInt 42)) eq_refl eq_refl eq_refl).
  exact I.
Defined.

(** X7.  Stored falsy values.  For an entry of another type than "http"
    whose [config] parses to an object: a stored [qos] that is neither
    [null] nor absent is taken as it is, so 0 stays 0, and an absent or
    [null] one becomes 1; a stored [port] that is falsy (0, a number too
    small to be a double other than 0, the empty string, [null], [false])
    is replaced by 1883, a truthy one is kept.  Where a stored value is
    taken as it is, it is one the model holds exactly. *)
Theorem editTargetConfig_falsy_values (s : State) (i : nat)
  (t : ForwardingTarget.t) (m : list (jsstring * value)) :
  targets (formModel s) !! i = Some t ->
  ForwardingTarget.target_type t <> lit "http" ->
  JSON_parse (ForwardingTarget.config t) = Some (VObj m) ->
  let c := mqttConfig (Eff.final (editTargetConfig i s)) in
  let stored k := default VUndefined (lookup_key (lit k) m) in
  (stored "qos"%string <> VUndefined -> stored "qos"%string <> VNull ->
     exact (stored "qos"%string) = true ->
     qos c = stored "qos"%string) /\
  (stored "qos"%string = VNum (NInt 0) -> qos c = VNum (NInt 0)) /\
  (stored "qos"%string = VUndefined \/ stored "qos"%string = VNull ->
     qos c = VNum (NInt 1)) /\
  (truthy (stored "port"%string) = false -> port c = VNum (NInt 1883)) /\
  (truthy (stored "port"%string) = true ->
     exact (stored "port"%string) = true ->
     port c = stored "port"%string).
Proof.
  intros Ht Htype Hparse c stored. subst c.
  rewrite (editTargetConfig_at i s t Ht). cbn [Eff.result Eff.final].
  unfold decoded, parse. rewrite Hparse. unfold jsstring_eqb.
  rewrite bool_decide_eq_false_2 by assumption.
  unfold mqtt_fields, Get. cbn [JS.bind].
  cbn [mqttConfig set_targetConfigVisible set_mqttConfig qos port].
  fold (stored "qos"%string). fold (stored "port"%string).
  repeat split.
  - intros H1 H2 _. by destruct (stored "qos"%string).
  - intros ->. reflexivity.
  - intros [-> | ->]; reflexivity.
  - intros H. unfold or_else. by rewrite H.
  - intros H _. unfold or_else. by rewrite H.
Qed.

Lemma editTargetConfig_falsy_values_witness :
  qos (mqttConfig (Eff.final (editTargetConfig 0 MoreSamples.qos0_state)))
    = VNum (NInt 0) /\
  port (mqttConfig (Eff.final (editTargetConfig 0 MoreSamples.qos0_state)))
    = VNum (NInt 1883) /\
  port (mqttConfig (Eff.final (editTargetConfig 0 MoreSamples.tiny_port_state)))
    = VNum (NInt 1883) /\
  port (mqttConfig (Eff.final (editTargetConfig 0 MoreSamples.port_state)))
    = VNum (NInt 8883) /\
  qos (mqttConfig (Eff.final (editTargetConfig 0 MoreSamples.port_state)))
    = VNum (NInt 2).
Proof.
  destruct (editTargetConfig_falsy_values MoreSamples.qos0_state 0 _
              [(lit "broker", VStr (lit "b")); (lit "port", VNum (NInt 0));
               (lit "qos", VNum (NInt 0))]
              eq_refl ltac:(discriminate) eq_refl) as (_ & H1 & _ & H2 & _).
  destruct (editTargetConfig_falsy_values MoreSamples.tiny_port_state 0 _
              [(lit "broker", VStr (lit "b")); (lit "port", VNum (NInt 0))]
              eq_refl ltac:(discriminate) eq_refl) as (_ & _ & _ & H3 & _).
  destruct (editTargetConfig_falsy_values MoreSamples.port_state 0 _
              [(lit "broker", VStr (lit "b")); (lit "port", VNum (NInt 8883));
               (lit "qos", VNum (NInt 2))]
              eq_refl ltac:(discriminate) eq_refl) as (H4 & _ & _ & _ & H5).
  split; [by apply H1|]. split; [by apply H2|]. split; [by apply H3|].
  split; [by apply H5 | by apply H4].
Defined.

End TargetList.

(* ===================================================================== *)
(** * The rule editor: option lists, loading, submitting                  *)
(* ===================================================================== *)

Section EffSteps.
Context {S : Type}.

Lemma run_eta {A} (r : Eff.run S A) :
  Eff.mk (Eff.result r) (Eff.final r) (Eff.trace r) = r.
Proof. by destruct r. Qed.

Lemma bind_get {B} (k : S -> Eff.M S B) (s : S) : Eff.bind Eff.get k s = k s s.
Proof. unfold Eff.bind, Eff.get. cbn. apply run_eta. Qed.

Lemma bind_modify {B} (f : S -> S) (k : unit -> Eff.M S B) (s : S) :
  Eff.bind (Eff.modify f) k s = k tt (f s).
Proof. unfold Eff.bind, Eff.modify. cbn. apply run_eta. Qed.

Lemma bind_ret {A B} (a : A) (k : A -> Eff.M S B) (s : S) :
  Eff.bind (Eff.ret a) k s = k a s.
Proof. unfold Eff.bind, Eff.ret. cbn. apply run_eta. Qed.

Lemma bind_log {B} (e : Event) (k : unit -> Eff.M S B) (s : S) :
  Eff.bind (Eff.log e) k s = Ran.after [e] (k tt s).
Proof. reflexivity. Qed.

Lemma bind_emit {B} (e : string) (k : unit -> Eff.M S B) (s : S) :
  Eff.bind (emit e) k s = Ran.after [Emit e] (k tt s).
Proof. reflexivity. Qed.

Lemma bind_start {T B} (srv : Backend) (c : ApiCall T)
  (k : settled (Response.t T) -> Eff.M S B) (s : S) :
  Eff.bind (Eff.start srv c) k s = Ran.after [Request c] (k (srv T c) s).
Proof. reflexivity. Qed.

Lemma bind_await {A B} (p : settled A) (k : A -> Eff.M S B) (s : S) :
  Eff.bind (Eff.await p) k s =
  match p with Resolved a => k a s | Rejected => Eff.mk Throw s [] end.
Proof. destruct p; [apply bind_ret | reflexivity]. Qed.

Lemma bind_call {T B} (srv : Backend) (c : ApiCall T)
  (k : Response.t T -> Eff.M S B) (s : S) :
  Eff.bind (Eff.call srv c) k s =
  Ran.after [Request c]
    match srv T c with Resolved r => k r s | Rejected => Eff.mk Throw s [] end.
Proof.
  unfold Eff.call, Eff.bind, Eff.start. cbn [Eff.result Eff.final Eff.trace].
  by destruct (srv T c).
Qed.

Lemma bind_message {B} (win : Window) (l : MessageLevel) (t : string)
  (k : unit -> Eff.M S B) (s : S) :
  Eff.bind (Eff.message win l t) k s =
  Ran.after (if message_api win then [Message l t] else []) (k tt s).
Proof.
  unfold Eff.message. destruct (message_api win); [reflexivity|].
  rewrite bind_ret. unfold Ran.after. cbn. by rewrite run_eta.
Qed.

Lemma try_finally_modify {A} (body : Eff.M S A) (f : S -> S) (s : S) :
  Eff.try_finally body (Eff.modify f) s = Ran.finally f (body s).
Proof.
  unfold Eff.try_finally, Eff.modify, Ran.finally. cbn. by rewrite app_nil_r.
Qed.

Lemma try_catch_ret {A} (body : Eff.M S A) (a : A) (s : S) :
  Eff.try_catch body (Eff.ret a) s = Ran.caught a (body s).
Proof.
  unfold Eff.try_catch, Ran.caught, Eff.ret. cbn.
  destruct (Eff.result (body s)); [reflexivity|]. by rewrite app_nil_r.
Qed.

Lemma bind_throw_run {A B} (m : Eff.M S A) (k : A -> Eff.M S B) (s s' : S) t :
  m s = Eff.mk Throw s' t -> Eff.bind m k s = Eff.mk Throw s' t.
Proof. intros H. unfold Eff.bind. by rewrite H. Qed.

Lemma bind_run {A B} (m : Eff.M S A) (k : A -> Eff.M S B) (s s' : S) a t :
  m s = Eff.mk (Normal a) s' t -> Eff.bind m k s = Ran.after t (k a s').
Proof. intros H. unfold Eff.bind. by rewrite H. Qed.
End EffSteps.

Ltac eff_step :=
  first [ rewrite bind_get | rewrite bind_modify | rewrite bind_ret
        | rewrite bind_emit | rewrite bind_log | rewrite bind_start
        | rewrite bind_call | rewrite bind_message | rewrite bind_await
        | rewrite try_finally_modify | rewrite try_catch_ret ];
  cbv beta.

Ltac case_id c i :=
  unfold jsstring in *;
  match goal with
  | |- context [match @mbind option _ _ _ ForwardingRule.id ?e with _ => _ end] =>
      destruct (@mbind option _ _ (list N) ForwardingRule.id e) as [[|c i]|]
  end.

Section RuleEditorFlow.
Import RuleModal RuleOptions.

Lemma loadOptions_run (srv : Backend) (s : State) :
  loadOptions srv s =
  match Promise_all4 (srv _ getAllForwardingScripts)
          (srv _ (deviceList (PageParams.mk 1 1000)))
          (srv _ (deviceConfig (PageParams.mk 1 1000)))
          (srv _ deviceGroupTree) with
  | Resolved (r1, r2, r3, r4) =>
      Eff.mk (Normal tt) (populated r1 r2 r3 r4 s) option_requests
  | Rejected => Eff.mk (Normal tt) s option_requests
  end.
Proof.
  unfold loadOptions. repeat eff_step.
  destruct (Promise_all4 _ _ _ _) as [[[[r1 r2] r3] r4]|]; [|reflexivity].
  unfold populated.
  destruct (Response.data r1); eff_step;
    (destruct (Response.data r2 ≫= Paginated.list); eff_step;
     (destruct (Response.data r3 ≫= Paginated.list); eff_step;
      (destruct (Response.data r4); reflexivity))).
Qed.

(** X8.  [loadOptions] never throws and always sends the same four requests
    in the same order (all scripts, devices page 1 of 1000, products page 1
    of 1000, the group tree), whatever the server answers; it changes
    nothing but the four option lists. *)
Theorem loadOptions_four_requests (srv : Backend) (s : State) :
  let r := loadOptions srv s in
  Eff.result r = Normal tt /\ Eff.trace r = option_requests /\
  formModel (Eff.final r) = formModel s /\ loading (Eff.final r) = loading s /\
  httpConfig (Eff.final r) = httpConfig s /\ mqttConfig (Eff.final r) = mqttConfig s /\
  currentTargetIndex (Eff.final r) = currentTargetIndex s.
Proof.
  cbv zeta. rewrite loadOptions_run.
  destruct (Promise_all4 _ _ _ _) as [[[[r1 r2] r3] r4]|]; [|by repeat split].
  cbn [Eff.result Eff.final Eff.trace]. unfold populated.
  destruct (Response.data r1), (Response.data r2 ≫= Paginated.list),
    (Response.data r3 ≫= Paginated.list), (Response.data r4); by repeat split.
Qed.

(** X9.  When the four requests resolve, each list is filled from its own
    response and only from it: a response that carries no data (an error
    answer) leaves its list as it was and does not keep the other three from
    being filled. *)
Theorem loadOptions_each_list (srv : Backend) (s : State) r1 r2 r3 r4 :
  srv _ getAllForwardingScripts = Resolved r1 ->
  srv _ (deviceList (PageParams.mk 1 1000)) = Resolved r2 ->
  srv _ (deviceConfig (PageParams.mk 1 1000)) = Resolved r3 ->
  srv _ deviceGroupTree = Resolved r4 ->
  let s' := Eff.final (loadOptions srv s) in
  scriptOptions s' =
    match Response.data r1 with
    | Some data => script_options data
    | None => scriptOptions s
    end /\
  deviceOptions s' =
    match Response.data r2 ≫= Paginated.list with
    | Some l => map item_option l
    | None => deviceOptions s
    end /\
  productOptions s' =
    match Response.data r3 ≫= Paginated.list with
    | Some l => map item_option l
    | None => productOptions s
    end /\
  groupOptions s' =
    match Response.data r4 with
    | Some data => group_options data
    | None => groupOptions s
    end.
Proof.
  intros H1 H2 H3 H4. cbv zeta. rewrite loadOptions_run, H1, H2, H3, H4.
  cbn [Promise_all4 Eff.final]. unfold populated.
  destruct (Response.data r1), (Response.data r2 ≫= Paginated.list),
    (Response.data r3 ≫= Paginated.list), (Response.data r4); by repeat split.
Qed.

Lemma loadOptions_each_list_witness :
  scriptOptions (Eff.final (loadOptions MoreSamples.options_server Samples.state0))
    = [SelectOption.mk (Some (lit "empty")) (Some (lit "s1"))] /\
  groupOptions (Eff.final (loadOptions MoreSamples.options_server Samples.state0))
    = [].
Proof.
  destruct (loadOptions_each_list MoreSamples.options_server Samples.state0
              _ _ _ _ eq_refl eq_refl eq_refl eq_refl) as (H1 & _ & _ & H4).
  split; [exact H1 | exact H4].
Defined.

Lemma loadEditData_run (srv : Backend) (s : State) :
  loadEditData srv s =
  match editData (props s) ≫= ForwardingRule.id with
  | Some (c :: i) =>
      match srv _ (getForwardingRuleDetail (c :: i)) with
      | Resolved r =>
          Eff.mk (Normal tt)
            (set_loading false
               match Response.data r with
               | Some data => set_formModel (form_of data) (set_loading true s)
               | None => set_loading true s
               end)
            [Request (getForwardingRuleDetail (c :: i))]
      | Rejected =>
          Eff.mk Throw (set_loading false (set_loading true s))
            [Request (getForwardingRuleDetail (c :: i))]
      end
  | _ => Eff.mk (Normal tt) s []
  end.
Proof.
  unfold loadEditData. eff_step.
  case_id c i; [reflexivity | | reflexivity].
  repeat eff_step. destruct (srv _ _) as [r|]; [|reflexivity].
  destruct (Response.data r); reflexivity.
Qed.

(** X10.  [loadEditData] of the rule editor.  Without an id to edit it does
    nothing and sends nothing.  With one it sends exactly the detail request
    for that id and ends with [loading] off in every case; it throws exactly
    when the request rejects; a fetched rule fills the form, absent source
    and target lists becoming empty ones; without data (rejection, or an
    answer without data) the form is left as it was. *)
Theorem loadEditData_outcomes (srv : Backend) (s : State) :
  let r := loadEditData srv s in
  let id := editData (props s) ≫= ForwardingRule.id in
  (truthy_str id = false -> r = Eff.mk (Normal tt) s []) /\
  (forall c i, id = Some (c :: i) ->
     let outcome := srv _ (getForwardingRuleDetail (c :: i)) in
     Eff.trace r = [Request (getForwardingRuleDetail (c :: i))] /\
     loading (Eff.final r) = false /\
     (Eff.result r = Throw <-> outcome = Rejected) /\
     (forall resp data, outcome = Resolved resp -> Response.data resp = Some data ->
        formModel (Eff.final r) = form_of data /\
        sources (formModel (Eff.final r)) = default [] (ForwardingRule.sources data) /\
        targets (formModel (Eff.final r)) = default [] (ForwardingRule.targets data)) /\
     ((outcome = Rejected \/
       exists resp, outcome = Resolved resp /\ Response.data resp = None) ->
        formModel (Eff.final r) = formModel s)).
Proof.
  cbv zeta. rewrite loadEditData_run. unfold jsstring. split.
  - intros H. by case_id c i.
  - intros c i ->. destruct (srv _ _) as [resp|].
    + cbn [Eff.result Eff.final Eff.trace].
      split; [reflexivity|]. split; [reflexivity|]. split; [done|]. split.
      * intros resp' d [= <-] ->. by repeat split.
      * intros [? | (resp' & [= <-] & ->)]; [done | reflexivity].
    + cbn [Eff.result Eff.final Eff.trace].
      split; [reflexivity|]. split; [reflexivity|]. split; [done|]. split.
      * intros resp' d [=].
      * reflexivity.
Qed.

Lemma loadEditData_outcomes_witness :
  Eff.result (loadEditData (fun T _ => Rejected) MoreSamples.rule_editing) = Throw /\
  loading (Eff.final (loadEditData (fun T _ => Rejected) MoreSamples.rule_editing))
    = false.
Proof.
  destruct (proj2 (loadEditData_outcomes (fun T _ => Rejected) MoreSamples.rule_editing)
              (ch "r") (lit "1") eq_refl) as (_ & H1 & H2 & _).
  split; [by apply H2 | exact H1].
Defined.

Lemma validate_form_pass (s : State) :
  formRef s = None \/ Form.validate [(rules_name, name (formModel s))] = Resolved tt ->
  validate_form s = Eff.mk (Normal tt) s [].
Proof.
  intros H. unfold validate_form. eff_step.
  destruct (formRef s) as [[]|]; [|reflexivity].
  destruct H as [? | ->]; [done | reflexivity].
Qed.

Lemma handleSubmit_run (srv : Backend) (win : Window) (s : State) :
  formRef s = None \/ Form.validate [(rules_name, name (formModel s))] = Resolved tt ->
  handleSubmit srv win s =
  match srv _ (submit_call s) with
  | Resolved resp =>
      Eff.mk (Normal tt) (set_loading false (set_loading true s))
        (Request (submit_call s) ::
         match Response.error resp with
         | None =>
             (if message_api win
              then [Message success
                      match submit_call s with
                      | updateForwardingRule _ => "common.updateSuccess"
                      | _ => "common.addSuccess"
                      end]
              else []) ++ [Emit "success"; Emit "update:visible"]
         | Some _ => []
         end)
  | Rejected =>
      Eff.mk Throw (set_loading false (set_loading true s)) [Request (submit_call s)]
  end.
Proof.
  intros Hpass. unfold handleSubmit.
  rewrite (bind_run _ _ _ _ _ _ (validate_form_pass s Hpass)).
  do 3 eff_step. unfold submit_call, submit_data, closeModal.
  cbn [formModel props set_loading].
  destruct (type (props s)); try case_id c i;
    cbn [truthy_str ForwardingRule.with_id]; eff_step;
    (destruct (srv _ _) as [resp|]; [|reflexivity];
     destruct (Response.error resp); [reflexivity|];
     repeat eff_step; by destruct (message_api win)).
Qed.

(** X11.  What a submit sends.  Once validation lets it through (it
    resolves, or there is no form instance to validate), [handleSubmit] sends
    exactly one
    request: the update, with the id of the edited rule, when the dialog is
    in edit mode and that id is not empty, and the create, without id, in
    every other case (also in edit mode when the edited rule has no id).
    The rule sent has the form's name, description, remark, sources and
    targets, and a [script_id] only when one is selected. *)
Theorem handleSubmit_request (srv : Backend) (win : Window) (s : State) :
  formRef s = None \/ Form.validate [(rules_name, name (formModel s))] = Resolved tt ->
  requests (Eff.trace (handleSubmit srv win s)) = [Request (submit_call s)] /\
  (forall c i, type (props s) = edit ->
     editData (props s) ≫= ForwardingRule.id = Some (c :: i) ->
     submit_call s = updateForwardingRule (submit_data s) /\
     ForwardingRule.id (submit_data s) = Some (c :: i)) /\
  (type (props s) = add \/ truthy_str (editData (props s) ≫= ForwardingRule.id) = false ->
     submit_call s = createForwardingRule (submit_data s) /\
     ForwardingRule.id (submit_data s) = None) /\
  ForwardingRule.name (submit_data s) = name (formModel s) /\
  ForwardingRule.sources (submit_data s) = Some (sources (formModel s)) /\
  ForwardingRule.targets (submit_data s) = Some (targets (formModel s)) /\
  (ForwardingRule.script_id (submit_data s) = None <->
   script_id (formModel s) = None \/ script_id (formModel s) = Some []).
Proof.
  intros Hpass. rewrite (handleSubmit_run srv win s Hpass). split.
  - destruct (srv _ _) as [resp|]; cbn [Eff.trace]; [|reflexivity].
    destruct (Response.error resp), (message_api win); reflexivity.
  - unfold submit_call, submit_data. cbn [ForwardingRule.id ForwardingRule.name
      ForwardingRule.sources ForwardingRule.targets ForwardingRule.script_id].
    unfold jsstring. repeat split.
    + by rewrite H, H0.
    + by rewrite H, H0.
    + destruct H as [-> | H]; [reflexivity|].
      destruct (type (props s)); [reflexivity|].
      by case_id c i.
    + destruct H as [-> | H]; [reflexivity|].
      destruct (type (props s)); [reflexivity|].
      by case_id c i.
    + destruct (script_id (formModel s)) as [[|x y]|]; auto; discriminate.
    + destruct (script_id (formModel s)) as [[|x y]|]; try done.
      intros [? | ?]; discriminate.
Qed.

Lemma handleSubmit_request_witness :
  requests (Eff.trace (handleSubmit (fun T _ => Rejected) (Build_Window true)
                         MoreSamples.rule_editing))
  = [Request (updateForwardingRule (submit_data MoreSamples.rule_editing))].
Proof.
  apply (proj1 (handleSubmit_request (fun T _ => Rejected) (Build_Window true)
                  MoreSamples.rule_editing ltac:(right; reflexivity))).
Defined.

(** X12.  How a submit ends.  Once validation lets it through,
    [handleSubmit] leaves [loading] off and the form as it was, whatever
    happens.  It announces success and closes (the events [success], then
    [update:visible]) exactly when the request resolved with an empty error
    channel; after an error answer or a rejection it emits nothing, so the
    dialog stays open; it throws exactly when the request rejects. *)
Theorem handleSubmit_outcome (srv : Backend) (win : Window) (s : State) :
  formRef s = None \/ Form.validate [(rules_name, name (formModel s))] = Resolved tt ->
  let r := handleSubmit srv win s in
  let succeeded :=
    exists resp, srv _ (submit_call s) = Resolved resp /\ Response.error resp = None in
  loading (Eff.final r) = false /\ formModel (Eff.final r) = formModel s /\
  (succeeded -> emitted (Eff.trace r) = ["success"; "update:visible"]%string) /\
  (~ succeeded -> emitted (Eff.trace r) = []) /\
  (Eff.result r = Throw <-> srv _ (submit_call s) = Rejected).
Proof.
  intros Hpass. cbv zeta. rewrite (handleSubmit_run srv win s Hpass).
  destruct (srv _ _) as [resp|].
  - cbn [Eff.result Eff.final Eff.trace]. repeat split; try done.
    + intros (resp' & [= <-] & ->). by destruct (message_api win).
    + intros Hno. destruct (Response.error resp) eqn:E; [reflexivity|].
      destruct Hno. by exists resp.
  - cbn [Eff.result Eff.final Eff.trace]. repeat split; try done.
    intros (resp' & [=] & _).
Qed.

Lemma handleSubmit_outcome_witness :
  emitted (Eff.trace (handleSubmit (fun T _ => Resolved (Response.mk None None))
                        (Build_Window true) MoreSamples.rule_editing))
  = ["success"; "update:visible"]%string.
Proof.
  destruct (handleSubmit_outcome (fun T _ => Resolved (Response.mk None None))
              (Build_Window true) MoreSamples.rule_editing
              ltac:(right; reflexivity)) as (_ & _ & H & _).
  apply H. eexists. split; reflexivity.
Defined.

(** X13.  Opening the rule editor.  When the dialog becomes visible in add
    mode the form is emptied, whatever the option requests came to and
    whatever the form held; the four option requests are the only ones
    sent.  When it is hidden nothing is sent and nothing changes. *)
Theorem on_visible_add_resets (srv : Backend) (s : State) :
  on_visible srv false s = Eff.mk (Normal tt) s [] /\
  (type (props s) = add ->
     let r := on_visible srv true s in
     Eff.result r = Normal tt /\ Eff.trace r = option_requests /\
     formModel (Eff.final r) = mk_form [] [] None [] [] []).
Proof.
  split; [reflexivity|]. intros Hadd. cbv zeta. unfold on_visible.
  pose proof (loadOptions_run srv s) as Hrun.
  assert (exists s', loadOptions srv s = Eff.mk (Normal tt) s' option_requests
                     /\ props s' = props s) as (s' & E & Hprops).
  { rewrite Hrun. destruct (Promise_all4 _ _ _ _) as [[[[r1 r2] r3] r4]|];
      eexists; split; try reflexivity.
    unfold populated.
    destruct (Response.data r1), (Response.data r2 ≫= Paginated.list),
      (Response.data r3 ≫= Paginated.list), (Response.data r4); reflexivity. }
  rewrite (bind_run _ _ _ _ _ _ E).
  unfold Eff.bind, Eff.get. cbn [Eff.result Eff.final Eff.trace].
  rewrite Hprops, Hadd. cbn. by repeat split.
Qed.

Lemma on_visible_add_resets_witness :
  formModel (Eff.final (on_visible (fun T _ => Rejected) true Samples.stale_state))
  = mk_form [] [] None [] [] [].
Proof.
  apply (proj2 (on_visible_add_resets (fun T _ => Rejected) Samples.stale_state)
           eq_refl).
Defined.

(** X14.  Opening the rule editor in edit mode asks for the four option
    lists first and for the rule after them.  Without an id to edit only
    the options are requested and the form keeps what it held.  With one,
    the detail request follows the four option requests; a fetched rule
    fills the form while the option lists are those [loadOptions] left;
    the watcher throws exactly when the detail request rejects, a failure
    of the option requests never being passed on. *)
Theorem on_visible_edit_flow (srv : Backend) (s : State) :
  type (props s) = edit ->
  let r := on_visible srv true s in
  let id := editData (props s) ≫= ForwardingRule.id in
  let opts := Eff.final (loadOptions srv s) in
  (truthy_str id = false ->
     r = Eff.mk (Normal tt) opts option_requests /\ formModel opts = formModel s) /\
  (forall c i, id = Some (c :: i) ->
     let outcome := srv _ (getForwardingRuleDetail (c :: i)) in
     Eff.trace r = option_requests ++ [Request (getForwardingRuleDetail (c :: i))] /\
     scriptOptions (Eff.final r) = scriptOptions opts /\
     deviceOptions (Eff.final r) = deviceOptions opts /\
     productOptions (Eff.final r) = productOptions opts /\
     groupOptions (Eff.final r) = groupOptions opts /\
     loading (Eff.final r) = false /\
     (forall resp data, outcome = Resolved resp -> Response.data resp = Some data ->
        formModel (Eff.final r) = form_of data) /\
     (Eff.result r = Throw <-> outcome = Rejected)).
Proof.
  intros Hedit. cbv zeta. unfold on_visible.
  assert (exists s', loadOptions srv s = Eff.mk (Normal tt) s' option_requests
                     /\ props s' = props s /\ formModel s' = formModel s)
    as (s' & E & Hprops & Hform).
  { rewrite loadOptions_run. destruct (Promise_all4 _ _ _ _) as [[[[r1 r2] r3] r4]|];
      eexists; (split; [reflexivity|]); [|by split].
    unfold populated.
    destruct (Response.data r1), (Response.data r2 ≫= Paginated.list),
      (Response.data r3 ≫= Paginated.list), (Response.data r4); by split. }
  rewrite (bind_run _ _ _ _ _ _ E), bind_get, Hprops, Hedit, loadEditData_run, Hprops.
  rewrite E. cbn [Eff.final]. unfold jsstring in *. split.
  - intros H. split; [|exact Hform].
    match type of H with
    | truthy_str ?x = _ => destruct x as [[|c i]|]; [| discriminate H |]
    end; unfold Ran.after; cbn; by rewrite ?app_nil_r.
  - intros c i ->. destruct (srv _ _) as [resp|].
    + unfold Ran.after. cbn [Eff.result Eff.final Eff.trace].
      split; [reflexivity|].
      destruct (Response.data resp) as [d|] eqn:Hd; cbn;
        (do 5 (split; [reflexivity|])); (split; [|done]);
        intros resp' d' [= <-] Hd'; [|congruence].
      assert (d = d') as -> by congruence. reflexivity.
    + unfold Ran.after. cbn [Eff.result Eff.final Eff.trace]. by repeat split.
Qed.

Lemma on_visible_edit_flow_witness :
  Eff.trace (on_visible (fun T _ => Rejected) true MoreSamples.rule_editing)
  = option_requests ++ [Request (getForwardingRuleDetail (lit "r1"))].
Proof.
  apply (proj2 (on_visible_edit_flow (fun T _ => Rejected) MoreSamples.rule_editing
                  eq_refl) (ch "r") (lit "1") eq_refl).
Defined.

(** X15.  The choices offered for a source follow its type: devices for a
    device source, products for a product source, groups for a group
    source, and nothing for any other number; the script list is never
    offered.  A source just added is a device source with no id chosen, so
    it is offered the devices. *)
Theorem getSourceOptions_by_type (t : SourceType.t) (k : Z) (s : State) :
  getSourceOptions (SourceType.code t) s =
    match t with
    | SourceType.Device => deviceOptions s
    | SourceType.Product => productOptions s
    | SourceType.Group => groupOptions s
    end /\
  ((k < 1 \/ 3 < k)%Z -> getSourceOptions k s = []) /\
  (exists x,
     sources (formModel (addSource s)) !! length (sources (formModel s)) = Some x /\
     ForwardingSource.source_id x = [] /\
     getSourceOptions (SourceType.code (ForwardingSource.source_type x)) (addSource s)
       = deviceOptions s).
Proof.
  split; [by destruct t|]. split.
  - intros H. unfold getSourceOptions. cbn [SourceType.code].
    destruct (Z.eqb_spec k 1); [lia|]. destruct (Z.eqb_spec k 2); [lia|].
    destruct (Z.eqb_spec k 3); [lia | reflexivity].
  - exists (ForwardingSource.mk None None SourceType.Device []).
    split; [|by split].
    unfold addSource. cbn [formModel set_formModel sources set_sources].
    by rewrite lookup_app_r, Nat.sub_diag.
Qed.

Lemma getSourceOptions_by_type_witness :
  getSourceOptions 0 Samples.state0 = [].
Proof.
  apply (proj1 (proj2 (getSourceOptions_by_type SourceType.Device 0 Samples.state0))).
  left. lia.
Defined.

End RuleEditorFlow.

Section EditorToolbar.
Import ScriptEditor.

Lemma changeFontSize_step (d : Z) (o : EditorOptions) :
  (10 <= fontSize o <= 24)%Z ->
  (10 <= fontSize (changeFontSize d o) <= 24)%Z /\
  wordWrap (changeFontSize d o) = wordWrap o /\
  minimap_enabled (changeFontSize d o) = minimap_enabled o.
Proof.
  intros H. unfold changeFontSize. cbv zeta.
  destruct ((10 <=? fontSize o + d)%Z && (fontSize o + d <=? 24)%Z) eqn:E;
    [|split; [exact H | by split]].
  apply andb_prop in E as [E1%Z.leb_le E2%Z.leb_le].
  cbn [fontSize wordWrap minimap_enabled]. by repeat split.
Qed.

(** X16.  The font size never leaves the range 10..24: starting inside the
    range (the editor starts at 14), any sequence of [changeFontSize] calls,
    with any steps, ends inside it, and none of them touches the other
    options. *)
Theorem changeFontSize_range (deltas : list Z) (o : EditorOptions) :
  (10 <= fontSize o <= 24)%Z ->
  let o' := fold_left (fun o d => changeFontSize d o) deltas o in
  (10 <= fontSize o' <= 24)%Z /\
  wordWrap o' = wordWrap o /\ minimap_enabled o' = minimap_enabled o.
Proof.
  revert o. induction deltas as [|d deltas IH]; intros o H;
    [split; [exact H | by split]|].
  cbn [fold_left]. destruct (changeFontSize_step d o H) as (H1 & H2 & H3).
  destruct (IH _ H1) as (I1 & I2 & I3). cbv zeta. rewrite I2, I3.
  split; [exact I1 | by split].
Qed.

Lemma changeFontSize_range_witness :
  (10 <= fontSize (fold_left (fun o d => changeFontSize d o) [20; 7; -30; -3]%Z
                     editorOptions_init) <= 24)%Z.
Proof.
  apply (changeFontSize_range [20; 7; -30; -3]%Z editorOptions_init).
  vm_compute. split; discriminate.
Defined.

(** X17.  The two toggles undo themselves: switching the minimap twice gives
    the options back, and so does switching word wrap twice once it holds
    one of its two values; whatever it held before, one switch leaves it at
    [on] or [off]. *)
Theorem toolbar_toggles_undo (o : EditorOptions) :
  toggleMinimap (toggleMinimap o) = o /\
  (wordWrap (toggleWordWrap o) = lit "on" \/
   wordWrap (toggleWordWrap o) = lit "off") /\
  (wordWrap o = lit "on" \/ wordWrap o = lit "off" ->
   toggleWordWrap (toggleWordWrap o) = o).
Proof.
  destruct o as [f w m]. unfold toggleMinimap, toggleWordWrap, jsstring_eqb.
  cbn [fontSize wordWrap minimap_enabled]. split; [by rewrite negb_involutive|].
  split.
  - destruct (bool_decide (w = lit "on")); [by right | by left].
  - intros [-> | ->]; reflexivity.
Qed.

Lemma toolbar_toggles_undo_witness :
  toggleWordWrap (toggleWordWrap editorOptions_init) = editorOptions_init.
Proof.
  apply (proj2 (proj2 (toolbar_toggles_undo editorOptions_init))).
  left. reflexivity.
Defined.

(** The toolbar actions are independent of each other: any two of font
    size, word wrap and minimap give the same options in either order. *)
Lemma toolbar_actions_commute (d : Z) (o : EditorOptions) :
  toggleMinimap (changeFontSize d o) = changeFontSize d (toggleMinimap o) /\
  toggleWordWrap (changeFontSize d o) = changeFontSize d (toggleWordWrap o) /\
  toggleMinimap (toggleWordWrap o) = toggleWordWrap (toggleMinimap o).
Proof.
  destruct o as [f w m]. unfold toggleMinimap, toggleWordWrap, changeFontSize.
  cbn [fontSize wordWrap minimap_enabled].
  destruct ((10 <=? f + d)%Z && (f + d <=? 24)%Z); by repeat split.
Qed.
End EditorToolbar.

Section ScriptEditorFlow.
Import ScriptModal ScriptEditor ScriptSubmit.

Lemma bind_on_core_modify {B} (f : State -> State) (k : unit -> Eff.M View B)
  (v : View) :
  Eff.bind (on_core (Eff.modify f)) k v = k tt (within f v).
Proof. unfold Eff.bind, on_core, Eff.modify. cbn. apply run_eta. Qed.

Lemma try_finally_on_core_modify {A} (body : Eff.M View A) (f : State -> State)
  (v : View) :
  Eff.try_finally body (on_core (Eff.modify f)) v =
  Ran.finally (within f) (body v).
Proof.
  unfold Eff.try_finally, on_core, Eff.modify, Ran.finally. cbn.
  by rewrite app_nil_r.
Qed.

Lemma script_validate_form_run (v : View) :
  validate_form v =
  match formRef v with
  | Some _ =>
      match Form.validate (checked v) with
      | Resolved _ => Eff.mk (Normal tt) v []
      | Rejected => Eff.mk Throw v []
      end
  | None => Eff.mk (Normal tt) v []
  end.
Proof.
  unfold validate_form. eff_step. destruct (formRef v) as [[]|]; [|reflexivity].
  fold (checked v). by destruct (Form.validate (checked v)) as [[]|].
Qed.

Ltac case_script_id c i :=
  unfold jsstring in *;
  match goal with
  | |- context [match @mbind option _ _ _ ForwardingScript.id ?e with _ => _ end] =>
      destruct (@mbind option _ _ (list N) ForwardingScript.id e) as [[|c i]|]
  end.

Lemma script_handleSubmit_run (srv : Backend) (win : Window) (v : View) :
  formRef v = None \/ Form.validate (checked v) = Resolved tt ->
  handleSubmit srv win v =
  match srv _ (submit_call v) with
  | Resolved resp =>
      Eff.mk (Normal tt)
        (within (fun s => set_loading false (set_loading true s)) v)
        (Request (submit_call v) ::
         match Response.error resp with
         | None =>
             (if message_api win
              then [Message success
                      match submit_call v with
                      | updateForwardingScript _ => "common.updateSuccess"
                      | _ => "common.addSuccess"
                      end]
              else []) ++ [Emit "success"; Emit "update:visible"]
         | Some _ => []
         end)
  | Rejected =>
      Eff.mk Throw (within (fun s => set_loading false (set_loading true s)) v)
        [Request (submit_call v)]
  end.
Proof.
  intros Hpass. unfold handleSubmit.
  assert (E : validate_form v = Eff.mk (Normal tt) v []).
  { rewrite script_validate_form_run. destruct (formRef v); [|reflexivity].
    by destruct Hpass as [? | ->]. }
  rewrite (bind_run _ _ _ _ _ _ E).
  rewrite bind_on_core_modify, try_finally_on_core_modify. eff_step.
  unfold submit_call, submit_data, closeModal.
  cbn [formModel props set_loading core within].
  destruct (type (props (core v))); try case_script_id c i; eff_step;
    (destruct (srv _ _) as [resp|]; [|reflexivity];
     destruct (Response.error resp); [reflexivity|];
     repeat eff_step; by destruct (message_api win)).
Qed.

(** X18.  A submit of the script editor that fails validation does nothing:
    when the form instance rejects the two checked fields (name and script
    content), [handleSubmit] throws before anything else happens: no
    request, no event, and the component, [loading] included, is as it
    was. *)
Theorem script_handleSubmit_invalid (srv : Backend) (win : Window) (v : View) :
  formRef v = Some Form.NForm -> Form.validate (checked v) = Rejected ->
  handleSubmit srv win v = Eff.mk Throw v [].
Proof.
  intros Href Hrej. unfold handleSubmit. apply bind_throw_run.
  rewrite script_validate_form_run, Href. by rewrite Hrej.
Qed.

Lemma script_handleSubmit_invalid_witness :
  handleSubmit (fun T _ => Rejected) (Build_Window true) view_nameless
  = Eff.mk Throw view_nameless [].
Proof.
  apply (script_handleSubmit_invalid (fun T _ => Rejected) (Build_Window true)
           view_nameless); reflexivity.
Defined.

(** X19.  A submit of the script editor that passes validation sends exactly
    one request: the update carrying the id of the edited script when the
    dialog is in edit mode and that id is not empty, the create without id
    otherwise.  The script sent has the form's name, content, description
    and remark.  Afterwards [loading] is off and the form and the editor
    options are as they were; the events [success] and [update:visible]
    are emitted when the request resolved with an empty error channel and
    nothing is emitted otherwise; the handler throws exactly when the
    request rejects. *)
Theorem script_handleSubmit_outcome (srv : Backend) (win : Window) (v : View) :
  formRef v = None \/ Form.validate (checked v) = Resolved tt ->
  let r := handleSubmit srv win v in
  let id := editData (props (core v)) ≫= ForwardingScript.id in
  let succeeded :=
    exists resp, srv _ (submit_call v) = Resolved resp /\ Response.error resp = None in
  requests (Eff.trace r) = [Request (submit_call v)] /\
  (forall c i, type (props (core v)) = edit -> id = Some (c :: i) ->
     submit_call v = updateForwardingScript (submit_data v) /\
     ForwardingScript.id (submit_data v) = Some (c :: i)) /\
  (type (props (core v)) = add \/ truthy_str id = false ->
     submit_call v = createForwardingScript (submit_data v) /\
     ForwardingScript.id (submit_data v) = None) /\
  ForwardingScript.name (submit_data v) = name (formModel (core v)) /\
  ForwardingScript.script_content (submit_data v)
    = Some (script_content (formModel (core v))) /\
  loading (core (Eff.final r)) = false /\
  formModel (core (Eff.final r)) = formModel (core v) /\
  editorOptions (Eff.final r) = editorOptions v /\
  (succeeded -> RuleOptions.emitted (Eff.trace r) = ["success"; "update:visible"]%string) /\
  (~ succeeded -> RuleOptions.emitted (Eff.trace r) = []) /\
  (Eff.result r = Throw <-> srv _ (submit_call v) = Rejected).
Proof.
  intros Hpass. cbv zeta. rewrite (script_handleSubmit_run srv win v Hpass).
  split; [|split; [|split]].
  - destruct (srv _ _) as [resp|]; cbn [Eff.trace]; [|reflexivity].
    destruct (Response.error resp), (message_api win); reflexivity.
  - intros c i Ht Hid. unfold submit_call, submit_data.
    cbn [ForwardingScript.id]. unfold jsstring in *. by rewrite Ht, Hid.
  - intros H. unfold submit_call, submit_data. cbn [ForwardingScript.id].
    destruct H as [-> | H]; [done|].
    destruct (type (props (core v))); [done|]. by case_script_id c i.
  - destruct (srv _ _) as [resp|]; cbn [Eff.result Eff.final Eff.trace core
      editorOptions loading formModel set_loading].
    + do 5 (split; [reflexivity|]). split; [|split; [|done]].
      * intros (resp' & [= <-] & ->). by destruct (message_api win).
      * intros Hno. destruct (Response.error resp) eqn:E; [reflexivity|].
        destruct Hno. by exists resp.
    + do 5 (split; [reflexivity|]). split; [|split; [|done]].
      * intros (resp' & [=] & _).
      * reflexivity.
Qed.

Lemma script_handleSubmit_outcome_witness :
  requests (Eff.trace (handleSubmit (fun T _ => Rejected) (Build_Window true)
                         view_editing))
  = [Request (updateForwardingScript (submit_data view_editing))].
Proof.
  apply (script_handleSubmit_outcome (fun T _ => Rejected) (Build_Window true)
           view_editing). right. reflexivity.
Defined.

Lemma script_loadEditData_run (srv : Backend) (s : State) :
  loadEditData srv s =
  match editData (props s) ≫= ForwardingScript.id with
  | Some (c :: i) =>
      match srv _ (getForwardingScriptDetail (c :: i)) with
      | Resolved r =>
          Eff.mk (Normal tt)
            (set_loading false
               match Response.data r with
               | Some data =>
                   set_formModel
                     (mk_form (ForwardingScript.name data)
                        (or_str (ForwardingScript.description data) [])
                        (or_str (ForwardingScript.script_content data)
                                defaultScriptContent)
                        (or_str (ForwardingScript.remark data) []))
                     (set_loading true s)
               | None => set_loading true s
               end)
            [Request (getForwardingScriptDetail (c :: i))]
      | Rejected =>
          Eff.mk Throw (set_loading false (set_loading true s))
            [Request (getForwardingScriptDetail (c :: i))]
      end
  | _ => Eff.mk (Normal tt) s []
  end.
Proof.
  unfold loadEditData. eff_step.
  case_script_id c i; [reflexivity | | reflexivity].
  repeat eff_step. destruct (srv _ _) as [r|]; [|reflexivity].
  destruct (Response.data r); reflexivity.
Qed.

(** X20.  Opening the script editor.  Hidden: nothing happens.  In add mode
    the form becomes the empty form with the default script and no request
    is sent.  In edit mode without an id to edit nothing is sent and the
    form keeps what it held; with an id exactly the detail request for it
    is sent, [loading] ends off, a rejection is thrown on, and without
    fetched data the form keeps what it held. *)
Theorem script_on_visible_cases (srv : Backend) (s : State) :
  let r := on_visible srv true s in
  let id := editData (props s) ≫= ForwardingScript.id in
  on_visible srv false s = Eff.mk (Normal tt) s [] /\
  (type (props s) = add ->
     r = Eff.mk (Normal tt)
           (set_formModel (mk_form [] [] defaultScriptContent []) s) []) /\
  (type (props s) = edit -> truthy_str id = false -> r = Eff.mk (Normal tt) s []) /\
  (forall c i, type (props s) = edit -> id = Some (c :: i) ->
     let outcome := srv _ (getForwardingScriptDetail (c :: i)) in
     Eff.trace r = [Request (getForwardingScriptDetail (c :: i))] /\
     loading (Eff.final r) = false /\
     (Eff.result r = Throw <-> outcome = Rejected) /\
     ((outcome = Rejected \/
       exists resp, outcome = Resolved resp /\ Response.data resp = None) ->
      formModel (Eff.final r) = formModel s)).
Proof.
  cbv zeta. unfold on_visible. split; [reflexivity|]. rewrite bind_get.
  split; [by intros ->|]. split.
  - intros -> H. rewrite script_loadEditData_run. by case_script_id c i.
  - intros c i -> Hid. rewrite script_loadEditData_run.
    unfold jsstring in *. rewrite Hid.
    destruct (srv _ _) as [resp|]; cbn [Eff.result Eff.final Eff.trace].
    + split; [reflexivity|]. split; [reflexivity|]. split; [done|].
      intros [? | (resp' & [= <-] & ->)]; [done | reflexivity].
    + split; [reflexivity|]. split; [reflexivity|]. split; [done|]. reflexivity.
Qed.

Lemma script_on_visible_cases_witness :
  Eff.trace (on_visible (fun T _ => Rejected) true Samples.script_editing)
  = [Request (getForwardingScriptDetail (lit "s1"))].
Proof.
  apply (proj2 (proj2 (proj2 (script_on_visible_cases (fun T _ => Rejected)
           Samples.script_editing))) (ch "s") (lit "1") eq_refl eq_refl).
Defined.
End ScriptEditorFlow.

Section ScriptTesterFlow.
Import ScriptTestModal ScriptTester.

Lemma handleTest_run (srv : Backend) (win : Window) (s : State) (c : N) (sc : jsstring) :
  script_content (formModel s) = c :: sc ->
  let call := testForwardingScript
                (ScriptTestParams.mk (c :: sc) (test_data (formModel s))) in
  let s1 := set_testResult None (set_loading true s) in
  handleTest srv win s =
  match srv _ call with
  | Resolved resp =>
      match Response.error resp, Response.data resp with
      | None, Some data =>
          Eff.mk (Normal tt) (set_loading false (set_testResult (Some data) s1))
            (Request call ::
             if message_api win
             then [if ScriptTestResult.success data
                   then Message success "dataForwarding.testSuccess"
                   else Message error "dataForwarding.testFailed"]
             else [])
      | _, _ => Eff.mk (Normal tt) (set_loading false s1) [Request call]
      end
  | Rejected => Eff.mk Throw (set_loading false s1) [Request call]
  end.
Proof.
  intros Hsc. cbv zeta. unfold handleTest. eff_step. rewrite Hsc.
  do 4 eff_step. cbn [formModel set_testResult set_loading]. rewrite Hsc. eff_step.
  destruct (srv _ _) as [resp|]; [|reflexivity].
  destruct (Response.error resp); [reflexivity|].
  destruct (Response.data resp) as [data|]; [|reflexivity].
  eff_step. unfold Eff.message.
  by destruct (ScriptTestResult.success data), (message_api win).
Qed.

(** X21.  How a script test ends.  With a script to test, [handleTest] first
    drops the result of the previous test; afterwards [loading] is off and
    the form is as it was; the result shown is the data of the answer when
    the request resolved with an empty error channel, and none in every
    other case (error answer, rejection), so a result of an earlier test is
    never left on screen; the handler throws exactly when the request
    rejects. *)
Theorem handleTest_outcome (srv : Backend) (win : Window) (s : State) :
  script_content (formModel s) <> [] ->
  let r := handleTest srv win s in
  let outcome := srv _ (testForwardingScript
                          (ScriptTestParams.mk (script_content (formModel s))
                                               (test_data (formModel s)))) in
  loading (Eff.final r) = false /\ formModel (Eff.final r) = formModel s /\
  testResult (Eff.final r) =
    match outcome with
    | Resolved resp =>
        match Response.error resp with
        | None => Response.data resp
        | Some _ => None
        end
    | Rejected => None
    end /\
  (Eff.result r = Throw <-> outcome = Rejected).
Proof.
  intros Hne. destruct (script_content (formModel s)) as [|c sc] eqn:Hsc; [done|].
  cbv zeta. rewrite (handleTest_run srv win s c sc Hsc). cbv zeta.
  destruct (srv _ _) as [resp|]; [|by repeat split].
  destruct (Response.error resp); [by repeat split|].
  destruct (Response.data resp); by repeat split.
Qed.

Lemma handleTest_outcome_witness :
  testResult (Eff.final (handleTest (fun T _ => Rejected) (Build_Window true)
                           PageSamples.tested)) = None.
Proof.
  destruct (handleTest_outcome (fun T _ => Rejected) (Build_Window true)
              PageSamples.tested ltac:(discriminate)) as (_ & _ & H & _).
  exact H.
Defined.

(** X22.  Opening the tester, then testing.  Opening drops the result of an
    earlier test and takes the script to test from the [script] prop.  When
    that prop is absent or has no content, the test that follows sends
    nothing and changes nothing; when it has content, the test sends
    exactly one request, carrying that content and the default payload
    built at opening time.  Closing leaves the state alone. *)
Theorem open_then_test (srv : Backend) (win : Window) (now : Z) (props : Props)
  (s : State) :
  let opened := on_visible now props true s in
  let r := handleTest srv win opened in
  let content := script props ≫= ForwardingScript.script_content in
  on_visible now props false s = s /\
  testResult opened = None /\
  (truthy_str content = false ->
     requests (Eff.trace r) = [] /\ Eff.final r = opened) /\
  (forall c sc, content = Some (c :: sc) ->
     requests (Eff.trace r) =
     [Request (testForwardingScript
                 (ScriptTestParams.mk (c :: sc) (defaultTestData now)))]).
Proof.
  cbv zeta. split; [reflexivity|]. split; [reflexivity|]. split.
  - intros H. unfold handleTest. eff_step.
    cbn [on_visible formModel script_content]. unfold jsstring in *.
    match type of H with
    | truthy_str ?x = _ => destruct x as [[|c sc]|]; [| discriminate H |]
    end; cbn [or_str]; unfold Eff.message; by destruct (message_api win).
  - intros c sc H.
    assert (E : script_content (formModel (on_visible now props true s)) = c :: sc).
    { cbn [on_visible formModel script_content]. unfold jsstring in *. by rewrite H. }
    rewrite (handleTest_run srv win _ c sc E). cbv zeta.
    cbn [on_visible formModel test_data].
    destruct (srv _ _) as [resp|]; [|reflexivity].
    destruct (Response.error resp); [reflexivity|].
    destruct (Response.data resp) as [data|]; [|reflexivity].
    by destruct (message_api win), (ScriptTestResult.success data).
Qed.

Lemma open_then_test_witness :
  requests (Eff.trace (handleTest (fun T _ => Rejected) (Build_Window true)
    (on_visible 0 (mk_props true None) true PageSamples.tested))) = [].
Proof.
  apply (open_then_test (fun T _ => Rejected) (Build_Window true) 0
           (mk_props true None) PageSamples.tested). reflexivity.
Defined.
End ScriptTesterFlow.

Section RulesPageFlow.
Import RulesPage.

Lemma getTableData_run (srv : PageServer) (s : State) :
  getTableData srv s =
  match srv _ (getForwardingRules (list_params s)) with
  | Resolved r =>
      Act.mk (Normal tt)
        (match Response.error r, Response.data r with
         | None, Some data =>
             mk_state false (visible s) (queryParams s)
               (default [] (Paginated.list data)) (modalType s) (editData s)
               (mk_pagination (page (pagination s)) (pageSize (pagination s))
                              (default 0%Z (Paginated.total data)))
         | _, _ => set_loading false s
         end)
        [Sent (getForwardingRules (list_params s))]
  | Rejected =>
      Act.mk Throw (set_loading false s) [Sent (getForwardingRules (list_params s))]
  end.
Proof.
  unfold getTableData, Act.bind, Act.try_finally, Act.modify, Act.get, Act.call.
  cbn [Act.result Act.final Act.trace app].
  change (list_params (set_loading true s)) with (list_params s).
  destruct (srv _ _) as [r|]; cbn [Act.result Act.final Act.trace app];
    [|reflexivity].
  destruct (Response.error r); [reflexivity|].
  destruct (Response.data r); reflexivity.
Qed.

(** X23.  The list request of the rules screen.  [getTableData] sends
    exactly one request, the rules list for the current page and page size.
    The name filter is left out when the search box is empty and sent as
    typed otherwise; the status filter is sent whenever one is chosen, the
    value 0 (disabled) included, and left out only when none is. *)
Theorem getTableData_request (srv : PageServer) (s : State) :
  let p := list_params s in
  Act.trace (getTableData srv s) = [Sent (getForwardingRules p)] /\
  RuleListParams.page p = page (pagination s) /\
  RuleListParams.page_size p = pageSize (pagination s) /\
  RuleListParams.enabled p = enabled (queryParams s) /\
  (RuleListParams.name p = None <-> name (queryParams s) = []) /\
  (RuleListParams.name p <> None -> RuleListParams.name p = Some (name (queryParams s))).
Proof.
  cbv zeta. rewrite getTableData_run. split.
  - by destruct (srv _ _).
  - unfold list_params. cbn [RuleListParams.page RuleListParams.page_size
      RuleListParams.enabled RuleListParams.name].
    destruct (name (queryParams s)); by repeat split.
Qed.

Lemma getTableData_request_witness :
  RuleListParams.name (list_params PageSamples.disabled_page) = Some (lit "a") /\
  RuleListParams.enabled (list_params PageSamples.disabled_page) = Some 0%Z.
Proof.
  destruct (getTableData_request (fun T _ => Rejected) PageSamples.disabled_page)
    as (_ & _ & _ & H1 & _ & H2).
  split; [apply H2; discriminate | exact H1].
Defined.

(** X24.  How [getTableData] ends.  [loading] is off afterwards, and the
    filters, the page and the page size are never changed.  When the
    request resolves with an empty error channel and data, the table shows
    the returned list (empty when the answer has none) and the item count
    is the returned total (0 when the answer has none); in every other case
    (error answer, answer without data, rejection) the table and the item
    count stay as they were.  The handler throws exactly when the request
    rejects. *)
Theorem getTableData_outcome (srv : PageServer) (s : State) :
  let r := getTableData srv s in
  let outcome := srv _ (getForwardingRules (list_params s)) in
  let s' := Act.final r in
  loading s' = false /\ queryParams s' = queryParams s /\
  page (pagination s') = page (pagination s) /\
  pageSize (pagination s') = pageSize (pagination s) /\
  (forall resp data, outcome = Resolved resp -> Response.error resp = None ->
     Response.data resp = Some data ->
     tableData s' = default [] (Paginated.list data) /\
     itemCount (pagination s') = default 0%Z (Paginated.total data)) /\
  ((forall resp, outcome = Resolved resp ->
      Response.error resp <> None \/ Response.data resp = None) ->
     tableData s' = tableData s /\
     itemCount (pagination s') = itemCount (pagination s)) /\
  (Act.result r = Throw <-> outcome = Rejected).
Proof.
  cbv zeta. rewrite getTableData_run.
  destruct (srv _ _) as [resp|]; cbn [Act.result Act.final Act.trace].
  - destruct (Response.error resp) as [e|] eqn:He;
      [|destruct (Response.data resp) as [data|] eqn:Hd];
      (do 4 (split; [reflexivity|]); split; [|split; [|done]]).
    + intros resp' data [= <-]. congruence.
    + done.
    + intros resp' d [= <-] _ E. assert (data = d) as -> by congruence. done.
    + intros H. destruct (H resp eq_refl); congruence.
    + intros resp' d [= <-]. congruence.
    + done.
  - do 4 (split; [reflexivity|]). split; [|split; [|done]]; [|done].
    by intros resp' data [=].
Qed.

Lemma getTableData_outcome_witness :
  tableData (Act.final (getTableData (fun T _ => Rejected) PageSamples.disabled_page))
  = tableData PageSamples.disabled_page.
Proof.
  destruct (getTableData_outcome (fun T _ => Rejected) PageSamples.disabled_page)
    as (_ & _ & _ & _ & _ & H & _).
  apply H. intros resp [=].
Defined.

(** X25.  Deleting a rule.  [handleDeleteRule] sends the delete request for
    the id; the list is requested again, once and after the delete, exactly
    when the delete resolved with an empty error channel.  After an error
    answer or a rejection the screen is as it was.  The handler throws
    exactly when the delete itself rejects: a failure of the list request
    that follows is not passed on. *)
Theorem handleDeleteRule_refresh (srv : PageServer) (win : Window) (id : jsstring)
  (s : State) :
  let r := handleDeleteRule srv win id s in
  let outcome := srv _ (api (deleteForwardingRule id)) in
  sent_requests (Act.trace r) =
    Sent (api (deleteForwardingRule id)) ::
    match outcome with
    | Resolved resp =>
        match Response.error resp with
        | None => [Sent (getForwardingRules (list_params s))]
        | Some _ => []
        end
    | Rejected => []
    end /\
  ((outcome = Rejected \/
    exists resp, outcome = Resolved resp /\ Response.error resp <> None) ->
   Act.final r = s) /\
  (Act.result r = Throw <-> outcome = Rejected).
Proof.
  cbv zeta. unfold handleDeleteRule, Act.bind, Act.call.
  destruct (srv _ (api _)) as [resp|]; cbn [Act.result Act.final Act.trace app].
  - destruct (Response.error resp) as [e|] eqn:He.
    + cbn. split; [reflexivity|]. split; done.
    + unfold Act.message, Act.detached, Act.bind. rewrite getTableData_run.
      destruct (message_api win), (srv _ (getForwardingRules _));
        cbn; (split; [reflexivity|]; split; [|done]);
        intros [? | (resp' & [= <-] & ?)]; done.
  - cbn. split; [reflexivity|]. split; done.
Qed.

Lemma handleDeleteRule_refresh_witness :
  Act.final (handleDeleteRule (fun T _ => Rejected) (Build_Window true) (lit "r1")
               PageSamples.disabled_page) = PageSamples.disabled_page.
Proof.
  destruct (handleDeleteRule_refresh (fun T _ => Rejected) (Build_Window true)
              (lit "r1") PageSamples.disabled_page) as (_ & H & _).
  apply H. left. reflexivity.
Defined.

Lemma detached_getTableData (srv : PageServer) (s : State) :
  Act.result (Act.detached (getTableData srv) s) = Normal tt /\
  Act.trace (Act.detached (getTableData srv) s)
    = [Sent (getForwardingRules (list_params s))].
Proof.
  unfold Act.detached. rewrite getTableData_run. by destruct (srv _ _).
Qed.

(** X26.  Searching, resetting and changing the page size all start again
    from the first page: each sends exactly one list request, for page 1.
    After a reset the request carries no filter at all; after a change of
    page size it asks for the new size.  Turning to a page requests that
    page with the filters and size untouched.  None of these handlers
    throws, whatever the server does. *)
Theorem requery_from_first_page (srv : PageServer) (s : State) (n size : Z) :
  let q := name (queryParams s) in
  let shown := match q with [] => None | c :: k => Some (c :: k) end in
  let ask params := [Sent (getForwardingRules params)] in
  (Act.result (handleQuery srv s) = Normal tt /\
   Act.trace (handleQuery srv s)
     = ask (RuleListParams.mk 1 (pageSize (pagination s)) shown
              (enabled (queryParams s)))) /\
  (Act.result (handleReset srv s) = Normal tt /\
   Act.trace (handleReset srv s)
     = ask (RuleListParams.mk 1 (pageSize (pagination s)) None None)) /\
  (Act.result (onUpdatePageSize srv size s) = Normal tt /\
   Act.trace (onUpdatePageSize srv size s)
     = ask (RuleListParams.mk 1 size shown (enabled (queryParams s)))) /\
  (Act.result (onChange srv n s) = Normal tt /\
   Act.trace (onChange srv n s)
     = ask (RuleListParams.mk n (pageSize (pagination s)) shown
              (enabled (queryParams s)))).
Proof.
  cbv zeta.
  unfold handleQuery, handleReset, onUpdatePageSize, onChange, Act.bind, Act.modify.
  cbn [Act.result Act.final Act.trace app].
  repeat split;
    first [ rewrite (proj1 (detached_getTableData srv _)); reflexivity
          | rewrite (proj2 (detached_getTableData srv _)); reflexivity ].
Qed.

(** X27.  The index column numbers the rows consecutively, within a page
    and across pages: a row's number is one more than that of the row
    before it, and the first row of a page follows the last row of the full
    page before it; the first row of the first page has number 1. *)
Theorem render_index_consecutive (s : State) (p index : Z) :
  render_index s (index + 1) = (render_index s index + 1)%Z /\
  render_index (set_page (p + 1) s) 0
    = (render_index (set_page p s) (pageSize (pagination s) - 1) + 1)%Z /\
  render_index (set_page 1 s) 0 = 1%Z.
Proof.
  unfold render_index, set_page, set_pagination. cbn [pagination page pageSize].
  repeat split; lia.
Qed.
End RulesPageFlow.

Section ScriptsPageColumns.
Import ScriptsPage.

(** X28.  The script column never shows more than 103 code units.  A script
    of at most 100 code units is shown whole (a missing one as the empty
    string); a longer one is shown as its first 100 code units followed by
    three dots.  In both cases the first 100 code units shown are those of
    the script. *)
Theorem render_script_content_bounded (row : ForwardingScript.t) :
  let content := or_str (ForwardingScript.script_content row) [] in
  let shown := render_script_content row in
  (length shown <= 103)%nat /\
  ((length content <= 100)%nat -> shown = content) /\
  ((100 < length content)%nat -> shown = take 100 content ++ lit "...") /\
  take 100 shown = take 100 content.
Proof.
  cbv zeta. unfold render_script_content. cbv zeta.
  set (content := or_str (ForwardingScript.script_content row) []).
  destruct (100 <? length content)%nat eqn:E.
  - apply Nat.ltb_lt in E. split; [|split; [|split]].
    + rewrite length_app, length_take. change (length (lit "...")) with 3%nat. lia.
    + lia.
    + reflexivity.
    + rewrite take_app_le by (rewrite length_take; lia).
      rewrite take_take. f_equal.
  - apply Nat.ltb_ge in E. split; [lia|]. split; [done|]. split; [lia | done].
Qed.

Lemma render_script_content_bounded_witness :
  render_script_content Samples.stored_script = [].
Proof.
  apply (proj1 (proj2 (render_script_content_bounded Samples.stored_script))).
  simpl. lia.
Defined.
End ScriptsPageColumns.

Section JsonIndent.

Lemma line_delimited_ends rest : line_delimited rest = true -> ends_number rest.
Proof.
  destruct rest as [|c rest]; [done|]. unfold line_delimited, ends_number.
  intros H.
  apply orb_true_iff in H as [H | H];
    [apply orb_true_iff in H as [H | H];
       [apply orb_true_iff in H as [H | H]|]|];
    apply N.eqb_eq in H; subst c; repeat split; discriminate.
Qed.

(** White space before a value, a member or an element is skipped. *)
Lemma blank_ws indent t : blank indent = true -> skip_ws (indent ++ t) = skip_ws t.
Proof.
  unfold blank. induction indent as [|c i IH]; [done|]. cbn [forallb].
  intros [Hc Hi]%andb_true_iff. apply N.eqb_eq in Hc as ->.
  cbn [app skip_ws]. change (is_ws 32) with true. cbv iota. by apply IH.
Qed.

Lemma skip_ws_line indent t :
  blank indent = true -> skip_ws (10 :: indent ++ t) = skip_ws t.
Proof.
  intros H. cbn [skip_ws]. change (is_ws 10) with true. cbv iota.
  by apply blank_ws.
Qed.

Lemma skip_ws_idem s : skip_ws (skip_ws s) = skip_ws s.
Proof.
  induction s as [|c s IH]; [done|]. cbn [skip_ws].
  destruct (is_ws c) eqn:E; [exact IH|]. cbn [skip_ws]. by rewrite E.
Qed.

Lemma parse_value_ws f s : parse_value f (skip_ws s) = parse_value f s.
Proof. destruct f; [reflexivity|]. cbn [parse_value]. by rewrite skip_ws_idem. Qed.

Lemma parse_elements_ws f s : parse_elements f (skip_ws s) = parse_elements f s.
Proof.
  destruct f; [reflexivity|]. rewrite !parse_elements_step.
  by rewrite parse_value_ws.
Qed.

Lemma parse_members_ws f s : parse_members f (skip_ws s) = parse_members f s.
Proof. destruct f; [reflexivity|]. cbn [parse_members]. by rewrite skip_ws_idem. Qed.

Lemma starts_value_head s :
  starts_value s = true ->
  exists c t, s = c :: t /\ is_ws c = false /\ c <> ch "]" /\ c <> ch "}".
Proof.
  destruct s as [|c t]; [done|]. cbn [starts_value].
  intros [[H1 H2]%andb_true_iff H3]%andb_true_iff.
  exists c, t. split; [reflexivity|].
  apply negb_true_iff in H1, H2, H3. apply N.eqb_neq in H2, H3. done.
Qed.

Lemma starts_value_app s t : starts_value s = true -> starts_value (s ++ t) = true.
Proof. by destruct s. Qed.

Lemma starts_value_join sep p ps t :
  starts_value p = true -> starts_value (join sep (p :: ps) ++ t) = true.
Proof.
  intros H. destruct ps; cbn [join]; [by apply starts_value_app|].
  rewrite <- app_assoc. by apply starts_value_app.
Qed.

Lemma parse_value_array_open f inner X :
  blank inner = true -> starts_value X = true ->
  parse_value (S f) (ch "[" :: 10 :: inner ++ X) =
  match parse_elements f X with
  | Some (l, r) => Some (VArr l, r)
  | None => None
  end.
Proof.
  intros Hin HX. rewrite parse_value_array, skip_ws_line by assumption.
  rewrite <- (parse_elements_ws f (10 :: inner ++ X)), skip_ws_line by assumption.
  rewrite parse_elements_ws.
  destruct (starts_value_head X HX) as (c & t & -> & H1 & H2 & _).
  rewrite skip_ws_head by assumption.
  by rewrite (proj2 (N.eqb_neq c (ch "]"))) by assumption.
Qed.

Lemma parse_value_object_open f inner X :
  blank inner = true -> starts_value X = true ->
  parse_value (S f) (ch "{" :: 10 :: inner ++ X) =
  match parse_members f X with
  | Some (m, r) =>
      Some (VObj (fold_left (fun o kv => set_key kv.1 kv.2 o) m []), r)
  | None => None
  end.
Proof.
  intros Hin HX. rewrite parse_value_object, skip_ws_line by assumption.
  rewrite <- (parse_members_ws f (10 :: inner ++ X)), skip_ws_line by assumption.
  rewrite parse_members_ws.
  destruct (starts_value_head X HX) as (c & t & -> & H1 & _ & H3).
  rewrite skip_ws_head by assumption.
  by rewrite (proj2 (N.eqb_neq c (ch "}"))) by assumption.
Qed.

Lemma serialize_indent_object indent m :
  serialize_indent indent (VObj m) =
  match member_lines (indent ++ gap) m with
  | [] => lit "{}"
  | p :: ps =>
      ch "{" :: 10 :: (indent ++ gap) ++
      join (ch "," :: 10 :: indent ++ gap) (p :: ps) ++ 10 :: indent ++ [ch "}"]
  end.
Proof. reflexivity. Qed.

Lemma member_lines_cons inner k x m :
  x <> VUndefined ->
  member_lines inner ((k, x) :: m) =
  (QuoteJSONString k ++ ch ":" :: 32 :: serialize_indent inner x)
  :: member_lines inner m.
Proof. destruct x; done. Qed.

Lemma member_lines_ne inner m :
  m <> [] -> Forall (fun kv => reads_back_indented (snd kv)) m ->
  member_lines inner m <> [].
Proof.
  destruct m as [|[k v] m]; [done|]. intros _ Hall.
  inversion Hall as [|? ? [Hv _] _]; subst. by rewrite member_lines_cons.
Qed.

(** The elements of a non-empty array, one on each line, up to the closing
    bracket. *)
Lemma elements_indented l inner indent :
  blank inner = true -> blank indent = true -> l <> [] ->
  Forall reads_back_indented l ->
  forall fuel rest,
    (length (join (ch "," :: 10%N :: inner) (map (serialize_indent inner) l)) + 1
     <= fuel)%nat ->
    parse_elements fuel
      (join (ch "," :: 10 :: inner) (map (serialize_indent inner) l) ++
       10 :: indent ++ ch "]" :: rest) = Some (l, rest).
Proof.
  intros Hin Hind. induction l as [|v l IH]; [done|].
  intros _ Hall fuel rest Hfuel.
  inversion Hall as [|? ? [_ Hv] Hl]; subst.
  destruct (Hv inner Hin) as (Hstart & Hparse).
  destruct fuel as [|f]; [lia|]. rewrite parse_elements_step.
  destruct l as [|v' l'].
  - cbn [map join] in *. rewrite Hparse by (lia || reflexivity).
    rewrite skip_ws_line by assumption. rewrite skip_ws_head by reflexivity.
    reflexivity.
  - cbn [map] in *. rewrite join_cons2 in *. rewrite <- !app_assoc.
    rewrite !length_app in Hfuel. cbn [length] in Hfuel.
    cbn [app]. rewrite Hparse by (lia || reflexivity).
    rewrite skip_ws_head by reflexivity.
    change (ch "," =? ch ",") with true. cbv iota.
    rewrite <- parse_elements_ws, skip_ws_line by assumption.
    rewrite parse_elements_ws.
    rewrite IH; [reflexivity | done | assumption | lia].
Qed.

Lemma parse_members_line f k t :
  parse_members (S f) (34 :: quote_units k ++ 34 :: ch ":" :: 32 :: t) =
  match parse_value f t with
  | Some (v, s4) =>
      match skip_ws s4 with
      | c3 :: s5 =>
          if c3 =? ch "," then
            match parse_members f s5 with
            | Some (m, r) => Some ((k, v) :: m, r)
            | None => None
            end
          else if c3 =? ch "}" then Some ([(k, v)], s5)
          else None
      | [] => None
      end
  | None => None
  end.
Proof.
  rewrite parse_members_step. rewrite <- (parse_value_ws f (32 :: t)).
  change (skip_ws (32 :: t)) with (skip_ws t). by rewrite parse_value_ws.
Qed.

(** The members of a non-empty object, one on each line, up to the closing
    brace. *)
Lemma members_indented m inner indent :
  blank inner = true -> blank indent = true -> m <> [] ->
  Forall (fun kv => reads_back_indented (snd kv)) m ->
  forall fuel rest,
    (length (join (ch "," :: 10%N :: inner) (member_lines inner m)) + 1 <= fuel)%nat ->
    parse_members fuel
      (join (ch "," :: 10 :: inner) (member_lines inner m) ++
       10 :: indent ++ ch "}" :: rest) = Some (m, rest).
Proof.
  intros Hin Hind. induction m as [|[k v] m IH]; [done|].
  intros _ Hall fuel rest Hfuel.
  inversion Hall as [|? ? [Hdef Hv] Hl]; subst. cbn [snd] in Hdef, Hv.
  destruct (Hv inner Hin) as (Hstart & Hparse).
  destruct fuel as [|f]; [lia|].
  rewrite member_lines_cons in * by assumption.
  unfold QuoteJSONString in *.
  destruct (decide (m = [])) as [-> | Hm].
  - cbn [member_lines join] in *.
    rewrite <- !app_assoc. cbn [app]. rewrite <- !app_assoc. cbn [app].
    rewrite parse_members_line.
    rewrite !length_app in Hfuel. cbn [length] in Hfuel.
    rewrite Hparse by (rewrite ?length_app in *; cbn [length] in *; lia || reflexivity).
    rewrite skip_ws_line by assumption. rewrite skip_ws_head by reflexivity.
    reflexivity.
  - pose proof (member_lines_ne inner m Hm Hl) as Hne.
    rewrite (join_cons_ne _ _ _ Hne) in Hfuel.
    rewrite (join_cons_ne _ _ _ Hne).
    rewrite <- !app_assoc. cbn [app]. rewrite <- !app_assoc. cbn [app].
    rewrite parse_members_line.
    rewrite ?length_app in Hfuel. cbn [length] in Hfuel.
    rewrite ?length_app in Hfuel. cbn [length] in Hfuel.
    rewrite Hparse by (lia || reflexivity).
    rewrite skip_ws_head by reflexivity.
    change (ch "," =? ch ",") with true. cbv iota.
    rewrite <- parse_members_ws, skip_ws_line by assumption.
    rewrite parse_members_ws.
    rewrite IH; [reflexivity | done | assumption | lia].
Qed.

Lemma blank_inner indent : blank indent = true -> blank (indent ++ gap) = true.
Proof. unfold blank. intros H. by rewrite forallb_app, H. Qed.

Lemma null_reads_back_indented : reads_back_indented VNull.
Proof.
  split; [done|]. intros indent _. split; [reflexivity|].
  intros [|f] rest Hf Hr; [cbn in Hf; lia | reflexivity].
Qed.

Lemma bool_reads_back_indented b : reads_back_indented (VBool b).
Proof.
  split; [done|]. intros indent _. split; [by destruct b|].
  intros [|f] rest Hf Hr; [destruct b; cbn in Hf; lia | by destruct b].
Qed.

Lemma string_reads_back_indented s : reads_back_indented (VStr s).
Proof.
  split; [done|]. intros indent _. split; [reflexivity|].
  intros [|f] rest Hf Hr; [cbn in Hf; lia|]. cbn [serialize_indent].
  unfold QuoteJSONString. cbn [app]. rewrite <- app_assoc. cbn [app].
  rewrite parse_value_string, parse_chars_quote. reflexivity.
Qed.

(** A number whose text starts with a sign or a digit and is read back by
    [parse_number]. *)
Lemma number_reads_back_indented n :
  (exists c t, Number_toString n = c :: t /\ (c = ch "-" \/ (48 <= c /\ c <= 57))) ->
  (forall rest, ends_number rest ->
     parse_number (Number_toString n ++ rest) = Some (n, rest)) ->
  reads_back_indented (VNum n).
Proof.
  intros (c & t & E & Hc) Hp. split; [done|]. intros indent _.
  cbn [serialize_indent]. split.
  - rewrite E. cbn [starts_value]. destruct Hc as [-> | Hc]; [reflexivity|].
    change (ch "]") with 93. change (ch "}") with 125.
    rewrite !andb_true_iff, !negb_true_iff. repeat split.
    + unfold is_ws. repeat (apply orb_false_iff; split); apply N.eqb_neq; lia.
    + apply N.eqb_neq. lia.
    + apply N.eqb_neq. lia.
  - intros [|f] rest Hf Hr; [rewrite E in Hf; cbn in Hf; lia|].
    specialize (Hp rest (line_delimited_ends rest Hr)).
    rewrite E in *. cbn [app] in *. rewrite parse_value_number by assumption.
    by rewrite Hp.
Qed.

Lemma int_reads_back_indented z :
  (length (digits (Z.abs_N z)) <= 21)%nat -> reads_back_indented (VNum (NInt z)).
Proof.
  intros Hlen. apply number_reads_back_indented; [by apply number_head|].
  intros rest Hr. by apply parse_number_int_ends.
Qed.

Lemma array_reads_back_indented l :
  Forall reads_back_indented l -> reads_back_indented (VArr l).
Proof.
  intros Hall. split; [done|]. intros indent Hind.
  destruct l as [|v l].
  { split; [reflexivity|].
    intros [|f] rest Hf Hr; [cbn in Hf; lia | reflexivity]. }
  split; [reflexivity|]. intros fuel rest Hfuel Hrest.
  pose proof (blank_inner indent Hind) as Hin.
  change (serialize_indent indent (VArr (v :: l))) with
    (ch "[" :: 10 :: (indent ++ gap) ++
     join (ch "," :: 10 :: indent ++ gap)
          (map (serialize_indent (indent ++ gap)) (v :: l)) ++
     10 :: indent ++ [ch "]"]) in *.
  remember (indent ++ gap) as inner eqn:Ei.
  destruct fuel as [|f]; [cbn in Hfuel; lia|].
  cbn [length] in Hfuel. rewrite !length_app in Hfuel. cbn [length] in Hfuel.
  cbn [app]. rewrite <- !app_assoc. cbn [app]. rewrite <- !app_assoc. cbn [app].
  rewrite parse_value_array_open.
  - rewrite (elements_indented (v :: l) inner indent); try done. lia.
  - exact Hin.
  - cbn [map]. apply starts_value_join.
    inversion Hall as [|? ? [_ Hv] _]; subst. by destruct (Hv _ Hin).
Qed.

Lemma object_reads_back_indented m :
  NoDup (map fst m) -> ordered (map fst m) = true ->
  Forall (fun kv => reads_back_indented (snd kv)) m ->
  reads_back_indented (VObj m).
Proof.
  intros Hnd Hord Hall. split; [done|]. intros indent Hind.
  rewrite serialize_indent_object.
  destruct m as [|[k v] m].
  { split; [reflexivity|].
    intros [|f] rest Hf Hr; [cbn in Hf; lia | reflexivity]. }
  pose proof (blank_inner indent Hind) as Hin.
  remember (indent ++ gap) as inner eqn:Ei.
  pose proof (member_lines_ne inner ((k, v) :: m) ltac:(done) Hall) as Hne.
  pose proof (members_indented ((k, v) :: m) inner indent Hin Hind
                ltac:(done) Hall) as Hm.
  assert (Hst : forall t,
    starts_value (join (ch "," :: 10 :: inner)
                    (member_lines inner ((k, v) :: m)) ++ t) = true).
  { intros t. inversion Hall as [|? ? [Hdef _] _]; subst. cbn [snd] in Hdef.
    rewrite member_lines_cons by assumption. by apply starts_value_join. }
  destruct (member_lines inner ((k, v) :: m)) as [|p ps] eqn:E; [done|].
  split; [reflexivity|]. intros fuel rest Hfuel Hrest.
  destruct fuel as [|f]; [cbn in Hfuel; lia|].
  cbn [length] in Hfuel. rewrite !length_app in Hfuel. cbn [length] in Hfuel.
  cbn [app]. rewrite <- !app_assoc. cbn [app]. rewrite <- !app_assoc. cbn [app].
  rewrite parse_value_object_open; [|exact Hin | apply Hst].
  rewrite Hm by lia. by rewrite (fold_set_key _ []) by assumption.
Qed.

(** Every well-formed value is read back from its indented text. *)
Lemma wf_json_reads_back_indented v : wf_json v = true -> reads_back_indented v.
Proof.
  induction v as [ | |b|n|s|l IH|m IH] using value_induction; intros Hwf;
    try discriminate.
  - apply null_reads_back_indented.
  - apply bool_reads_back_indented.
  - cbn [wf_json] in Hwf.
    apply number_reads_back_indented; [by apply number_head_wf|].
    intros rest Hr. by apply parse_number_wf.
  - apply string_reads_back_indented.
  - cbn [wf_json] in Hwf. apply array_reads_back_indented.
    apply Forall_forall. intros x Hx. rewrite Forall_forall in IH.
    apply IH; [assumption|]. rewrite forallb_forall in Hwf.
    apply Hwf. by apply list_elem_of_In.
  - cbn [wf_json] in Hwf. apply andb_true_iff in Hwf as [Hnd Hwf].
    apply andb_true_iff in Hnd as [Hnd Hord].
    apply bool_decide_eq_true_1 in Hnd.
    apply object_reads_back_indented; [done | done |].
    apply Forall_forall. intros x Hx. rewrite Forall_forall in IH.
    apply IH; [assumption|]. rewrite forallb_forall in Hwf.
    apply Hwf. by apply list_elem_of_In.
Qed.

(** What the model holds exactly it writes and reads back. *)
Lemma plain_decimal_more most most' m e :
  (most <= most')%nat -> plain_decimal most m e = true ->
  plain_decimal most' m e = true.
Proof.
  unfold plain_decimal. intros Hle H.
  repeat (apply andb_true_iff in H as [H ?]).
  rewrite H. cbn [andb]. apply andb_true_iff. split; [|assumption].
  match goal with Hk : (_ <=? most)%nat = true |- _ => apply Nat.leb_le in Hk end.
  apply Nat.leb_le. lia.
Qed.

Lemma exact_number_wf n : exact_number n = true -> wf_number n = true.
Proof.
  destruct n as [z|m e]; cbn [exact_number wf_number].
  - intros H. apply Nat.leb_le in H. apply Nat.leb_le. lia.
  - apply plain_decimal_more. lia.
Qed.

Lemma exact_wf v : exact v = true -> wf_json v = true.
Proof.
  induction v as [ | |b|n|s|l IH|m IH] using value_induction; intros H;
    try done.
  - by apply exact_number_wf.
  - cbn [exact wf_json] in *. apply forallb_forall. intros x Hx.
    rewrite Forall_forall in IH. rewrite forallb_forall in H.
    apply IH; [by apply list_elem_of_In | by apply H].
  - cbn [exact wf_json] in *. apply andb_true_iff in H as [H1 H2].
    rewrite H1. cbn [andb]. apply forallb_forall. intros x Hx.
    rewrite Forall_forall in IH. rewrite forallb_forall in H2.
    apply IH; [by apply list_elem_of_In | by apply H2].
Qed.

Lemma JSON_parse_indented v :
  reads_back_indented v -> JSON_parse (serialize_indent [] v) = Some v.
Proof.
  intros [_ H]. destruct (H [] eq_refl) as [_ Hp]. unfold JSON_parse.
  specialize (Hp (S (length (serialize_indent [] v))) [] ltac:(lia) eq_refl).
  rewrite app_nil_r in Hp. by rewrite Hp.
Qed.

End JsonIndent.

Section ScriptTesterJson.
Import ScriptTester.

(** X29.  [formatJson] changes the layout of a text, not its value.  A text
    that is not JSON is returned as it is.  A text that parses to a value
    the model holds exactly (numbers of at most fifteen significant
    digits, written without an exponent; members as the object lists them,
    array-index keys first) is returned as the indented text of that
    value, which parses to the same value, and formatting that text again
    gives it back unchanged. *)
Theorem formatJson_keeps_value (text : jsstring) :
  (JSON_parse text = None -> formatJson text = text) /\
  (forall v, JSON_parse text = Some v -> exact v = true ->
     formatJson text = serialize_indent [] v /\
     JSON_parse (formatJson text) = Some v /\
     formatJson (formatJson text) = formatJson text).
Proof.
  unfold formatJson. split; [by intros ->|]. intros v -> Hex.
  pose proof (JSON_parse_indented v
                (wf_json_reads_back_indented v (exact_wf v Hex))) as E.
  by rewrite E.
Qed.

Lemma formatJson_keeps_value_witness :
  JSON_parse (formatJson (lit "{ }")) = Some (VObj []) /\
  formatJson (lit "{") = lit "{" /\
  JSON_parse (formatJson MoreSamples.unordered_text)
    = Some (VObj [(lit "1", VNum (NDec 5 1)); (lit "b", VNum (NInt 2))]).
Proof.
  split; [|split].
  - apply (proj2 (formatJson_keeps_value (lit "{ }")) (VObj [])); reflexivity.
  - apply (proj1 (formatJson_keeps_value (lit "{"))). reflexivity.
  - apply (proj2 (formatJson_keeps_value MoreSamples.unordered_text)
             (VObj [(lit "1", VNum (NDec 5 1)); (lit "b", VNum (NInt 2))]));
      reflexivity.
Defined.

Lemma decimal_25_5_reads_back : reads_back_indented (VNum (NDec 255 1)).
Proof.
  by apply wf_json_reads_back_indented.
Qed.

(** X30.  The default test payload is valid JSON whatever the clock says:
    for every time stamp of at most 21 digits, the text [defaultTestData]
    builds parses, and it parses to the object it was built from, with the
    time stamp as its [timestamp] and 25.5 as its temperature. *)
Theorem defaultTestData_parses (now : Z) :
  (length (digits (Z.abs_N now)) <= 21)%nat ->
  exists payload,
    JSON_parse (defaultTestData now) = Some payload /\
    Get payload (lit "timestamp") = Normal (VNum (NInt now)) /\
    (exists data, Get payload (lit "data") = Normal data /\
       Get data (lit "temperature") = Normal (VNum (NDec 255 1)) /\
       Get data (lit "humidity") = Normal (VNum (NInt 60))).
Proof.
  intros Hlen. eexists. split.
  - unfold defaultTestData. apply JSON_parse_indented.
    apply object_reads_back_indented.
    + cbn [map fst]. refine (bool_decide_unpack _ _). vm_compute. exact I.
    + reflexivity.
    + repeat (apply Forall_cons; split); try (by apply Forall_nil); cbn [snd];
        try apply string_reads_back_indented.
      * by apply int_reads_back_indented.
      * apply object_reads_back_indented.
        -- cbn [map fst]. refine (bool_decide_unpack _ _). vm_compute. exact I.
        -- reflexivity.
        -- repeat (apply Forall_cons; split); try (by apply Forall_nil); cbn [snd].
           ++ apply decimal_25_5_reads_back.
           ++ apply int_reads_back_indented. vm_compute. lia.
  - split; [reflexivity|]. eexists. split; [reflexivity|]. by split.
Qed.

Lemma defaultTestData_parses_witness :
  exists payload,
    JSON_parse (defaultTestData 1700000000000) = Some payload /\
    Get payload (lit "timestamp") = Normal (VNum (NInt 1700000000000)).
Proof.
  destruct (defaultTestData_parses 1700000000000 ltac:(vm_compute; lia))
    as (payload & H1 & H2 & _).
  exists payload. by split.
Defined.
End ScriptTesterJson.
